(** * pi-apps: the native launcher window (pkg/gui/xlunch_native.c)

    A shallow embedding of the grid launcher's layout, scroll, hit-test,
    hover, event-dispatch and drawing code, and the properties the
    specification states about them.

    Conventions.
    - A C [int] is a [Z] in the range [INT_MIN .. INT_MAX]; [+], [-] and [*]
      on [int] are written [⊞], [⊟] and [⊠] and wrap around modulo 2^32 (what
      the compiled code does; ISO C leaves signed overflow undefined).
    - [/] and [%] on [int] fault on a zero divisor (and on INT_MIN / -1), so
      every function that divides returns an [outcome].
    - A pointer argument that the code tests against NULL is a [ptr A]
      ([None] is NULL, [Some a] a valid cell holding [a]).
    - The X server and Imlib2 are outside the repository: their state is a
      record [XWorld] that logs every drawing primitive together with the
      surface it lands on. *)

From Stdlib Require Import ZArith Lia Bool.
From stdpp Require Import base numbers list strings.

Local Open Scope Z_scope.

(** ** Machine integers *)

Definition INT_MIN : Z := -2147483648.
Definition INT_MAX : Z := 2147483647.

Definition int_range (z : Z) : Prop := INT_MIN <= z <= INT_MAX.

Definition wrap (z : Z) : Z := (z + 2147483648) mod 4294967296 - 2147483648.

Definition iadd (a b : Z) : Z := wrap (a + b).
Definition isub (a b : Z) : Z := wrap (a - b).
Definition imul (a b : Z) : Z := wrap (a * b).

Infix "⊞" := iadd (at level 50, left associativity).
Infix "⊟" := isub (at level 50, left associativity).
Infix "⊠" := imul (at level 40, left associativity).

(** The result of running code that may die on an arithmetic fault. *)
Inductive outcome (A : Type) : Type :=
| Ret (a : A)
| Fault.
Arguments Ret {A} a.
Arguments Fault {A}.

Definition obind {A B} (m : outcome A) (k : A -> outcome B) : outcome B :=
  match m with
  | Ret a => k a
  | Fault => Fault
  end.

Notation "'let!' x ':=' m 'in' k" := (obind m (fun x => k))
  (at level 10, x name, m at level 100, k at level 200).

Definition idiv (a b : Z) : outcome Z :=
  if b =? 0 then Fault
  else if (a =? INT_MIN) && (b =? -1) then Fault
  else Ret (a ÷ b).

Definition imod (a b : Z) : outcome Z :=
  if b =? 0 then Fault
  else if (a =? INT_MIN) && (b =? -1) then Fault
  else Ret (Z.rem a b).

(** C truth values. *)
Definition truthy (z : Z) : bool := negb (z =? 0).
Definition of_bool (b : bool) : Z := if b then 1 else 0.

Definition ptr (A : Type) : Type := option A.

(** ** The window structure (xlunch_native.h)

    The handles to server-side objects (display, window, gc, Xft draw and
    font, colours, colormap, visual) carry no data of their own and are left
    out; what is drawn through them is recorded in [XWorld] below. *)

Record XLunchNative : Type := mkXLunchNative {
  width : Z;
  height : Z;
  icon_size : Z;
  cols : Z;
  rows : Z;
  cell_width : Z;
  cell_height : Z;
  padding : Z;
  num_entries : Z;
  (* Imlib_Image: NULL, or the pixels of the dimmed backdrop *)
  background_image : ptr (list Z);
  settings_button_hovered : Z;
  logo_button_hovered : Z;
  settings_x : Z; settings_y : Z; settings_w : Z; settings_h : Z;
  logo_x : Z; logo_y : Z; logo_w : Z; logo_h : Z;
  scrolled_past : Z;
  noscroll : Z;
  entries_count : Z;
  scrollbar_color : Z;
  scrollindicator_color : Z;
  scroll_debounce_counter : Z;
  (* Imlib_Image: [true] when the off-screen buffer was allocated *)
  render_buffer : bool;
  dirty : Z
}.

(** Field stores. *)
Definition set_scrolled_past (v : Z) (s : XLunchNative) : XLunchNative :=
  mkXLunchNative (width s) (height s) (icon_size s) (cols s) (rows s)
    (cell_width s) (cell_height s) (padding s) (num_entries s)
    (background_image s) (settings_button_hovered s) (logo_button_hovered s)
    (settings_x s) (settings_y s) (settings_w s) (settings_h s)
    (logo_x s) (logo_y s) (logo_w s) (logo_h s)
    v (noscroll s) (entries_count s)
    (scrollbar_color s) (scrollindicator_color s) (scroll_debounce_counter s)
    (render_buffer s) (dirty s).

Definition set_hover (settings logo : Z) (s : XLunchNative) : XLunchNative :=
  mkXLunchNative (width s) (height s) (icon_size s) (cols s) (rows s)
    (cell_width s) (cell_height s) (padding s) (num_entries s)
    (background_image s) settings logo
    (settings_x s) (settings_y s) (settings_w s) (settings_h s)
    (logo_x s) (logo_y s) (logo_w s) (logo_h s)
    (scrolled_past s) (noscroll s) (entries_count s)
    (scrollbar_color s) (scrollindicator_color s) (scroll_debounce_counter s)
    (render_buffer s) (dirty s).

(** The host stores the number of entries into the structure after it has
    built its list: [entries_count] is read by scrolling, [num_entries] by
    the bounds check of a click. *)
Definition set_entries_count (n : Z) (s : XLunchNative) : XLunchNative :=
  mkXLunchNative (width s) (height s) (icon_size s) (cols s) (rows s)
    (cell_width s) (cell_height s) (padding s) (num_entries s)
    (background_image s) (settings_button_hovered s) (logo_button_hovered s)
    (settings_x s) (settings_y s) (settings_w s) (settings_h s)
    (logo_x s) (logo_y s) (logo_w s) (logo_h s)
    (scrolled_past s) (noscroll s) n
    (scrollbar_color s) (scrollindicator_color s) (scroll_debounce_counter s)
    (render_buffer s) (dirty s).

Definition set_num_entries (n : Z) (s : XLunchNative) : XLunchNative :=
  mkXLunchNative (width s) (height s) (icon_size s) (cols s) (rows s)
    (cell_width s) (cell_height s) (padding s) n
    (background_image s) (settings_button_hovered s) (logo_button_hovered s)
    (settings_x s) (settings_y s) (settings_w s) (settings_h s)
    (logo_x s) (logo_y s) (logo_w s) (logo_h s)
    (scrolled_past s) (noscroll s) (entries_count s)
    (scrollbar_color s) (scrollindicator_color s) (scroll_debounce_counter s)
    (render_buffer s) (dirty s).

(** ** Backdrop darkening (the loop in xlunch_native_init) *)

(** One iteration of the loop body on the pixel [direct[i]]. *)
Definition darken_pixel (p : Z) : Z :=
  let r := Z.land (Z.shiftr p 16) 0xFF in
  let g := Z.land (Z.shiftr p 8) 0xFF in
  let b := Z.land p 0xFF in
  let r := (r * (255 - 160)) ÷ 255 in
  let g := (g * (255 - 160)) ÷ 255 in
  let b := (b * (255 - 160)) ÷ 255 in
  Z.lor (Z.lor (Z.lor 0xFF000000 (Z.shiftl r 16)) (Z.shiftl g 8)) b.

(** [for (i = ..; i < ..; i++) direct[i] = darken(direct[i])], [todo]
    iterations left.  An index beyond the buffer (undefined in C) leaves the
    list as it is. *)
Fixpoint darken_from (todo : nat) (i : nat) (direct : list Z) : list Z :=
  match todo with
  | O => direct
  | S k =>
    match direct !! i with
    | Some p => darken_from k (S i) (<[i := darken_pixel p]> direct)
    | None => darken_from k (S i) direct
    end
  end.

Definition darken_backdrop (n : Z) (direct : list Z) : list Z :=
  darken_from (Z.to_nat n) 0 direct.

(** ** Initialisation *)

(** What the environment decides during initialisation. *)
Record Env : Type := mkEnv {
  malloc_ok : bool;            (* malloc returned a block *)
  display_ok : bool;           (* XOpenDisplay succeeded *)
  render_buffer_ok : bool;     (* imlib_create_image for the render buffer *)
  background_ok : bool;        (* imlib_create_image for the backdrop *)
  (* the buffer [direct] after a successful root capture; None when
     imlib_image_get_data or xl_get_root_image_to_imlib_data failed *)
  root_capture : option (list Z);
  (* the struct comes from malloc and [num_entries] is never assigned *)
  fresh_num_entries : Z
}.

Definition xlunch_native_init (env : Env) (width height icon_size : Z)
  : outcome (ptr XLunchNative) :=
  if negb (malloc_ok env) then Ret None
  else if negb (display_ok env) then Ret None
  else
    let padding := 20 in
    let cell_width := icon_size ⊞ padding ⊠ 2 in
    let cell_height := icon_size ⊞ padding ⊠ 2 ⊞ 20 in
    let! cols := idiv (width ⊟ padding) cell_width in
    let! rows := idiv (height ⊟ padding) cell_height in
    let background :=
      if background_ok env then
        match root_capture env with
        | Some direct => Some (darken_backdrop (width ⊠ height) direct)
        | None => Some (replicate (Z.to_nat (width ⊠ height)) 0xFF2E3440)
        end
      else None in
    Ret (Some
      {| width := width; height := height; icon_size := icon_size;
         cols := cols; rows := rows;
         cell_width := cell_width; cell_height := cell_height;
         padding := padding;
         num_entries := fresh_num_entries env;
         background_image := background;
         settings_button_hovered := 0; logo_button_hovered := 0;
         settings_x := width ⊟ 150; settings_y := 30;
         settings_w := 140; settings_h := 52;
         logo_x := 45; logo_y := 10; logo_w := 245; logo_h := 100;
         scrolled_past := 0; noscroll := 0; entries_count := 0;
         scrollbar_color := 0x3CFFFFFF;
         scrollindicator_color := 0x70FFFFFF;
         scroll_debounce_counter := 0;
         render_buffer := render_buffer_ok env;
         dirty := 1 |}).

(** ** Scrolling *)

Definition xlunch_native_set_scroll_level (xl : ptr XLunchNative) (new_scroll : Z)
  : outcome (Z * ptr XLunchNative) :=
  match xl with
  | None => Ret (0, None)
  | Some s =>
    if truthy (noscroll s) then Ret (0, Some s)
    else
      let old_scroll := scrolled_past s in
      if negb (new_scroll =? scrolled_past s) then
        let s := set_scrolled_past new_scroll s in
        let! q := idiv (entries_count s ⊟ 1) (cols s) in
        let max_scroll := q ⊟ rows s ⊞ 1 in
        let s := if scrolled_past s >? max_scroll
                 then set_scrolled_past max_scroll s else s in
        let s := if scrolled_past s <? 0
                 then set_scrolled_past 0 s else s in
        Ret (of_bool (negb (scrolled_past s =? old_scroll)), Some s)
      else Ret (0, Some s)
  end.

(** ** Header buttons *)

Definition xlunch_native_check_button_hover (xl : ptr XLunchNative)
    (mouse_x mouse_y : Z) : Z :=
  match xl with
  | None => 0
  | Some s =>
    if (mouse_x >=? settings_x s) && (mouse_x <=? settings_x s ⊞ settings_w s)
       && (mouse_y >=? settings_y s) && (mouse_y <=? settings_y s ⊞ settings_h s)
    then 1
    else if (mouse_x >=? logo_x s) && (mouse_x <=? logo_x s ⊞ logo_w s)
       && (mouse_y >=? logo_y s) && (mouse_y <=? logo_y s ⊞ logo_h s)
    then 2
    else 0
  end.

Definition xlunch_native_handle_hover (xl : ptr XLunchNative)
    (mouse_x mouse_y : Z) : ptr XLunchNative :=
  match xl with
  | None => None
  | Some s =>
    let s := set_hover 0 (logo_button_hovered s) s in
    let s := set_hover (settings_button_hovered s) 0 s in
    let button := xlunch_native_check_button_hover (Some s) mouse_x mouse_y in
    if button =? 1 then Some (set_hover 1 (logo_button_hovered s) s)
    else if button =? 2 then Some (set_hover (settings_button_hovered s) 1 s)
    else Some s
  end.

(** ** Grid layout *)

(** The two out-parameters come back with their new contents. *)
Definition xlunch_native_calculate_entry_position (xl : ptr XLunchNative)
    (entry_index : Z) (x y : ptr Z) : outcome (ptr Z * ptr Z) :=
  match xl, x, y with
  | Some s, Some _, Some _ =>
    let! row := idiv entry_index (cols s) in
    let! col := imod entry_index (cols s) in
    let display_row := row ⊟ scrolled_past s in
    Ret (Some (col ⊠ cell_width s ⊞ (cell_width s ⊟ icon_size s) ÷ 2),
         Some (140 ⊞ display_row ⊠ cell_height s))
  | _, _, _ => Ret (x, y)
  end.

(** ** Events *)

Inductive XEvent : Type :=
| KeyPress (keycode : Z)
| ButtonPress (button : Z) (x y : Z)
| Expose
| ClientMessage
| MotionNotify (x y : Z)
| EnterNotify
| LeaveNotify
| OtherEvent (type : Z).

(** What a call of the dispatcher leaves behind: the returned code, the
    structure, the cell behind [selected_entry] and the server's queue. *)
Record Dispatched : Type := mkDispatched {
  code : Z;
  xl_after : ptr XLunchNative;
  selected_after : ptr Z;
  queue_after : list XEvent
}.

(** The common tail of every scroll binding:
    [return scroll_changed ? 2 : 1]. *)
Definition scroll_reply (s : XLunchNative) (target : Z) (rest : list XEvent)
  : outcome Dispatched :=
  let! r := xlunch_native_set_scroll_level (Some s) target in
  Ret (mkDispatched (if truthy (fst r) then 2 else 1) (snd r) (Some (-1)) rest).

Definition xlunch_native_handle_events (xl : ptr XLunchNative)
    (selected_entry : ptr Z) (pending : list XEvent) : outcome Dispatched :=
  match xl, selected_entry with
  | Some s, Some _ =>
    let done c := Ret (mkDispatched c (Some s) (Some (-1)) (tail pending)) in
    match pending with
    | [] => Ret (mkDispatched 1 (Some s) (Some (-1)) [])
    | event :: rest =>
      match event with
      | KeyPress keycode =>
        if keycode =? 9 then done 0
        else if keycode =? 112 then scroll_reply s (scrolled_past s ⊟ rows s) rest
        else if keycode =? 117 then scroll_reply s (scrolled_past s ⊞ rows s) rest
        else if keycode =? 110 then scroll_reply s 0 rest
        else if keycode =? 115 then scroll_reply s (entries_count s) rest
        else if keycode =? 111 then scroll_reply s (scrolled_past s ⊟ 1) rest
        else if keycode =? 116 then scroll_reply s (scrolled_past s ⊞ 1) rest
        else done 1
      | ButtonPress button x y =>
        if button =? 1 then
          if y <? 140 then
            let button_clicked := xlunch_native_check_button_hover (Some s) x y in
            if button_clicked =? 1 then done (-2)
            else if button_clicked =? 2 then done (-3)
            else done 1
          else
            let grid_y := y ⊟ 140 in
            if (x >=? 0) && (grid_y >=? 0) then
              let! col := idiv x (cell_width s) in
              let! display_row := idiv grid_y (cell_height s) in
              let actual_row := display_row ⊞ scrolled_past s in
              let index := actual_row ⊠ cols s ⊞ col in
              if (col >=? 0) && (col <? cols s) && (display_row >=? 0)
                 && (index >=? 0) && (index <? num_entries s) then
                let startY := 140 in
                let cellHeight := cell_height s in
                let! maxVisibleRows := idiv (height s ⊟ startY) cellHeight in
                if display_row <? maxVisibleRows
                then Ret (mkDispatched 0 (Some s) (Some index) rest)
                else done 1
              else done 1
            else done 1
        else if button =? 4 then scroll_reply s (scrolled_past s ⊟ 1) rest
        else if button =? 5 then scroll_reply s (scrolled_past s ⊞ 1) rest
        else done 1
      | Expose => done 2
      | ClientMessage => done 0
      | MotionNotify x y =>
        Ret (mkDispatched 1 (xlunch_native_handle_hover (Some s) x y)
               (Some (-1)) rest)
      | EnterNotify | LeaveNotify =>
        let s := set_hover 0 (logo_button_hovered s) s in
        let s := set_hover (settings_button_hovered s) 0 s in
        Ret (mkDispatched 1 (Some s) (Some (-1)) rest)
      | OtherEvent _ => done 1
      end
    end
  | _, _ => Ret (mkDispatched (-1) xl selected_entry pending)
  end.

(** ** Drawing

    The X server and Imlib2 keep the pixels.  [XWorld] records, in call
    order, each primitive with the surface it was applied to, and the pieces
    of client-side context the calls read: the foreground of the graphics
    context and Imlib2's current image and blend flag.  Imlib2's drawable is
    always the window: no call sets it to anything else. *)

Inductive ImageId : Type :=
| RenderBufferImage
| LoadedImage (path : string).

Inductive Surface : Type :=
| Window
| Image (i : ImageId).

Inductive DrawOp : Type :=
| FillRectangle (fg x y w h : Z)
| DrawRectangle (fg x y w h : Z)
| FillArc (fg x y w h angle1 angle2 : Z)
| DrawLine (fg x1 y1 x2 y2 : Z)
| DrawPoint (fg x y : Z)
| DrawStringUtf8 (highlight : bool) (x y : Z) (text : string)
| BlendImage (src : ImageId) (merge_alpha sx sy sw sh dx dy dw dh : Z)
| RenderImageAtSize (src : option ImageId) (x y w h : Z)
| FreeImage.

#[global] Instance ImageId_eq_dec : EqDecision ImageId.
Proof. solve_decision. Defined.
#[global] Instance Surface_eq_dec : EqDecision Surface.
Proof. solve_decision. Defined.

Record XWorld : Type := mkXWorld {
  drawn : list (Surface * DrawOp);
  gc_foreground : Z;
  context_image : option ImageId;
  context_blend : Z;
  (* imlib_load_image: does the file decode? *)
  loadable : string -> bool;
  image_width : ImageId -> Z;
  image_height : ImageId -> Z
}.

Definition emit (t : Surface) (op : DrawOp) (w : XWorld) : XWorld :=
  mkXWorld (drawn w ++ [(t, op)]) (gc_foreground w) (context_image w)
    (context_blend w) (loadable w) (image_width w) (image_height w).

(** The primitives that landed on one surface. *)
Definition ops_on (t : Surface) (w : XWorld) : list DrawOp :=
  snd <$> filter (fun e => fst e = t) (drawn w).

Definition window_ops (w : XWorld) : list DrawOp := ops_on Window w.
Definition render_buffer_ops (w : XWorld) : list DrawOp :=
  ops_on (Image RenderBufferImage) w.

(** Xlib; every call in the file passes [xl->window] and [xl->gc]. *)
Definition XSetForeground (color : Z) (w : XWorld) : XWorld :=
  mkXWorld (drawn w) color (context_image w) (context_blend w)
    (loadable w) (image_width w) (image_height w).
Definition XFillRectangle (x y wd ht : Z) (w : XWorld) : XWorld :=
  emit Window (FillRectangle (gc_foreground w) x y wd ht) w.
Definition XDrawRectangle (x y wd ht : Z) (w : XWorld) : XWorld :=
  emit Window (DrawRectangle (gc_foreground w) x y wd ht) w.
Definition XFillArc (x y wd ht a1 a2 : Z) (w : XWorld) : XWorld :=
  emit Window (FillArc (gc_foreground w) x y wd ht a1 a2) w.
Definition XDrawLine (x1 y1 x2 y2 : Z) (w : XWorld) : XWorld :=
  emit Window (DrawLine (gc_foreground w) x1 y1 x2 y2) w.
Definition XDrawPoint (x y : Z) (w : XWorld) : XWorld :=
  emit Window (DrawPoint (gc_foreground w) x y) w.

(** Xft; [xl->xft_draw] was created on [xl->window]. *)
Definition XftDrawStringUtf8 (highlight : bool) (x y : Z) (text : string)
    (w : XWorld) : XWorld :=
  emit Window (DrawStringUtf8 highlight x y text) w.

(** Imlib2: an operation works on the image of the current context. *)
Definition imlib_context_set_image (i : ImageId) (w : XWorld) : XWorld :=
  mkXWorld (drawn w) (gc_foreground w) (Some i) (context_blend w)
    (loadable w) (image_width w) (image_height w).
Definition imlib_context_set_blend (b : Z) (w : XWorld) : XWorld :=
  mkXWorld (drawn w) (gc_foreground w) (context_image w) b
    (loadable w) (image_width w) (image_height w).
Definition imlib_context_set_drawable (w : XWorld) : XWorld := w.
Definition imlib_image_get_width (w : XWorld) : Z :=
  from_option (image_width w) 0 (context_image w).
Definition imlib_image_get_height (w : XWorld) : Z :=
  from_option (image_height w) 0 (context_image w).
(** Blends [src] onto the current image. *)
Definition imlib_blend_image_onto_image (src : ImageId)
    (merge_alpha sx sy sw sh dx dy dw dh : Z) (w : XWorld) : XWorld :=
  match context_image w with
  | Some dst => emit (Image dst) (BlendImage src merge_alpha sx sy sw sh dx dy dw dh) w
  | None => w
  end.
(** Renders the current image onto the drawable. *)
Definition imlib_render_image_on_drawable_at_size (x y wd ht : Z) (w : XWorld)
  : XWorld :=
  emit Window (RenderImageAtSize (context_image w) x y wd ht) w.
(** Frees the current image. *)
Definition imlib_free_image (w : XWorld) : XWorld :=
  match context_image w with
  | Some i =>
    let w := emit (Image i) FreeImage w in
    mkXWorld (drawn w) (gc_foreground w) None (context_blend w)
      (loadable w) (image_width w) (image_height w)
  | None => w
  end.

Definition xlunch_native_draw_text (xl : ptr XLunchNative) (x y : Z)
    (text : ptr string) (highlighted : Z) (w : XWorld) : XWorld :=
  match xl, text with
  | Some _, Some text =>
    if truthy highlighted
    then XftDrawStringUtf8 true x y text w
    else XftDrawStringUtf8 false x y text w
  | _, _ => w
  end.

Definition xlunch_native_draw_rect (xl : ptr XLunchNative)
    (x y width height filled : Z) (w : XWorld) : XWorld :=
  match xl with
  | Some _ =>
    if truthy filled
    then XFillRectangle x y width height w
    else XDrawRectangle x y width height w
  | None => w
  end.

(** [sqrt(i*i + j*j) <= radius] on the [int] sum converted to double: a
    negative (overflowed) sum gives NaN and the comparison fails; otherwise
    the correctly rounded root is at most [radius] exactly when the sum is
    at most [radius * radius]. *)
Definition corner_hit (radius i j : Z) : bool :=
  let n := i ⊠ i ⊞ j ⊠ j in
  (0 <=? n) && (n <=? radius * radius).

Definition xlunch_native_draw_rounded_rect (xl : ptr XLunchNative)
    (x y width height radius color : Z) (w : XWorld) : XWorld :=
  match xl with
  | Some _ =>
    let w := XSetForeground color w in
    let w := XFillRectangle (x ⊞ radius) y (width ⊟ 2 ⊠ radius) height w in
    let w := XFillRectangle x (y ⊞ radius) width (height ⊟ 2 ⊠ radius) w in
    foldl (fun w i =>
      foldl (fun w j =>
        if corner_hit radius i j then
          let w := XDrawPoint (x ⊞ radius ⊟ i) (y ⊞ radius ⊟ j) w in
          let w := XDrawPoint (x ⊞ width ⊟ radius ⊞ i ⊟ 1) (y ⊞ radius ⊟ j) w in
          let w := XDrawPoint (x ⊞ radius ⊟ i) (y ⊞ height ⊟ radius ⊞ j ⊟ 1) w in
          XDrawPoint (x ⊞ width ⊟ radius ⊞ i ⊟ 1) (y ⊞ height ⊟ radius ⊞ j ⊟ 1) w
        else w) w (seqZ 0 radius)) w (seqZ 0 radius)
  | None => w
  end.

(** [strstr(haystack, needle) != NULL]. *)
Definition strstr (haystack needle : string) : bool :=
  bool_decide (is_Some (String.index 0 needle haystack)).

(** What C leaves to the platform and the hash of the path depends on:
    whether plain [char] is signed (x86) or unsigned (ARM Linux), and the
    width of [unsigned long] (32 bits on armhf and i386, 64 bits on x86-64
    and aarch64). *)
Inductive LongWidth : Type := Long32 | Long64.

Record Platform : Type := mkPlatform {
  char_signed : bool;
  long_width : LongWidth
}.

Definition long_bits (abi : Platform) : Z :=
  match long_width abi with
  | Long32 => 32
  | Long64 => 64
  end.

Definition x86_64 : Platform := mkPlatform true Long64.
Definition aarch64 : Platform := mkPlatform false Long64.
Definition armhf : Platform := mkPlatform false Long32.

(** The value of a plain [char] holding the byte [c]. *)
Definition char_value (abi : Platform) (c : Ascii.ascii) : Z :=
  let byte := Z.of_N (Ascii.N_of_ascii c) in
  if char_signed abi && (128 <=? byte) then byte - 256 else byte.

(** Conversion to [unsigned long]. *)
Definition ulong (abi : Platform) (z : Z) : Z := z mod 2 ^ long_bits abi.

(** [hash = ((hash << 5) + hash) + *p] over the characters of the path: the
    [char] is promoted to [int] and converted to [unsigned long]. *)
Fixpoint path_hash (abi : Platform) (hash : Z) (p : string) : Z :=
  match p with
  | EmptyString => hash
  | String c rest =>
    path_hash abi
      (ulong abi (ulong abi (ulong abi (Z.shiftl hash 5) + hash)
                  + char_value abi c))
      rest
  end.

Definition category_color (abi : Platform) (icon_path : string) : Z :=
  let hash := path_hash abi 5381 icon_path in
  if strstr icon_path "Games" || strstr icon_path "games" then 0x9b59b6
  else if strstr icon_path "Internet" || strstr icon_path "internet" then 0x3498db
  else if strstr icon_path "Multimedia" || strstr icon_path "multimedia" then 0xe74c3c
  else if strstr icon_path "Office" || strstr icon_path "office" then 0x2ecc71
  else if strstr icon_path "Programming" || strstr icon_path "programming" then 0xf39c12
  else if strstr icon_path "Engineering" || strstr icon_path "engineering" then 0x34495e
  else if strstr icon_path "Appearance" || strstr icon_path "appearance" then 0xe67e22
  else if strstr icon_path "Tools" || strstr icon_path "tools" then 0x95a5a6
  else 0x3498db + (hash mod 5) * 0x151515.

Definition xlunch_native_draw_icon (abi : Platform) (xl : ptr XLunchNative)
    (x y width height : Z) (icon_path : ptr string) (w : XWorld) : XWorld :=
  match xl, icon_path with
  | Some s, Some icon_path =>
    if loadable w icon_path then
      let icon := LoadedImage icon_path in
      let w := imlib_context_set_image icon w in
      let w :=
        if render_buffer s then
          let w := imlib_context_set_image RenderBufferImage w in
          imlib_context_set_blend 1 w
        else
          let w := imlib_context_set_drawable w in
          imlib_context_set_blend 1 w in
      let icon_padding := 8 in
      let actual_x := x ⊞ icon_padding in
      let actual_y := y ⊞ icon_padding in
      let actual_w := width ⊟ icon_padding ⊠ 2 in
      let actual_h := height ⊟ icon_padding ⊠ 2 in
      let w :=
        if (actual_w >? 16) && (actual_h >? 16) then
          if render_buffer s then
            let w := imlib_context_set_image icon w in
            let w := imlib_blend_image_onto_image icon 1 0 0
                       (imlib_image_get_width w) (imlib_image_get_height w)
                       actual_x actual_y actual_w actual_h w in
            imlib_context_set_image RenderBufferImage w
          else
            imlib_render_image_on_drawable_at_size actual_x actual_y actual_w actual_h w
        else
          if render_buffer s then
            let w := imlib_context_set_image icon w in
            let w := imlib_blend_image_onto_image icon 1 0 0
                       (imlib_image_get_width w) (imlib_image_get_height w)
                       x y width height w in
            imlib_context_set_image RenderBufferImage w
          else
            imlib_render_image_on_drawable_at_size x y width height w in
      imlib_free_image w
    else
      let color := category_color abi icon_path in
      let w := XSetForeground color w in
      let icon_padding := 8 in
      let draw_x := x ⊞ icon_padding in
      let draw_y := y ⊞ icon_padding in
      let draw_w := width ⊟ icon_padding ⊠ 2 in
      let draw_h := height ⊟ icon_padding ⊠ 2 in
      let corner_radius := 6 in
      let w := XFillRectangle (draw_x ⊞ corner_radius) draw_y
                 (draw_w ⊟ 2 ⊠ corner_radius) draw_h w in
      let w := XFillRectangle draw_x (draw_y ⊞ corner_radius)
                 draw_w (draw_h ⊟ 2 ⊠ corner_radius) w in
      let w := XFillArc draw_x draw_y
                 (2 ⊠ corner_radius) (2 ⊠ corner_radius) (90 ⊠ 64) (90 ⊠ 64) w in
      let w := XFillArc (draw_x ⊞ draw_w ⊟ 2 ⊠ corner_radius) draw_y
                 (2 ⊠ corner_radius) (2 ⊠ corner_radius) (0 ⊠ 64) (90 ⊠ 64) w in
      let w := XFillArc draw_x (draw_y ⊞ draw_h ⊟ 2 ⊠ corner_radius)
                 (2 ⊠ corner_radius) (2 ⊠ corner_radius) (180 ⊠ 64) (90 ⊠ 64) w in
      let w := XFillArc (draw_x ⊞ draw_w ⊟ 2 ⊠ corner_radius)
                 (draw_y ⊞ draw_h ⊟ 2 ⊠ corner_radius)
                 (2 ⊠ corner_radius) (2 ⊠ corner_radius) (270 ⊠ 64) (90 ⊠ 64) w in
      let w := XSetForeground (ulong abi (color + 0x333333)) w in
      let w := XDrawLine (draw_x ⊞ corner_radius) (draw_y ⊞ 1)
                 (draw_x ⊞ draw_w ⊟ corner_radius) (draw_y ⊞ 1) w in
      let w := XSetForeground 0x000000 w in
      XDrawRectangle (draw_x ⊞ 2) (draw_y ⊞ 2) (draw_w ⊟ 1) (draw_h ⊟ 1) w
  | _, _ => w
  end.

(** ** Capturing the desktop

    The root pixmap and the root window live in the X server.  What the
    server answers is a record: the two root properties, the root geometry,
    the image behind each pixmap and the root-relative origin of the
    window.  Captures of the root window itself may differ from call to
    call, so their results are a tape read in call order. *)

Record XImage : Type := mkXImage {
  img_width : Z;
  img_height : Z;
  XGetPixel : Z -> Z -> Z
}.

Record RootServer : Type := mkRootServer {
  (* XGetWindowProperty: None when the call is not Success, Some None when
     it is Success without data, Some (Some id) with a pixmap id *)
  prop_XROOTPMAP_ID : option (option Z);
  prop_XROOTMAP_ID : option (option Z);
  root_width : Z;
  root_height : Z;
  (* XGetImage on a pixmap *)
  pixmap_image : Z -> option XImage;
  (* XTranslateCoordinates of the window's origin to the root *)
  win_origin : Z * Z
}.

(** One XGetImage on the root window: the next answer of the tape. *)
Definition XGetImage (tape : list (option XImage))
  : option XImage * list (option XImage) :=
  match tape with
  | [] => (None, [])
  | r :: rest => (r, rest)
  end.

(** [for (i = start; cond(i); i++) body(i)] for a loop whose condition bounds
    [i] by the number of iterations given. *)
Fixpoint for_loop {S : Type} (todo : nat) (i : Z) (cond : Z -> bool)
    (body : Z -> S -> S) (st : S) : S :=
  match todo with
  | O => st
  | Datatypes.S k =>
    if cond i then for_loop k (i ⊞ 1) cond body (body i st) else st
  end.

(** [direct[i] = v]; an index outside the buffer (undefined in C) leaves the
    list as it is. *)
Definition store (i : Z) (v : Z) (direct : list Z) : list Z :=
  if 0 <=? i then <[Z.to_nat i := v]> direct else direct.

Definition GetRootPixmap (srv : RootServer) : Z :=
  match prop_XROOTPMAP_ID srv with
  | Some data =>
    match data with
    | Some currentRootPixmap => currentRootPixmap
    | None => 0
    end
  | None =>
    match prop_XROOTMAP_ID srv with
    | Some (Some currentRootPixmap) => currentRootPixmap
    | _ => 0
    end
  end.

(** The copy loop of xl_capture_desktop_alternative. *)
Definition copy_centered (img : XImage) (width height center_x center_y : Z)
    (direct : list Z) : list Z :=
  for_loop (Z.to_nat height) 0 (fun y => y <? height)
    (fun y direct =>
       for_loop (Z.to_nat width) 0 (fun x => x <? width)
         (fun x direct =>
            let src_x := center_x ⊞ x in
            let src_y := center_y ⊞ y in
            if (src_x >=? 0) && (src_y >=? 0) && (src_x <? img_width img)
               && (src_y <? img_height img)
            then store (y ⊠ width ⊞ x)
                   (Z.land 0xFFFFFF (XGetPixel img src_x src_y)) direct
            else store (y ⊠ width ⊞ x) 0xFF000000 direct)
         direct)
    direct.

(** The plane-mask retries: up to [n] captures, stopping at the first that
    gives an image. *)
Fixpoint try_plane_masks (n : nat) (tape : list (option XImage))
  : option XImage * list (option XImage) :=
  match n with
  | O => (None, tape)
  | Datatypes.S k =>
    match XGetImage tape with
    | (Some img, tape) => (Some img, tape)
    | (None, tape) => try_plane_masks k tape
    end
  end.

Definition xl_capture_desktop_alternative (srv : RootServer)
    (xl : XLunchNative) (direct : list Z) (tape : list (option XImage))
  : Z * list Z * list (option XImage) :=
  let '(img, tape) := try_plane_masks 4 tape in
  let '(img, tape) :=
    match img with
    | Some _ => (img, tape)
    | None =>
      match XGetImage tape with
      | (Some _, tape) => XGetImage tape
      | (None, tape) => (None, tape)
      end
    end in
  match img with
  | None => (0, direct, tape)
  | Some img =>
    let center_x := (root_width srv ⊟ width xl) ÷ 2 in
    let center_y := (root_height srv ⊟ height xl) ÷ 2 in
    (1, copy_centered img (width xl) (height xl) center_x center_y direct, tape)
  end.

(** The copy loop of xl_get_root_image_to_imlib_data. *)
Definition copy_cropped (img : XImage) (width height win_x win_y : Z)
    (direct : list Z) : list Z :=
  for_loop (Z.to_nat height) 0
    (fun y => (y <? height) && (y ⊞ win_y <? img_height img))
    (fun y direct =>
       for_loop (Z.to_nat width) 0
         (fun x => (x <? width) && (x ⊞ win_x <? img_width img))
         (fun x direct =>
            let src_x := x ⊞ win_x in
            let src_y := y ⊞ win_y in
            if (src_x >=? 0) && (src_y >=? 0) && (src_x <? img_width img)
               && (src_y <? img_height img)
            then store (y ⊠ width ⊞ x)
                   (Z.land 0xffffffff (XGetPixel img src_x src_y)) direct
            else store (y ⊠ width ⊞ x) 0xff000000 direct)
         direct)
    direct.

Definition xl_get_root_image_to_imlib_data (srv : RootServer)
    (xl : ptr XLunchNative) (direct : ptr (list Z))
    (tape : list (option XImage))
  : Z * ptr (list Z) * list (option XImage) :=
  match xl, direct with
  | Some s, Some d =>
    let bg := GetRootPixmap srv in
    let '(img, tape) :=
      if truthy bg then (pixmap_image srv bg, tape)
      else XGetImage tape in
    match img with
    | None =>
      let '(r, d, tape) := xl_capture_desktop_alternative srv s d tape in
      (r, Some d, tape)
    | Some img =>
      let '(win_x, win_y) := win_origin srv in
      (1, Some (copy_cropped img (width s) (height s) win_x win_y d), tape)
    end
  | _, _ => (0, direct, tape)
  end.

(** ** The scrollbar

    The position of the indicator is computed in single-precision floating
    point, [(int)((span) * ((float)scrolled_past / divisor))], which is
    outside this development: the function takes that computation as the
    parameter [to_shift span scrolled_past divisor].  Everything else, the
    guards, the integer divisions and the two rectangles, is the code's. *)
Definition xlunch_native_draw_scrollbar (to_shift : Z -> Z -> Z -> Z)
    (xl : ptr XLunchNative) (w : XWorld) : outcome XWorld :=
  match xl with
  | None => Ret w
  | Some s =>
    if truthy (noscroll s) then Ret w
    else
      let scrollbar_width := 15 in
      let scrollbar_height := height s ⊟ 180 in
      let scrollbar_screen_margin := 30 in
      let visible_entries := rows s ⊠ cols s in
      if entries_count s <=? visible_entries then Ret w
      else
        let! q := idiv (scrollbar_height ⊠ visible_entries) (entries_count s) in
        let scrollbar_draggable_height := if q <? 20 then 20 else q in
        let! pages := idiv (entries_count s ⊟ 1) (cols s) in
        let divisor := pages ⊟ rows s ⊞ 1 in
        let scrollbar_draggable_shift :=
          to_shift (scrollbar_height ⊟ scrollbar_draggable_height)
            (scrolled_past s) divisor in
        let w := XSetForeground 0x606060 w in
        let w := XFillRectangle (width s ⊟ scrollbar_screen_margin) 160
                   scrollbar_width scrollbar_height w in
        let w := XSetForeground 0xA0A0A0 w in
        Ret (XFillRectangle (width s ⊟ scrollbar_screen_margin)
               (160 ⊞ scrollbar_draggable_shift)
               scrollbar_width scrollbar_draggable_height w)
  end.

(** ** Reference states and the specification's own formulas *)

(** An environment in which the display opens and the render buffer is
    allocated, but no backdrop image is. *)
Definition plain_env : Env := mkEnv true true true false None 0.

(** The structure after [xlunch_native_init(800, 600, 64)]. *)
Definition xl_800x600 : XLunchNative :=
  {| width := 800; height := 600; icon_size := 64; cols := 7; rows := 4;
     cell_width := 104; cell_height := 124; padding := 20;
     num_entries := 0; background_image := None;
     settings_button_hovered := 0; logo_button_hovered := 0;
     settings_x := 650; settings_y := 30; settings_w := 140; settings_h := 52;
     logo_x := 45; logo_y := 10; logo_w := 245; logo_h := 100;
     scrolled_past := 0; noscroll := 0; entries_count := 0;
     scrollbar_color := 0x3CFFFFFF; scrollindicator_color := 0x70FFFFFF;
     scroll_debounce_counter := 0; render_buffer := true; dirty := 1 |}.

(** The structure after [xlunch_native_init(800, 100, 64)]: a window too low
    for a single row of cells. *)
Definition xl_800x100 : XLunchNative :=
  {| width := 800; height := 100; icon_size := 64; cols := 7; rows := 0;
     cell_width := 104; cell_height := 124; padding := 20;
     num_entries := 0; background_image := None;
     settings_button_hovered := 0; logo_button_hovered := 0;
     settings_x := 650; settings_y := 30; settings_w := 140; settings_h := 52;
     logo_x := 45; logo_y := 10; logo_w := 245; logo_h := 100;
     scrolled_past := 0; noscroll := 0; entries_count := 0;
     scrollbar_color := 0x3CFFFFFF; scrollindicator_color := 0x70FFFFFF;
     scroll_debounce_counter := 0; render_buffer := true; dirty := 1 |}.

(** An environment for a 2x1 window whose root capture gave two pixels. *)
Definition tiny_env : Env :=
  mkEnv true true true true (Some [0x000080FF; 0xFFFFFFFF]) 0.

(** An X world in which nothing has been drawn and no file decodes. *)
Definition blank_world : XWorld :=
  mkXWorld [] 0 None 0 (fun _ => false) (fun _ => 0) (fun _ => 0).

(** A path with a character outside ASCII (the two bytes of U+00E9). *)
Definition cafe_path : string :=
  String.append "/apps/Caf"
    (String (Ascii.ascii_of_nat 195)
       (String (Ascii.ascii_of_nat 169) "/icon-64.png")).

(** The same with one decodable 48x48 icon. *)
Definition icon_world : XWorld :=
  mkXWorld [] 0 None 0 (fun p => bool_decide (p = "icon.png"))
    (fun _ => 48) (fun _ => 48).

(** The bound [max_scroll] as the scroll setter computes it, and the offset
    it stores for a request that differs from the current one. *)
Definition code_max_scroll (s : XLunchNative) : Z :=
  (entries_count s ⊟ 1) ÷ cols s ⊟ rows s ⊞ 1.
Definition clamped (s : XLunchNative) (new_scroll : Z) : Z :=
  Z.max 0 (Z.min new_scroll (code_max_scroll s)).

(** The scroll bound as the specification writes it: floor division,
    clamped at zero. *)
Definition spec_max_scroll (s : XLunchNative) : Z :=
  Z.max 0 ((entries_count s - 1) / cols s - rows s + 1).

(** The layout fields are the ones initialisation derives from a positive
    window size and icon size. *)
Definition derived_layout (s : XLunchNative) : Prop :=
  0 < width s <= INT_MAX /\ 0 < height s <= INT_MAX /\
  0 < icon_size s <= INT_MAX - 60 /\
  padding s = 20 /\
  cell_width s = icon_size s + 40 /\
  cell_height s = icon_size s + 60 /\
  cols s = (width s - 20) ÷ cell_width s /\
  rows s = (height s - 20) ÷ cell_height s.

(** Row of an entry on screen, and the number of fully visible rows. *)
Definition display_row_of (s : XLunchNative) (index : Z) : Z :=
  index ÷ cols s - scrolled_past s.
Definition visible_rows (s : XLunchNative) : Z :=
  (height s - 140) ÷ cell_height s.

(** The two header rectangles, edges included. *)
Definition in_settings_rect (s : XLunchNative) (mx my : Z) : Prop :=
  settings_x s <= mx <= settings_x s ⊞ settings_w s /\
  settings_y s <= my <= settings_y s ⊞ settings_h s.
Definition in_logo_rect (s : XLunchNative) (mx my : Z) : Prop :=
  logo_x s <= mx <= logo_x s ⊞ logo_w s /\
  logo_y s <= my <= logo_y s ⊞ logo_h s.

(** The channels of a 32-bit ARGB pixel. *)
Definition alpha_of (p : Z) : Z := Z.land (Z.shiftr p 24) 0xFF.
Definition red_of (p : Z) : Z := Z.land (Z.shiftr p 16) 0xFF.
Definition green_of (p : Z) : Z := Z.land (Z.shiftr p 8) 0xFF.
Definition blue_of (p : Z) : Z := Z.land p 0xFF.

(** The darkening of one channel as the specification writes it. *)
Definition spec_darken (c : Z) : Z := c * 95 / 255.

(** [w1] is [w0] after some primitives, all of them applied to the window. *)
Definition window_only (w0 w1 : XWorld) : Prop :=
  exists ops, drawn w1 = drawn w0 ++ (pair Window <$> ops).

(** The code of a dispatch, when the call returned. *)
Definition code_of (r : outcome Dispatched) : option Z :=
  match r with
  | Ret d => Some (code d)
  | Fault => None
  end.

(** ** Further notions used by the properties beyond the specification *)

(** The offset is within the bound the scroll setter itself enforces. *)
Definition scroll_in_range (s : XLunchNative) : Prop :=
  0 <= scrolled_past s <= Z.max 0 (code_max_scroll s).

(** [s1] is [s] up to the scroll offset and the two hover flags. *)
Definition same_but_scroll_hover (s s1 : XLunchNative) : Prop :=
  s1 = set_hover (settings_button_hovered s1) (logo_button_hovered s1)
         (set_scrolled_past (scrolled_past s1) s).

(** The events bound to scrolling, with the offset each one requests. *)
Definition scroll_request (s : XLunchNative) (ev : XEvent) : option Z :=
  match ev with
  | KeyPress keycode =>
    if keycode =? 112 then Some (scrolled_past s ⊟ rows s)
    else if keycode =? 117 then Some (scrolled_past s ⊞ rows s)
    else if keycode =? 110 then Some 0
    else if keycode =? 115 then Some (entries_count s)
    else if keycode =? 111 then Some (scrolled_past s ⊟ 1)
    else if keycode =? 116 then Some (scrolled_past s ⊞ 1)
    else None
  | ButtonPress button _ _ =>
    if button =? 4 then Some (scrolled_past s ⊟ 1)
    else if button =? 5 then Some (scrolled_past s ⊞ 1)
    else None
  | _ => None
  end.

(** The header rectangles are where initialisation puts them. *)
Definition init_buttons (s : XLunchNative) : Prop :=
  0 < width s <= INT_MAX /\
  settings_x s = width s - 150 /\ settings_y s = 30 /\
  settings_w s = 140 /\ settings_h s = 52 /\
  logo_x s = 45 /\ logo_y s = 10 /\ logo_w s = 245 /\ logo_h s = 100.

(** A backdrop pixel is opaque and no channel is brighter than 95. *)
Definition dim_opaque (q : Z) : Prop :=
  alpha_of q = 255 /\ red_of q <= 95 /\ green_of q <= 95 /\ blue_of q <= 95.

(** The colours a placeholder tile can take: the eight category colours and
    the five blues of the default palette. *)
Definition placeholder_palette : list Z :=
  [0x9b59b6; 0x3498db; 0xe74c3c; 0x2ecc71; 0xf39c12; 0x34495e; 0xe67e22;
   0x95a5a6;
   0x3498db + 0 * 0x151515; 0x3498db + 1 * 0x151515; 0x3498db + 2 * 0x151515;
   0x3498db + 3 * 0x151515; 0x3498db + 4 * 0x151515].

(** The pixels a filled rectangle or a point paints, and in which colour. *)
Definition rect_or_point (o : DrawOp) : bool :=
  match o with
  | FillRectangle _ _ _ _ _ | DrawPoint _ _ _ => true
  | _ => false
  end.

Definition paints (o : DrawOp) (c px py : Z) : Prop :=
  match o with
  | FillRectangle fg rx ry rw rh =>
    fg = c /\ rx <= px < rx + rw /\ ry <= py < ry + rh
  | DrawPoint fg qx qy => fg = c /\ px = qx /\ py = qy
  | _ => False
  end.

(** One of the four corner pixels of the box at [(x, y)] of size
    [wd] x [ht]. *)
Definition corner_pixel (x y wd ht px py : Z) : Prop :=
  (px = x \/ px = x + wd - 1) /\ (py = y \/ py = y + ht - 1).

(** What a primitive of a rounded rectangle is expected to satisfy: it is a
    rectangle or a point, paints in [color] and inside the box, and, for a
    radius of at least 1 that leaves room between the corners, paints none
    of the four corner pixels. *)
Definition inside_rounded (x y wd ht radius color : Z) (o : DrawOp) : Prop :=
  rect_or_point o = true /\
  forall c px py, paints o c px py ->
    c = color /\ x <= px < x + wd /\ y <= py < y + ht /\
    (1 <= radius -> 2 * radius < wd -> 2 * radius < ht ->
     ~ corner_pixel x y wd ht px py).

(** [w1] is [w0] after primitives on the window that all satisfy [P], with
    the foreground colour of the graphics context kept. *)
Definition adds (P : DrawOp -> Prop) (w0 w1 : XWorld) : Prop :=
  gc_foreground w1 = gc_foreground w0 /\
  exists ops, drawn w1 = drawn w0 ++ (pair Window <$> ops) /\ Forall P ops.

(** * Properties *)

(** ** Machine arithmetic *)

Lemma wrap_small z : int_range z -> wrap z = z.
Proof.
  unfold int_range, INT_MIN, INT_MAX, wrap. intros H.
  rewrite Z.mod_small; lia.
Qed.

Lemma wrap_range z : int_range (wrap z).
Proof.
  unfold int_range, INT_MIN, INT_MAX, wrap.
  pose proof (Z.mod_pos_bound (z + 2147483648) 4294967296). lia.
Qed.

Lemma wrap_wrap_add a b : wrap (wrap a + b) = wrap (a + b).
Proof.
  unfold wrap.
  replace ((a + 2147483648) mod 4294967296 - 2147483648 + b + 2147483648)
    with ((a + 2147483648) mod 4294967296 + b) by lia.
  rewrite Zplus_mod_idemp_l. f_equal. f_equal. lia.
Qed.

Lemma idiv_pos a b : 0 < b -> idiv a b = Ret (a ÷ b).
Proof.
  intros H. unfold idiv.
  destruct (Z.eqb_spec b 0); [lia|].
  destruct (Z.eqb_spec b (-1)); [lia|].
  now rewrite andb_false_r.
Qed.

Lemma imod_pos a b : 0 < b -> imod a b = Ret (Z.rem a b).
Proof.
  intros H. unfold imod.
  destruct (Z.eqb_spec b 0); [lia|].
  destruct (Z.eqb_spec b (-1)); [lia|].
  now rewrite andb_false_r.
Qed.

Lemma quot_floor a b : 0 <= a -> 0 < b -> a ÷ b = a / b.
Proof. intros. apply Z.quot_div_nonneg; lia. Qed.

(** ** The reference states *)

Example init_800x600 :
  xlunch_native_init plain_env 800 600 64 = Ret (Some xl_800x600).
Proof. reflexivity. Qed.

Example init_800x100 :
  xlunch_native_init plain_env 800 100 64 = Ret (Some xl_800x100).
Proof. reflexivity. Qed.

(** The specification's click scenario: pixel (110, 145) with 50 entries
    and no scrolling is column 1 of display row 0, entry 1. *)
Example click_110_145 :
  xlunch_native_handle_events (Some (set_num_entries 50 xl_800x600)) (Some 0)
    [ButtonPress 1 110 145]
  = Ret (mkDispatched 0 (Some (set_num_entries 50 xl_800x600)) (Some 1) []).
Proof. reflexivity. Qed.

(** The placeholder colour of an icon that does not load: by category, or
    one of five blues picked by the hash of the path. *)
Example category_color_games abi :
  category_color abi "/apps/Games/icon-64.png" = 0x9b59b6.
Proof. reflexivity. Qed.

Example category_color_default :
  category_color x86_64 "/apps/Zoom/icon-64.png" = 0x5ec305 /\
  category_color aarch64 "/apps/Zoom/icon-64.png" = 0x5ec305 /\
  category_color armhf "/apps/Zoom/icon-64.png" = 0x88ed2f.
Proof. repeat split; vm_compute; reflexivity. Qed.

(** Outside ASCII the sign of [char] shows: the bytes 0xC3 0xA9 are added as
    -61 and -87 where [char] is signed. *)
Example category_color_signed_char :
  category_color x86_64 cafe_path = 0x88ed2f /\
  category_color aarch64 cafe_path = 0x49adf0 /\
  category_color armhf cafe_path = 0x73d81a.
Proof. repeat split; vm_compute; reflexivity. Qed.

(** ** Scrolling *)

Lemma set_scrolled_past_twice a b s :
  set_scrolled_past a (set_scrolled_past b s) = set_scrolled_past a s.
Proof. reflexivity. Qed.

Lemma set_scrolled_past_same s : set_scrolled_past (scrolled_past s) s = s.
Proof. now destruct s. Qed.

(** The setter, case by case. *)
Lemma set_scroll_level_cases s n :
  xlunch_native_set_scroll_level (Some s) n =
  if truthy (noscroll s) || (n =? scrolled_past s) then Ret (0, Some s)
  else
    let! _ := idiv (entries_count s ⊟ 1) (cols s) in
    Ret (of_bool (negb (clamped s n =? scrolled_past s)),
         Some (set_scrolled_past (clamped s n) s)).
Proof.
  unfold xlunch_native_set_scroll_level, clamped, code_max_scroll.
  destruct (truthy (noscroll s)); [reflexivity|].
  destruct (Z.eqb_spec n (scrolled_past s)) as [->|Hne]; [reflexivity|].
  cbn [negb orb set_scrolled_past cols entries_count rows scrolled_past].
  unfold idiv.
  destruct (cols s =? 0); [reflexivity|].
  destruct ((entries_count s ⊟ 1 =? INT_MIN) && (cols s =? -1)); [reflexivity|].
  cbn [obind].
  set (M := (entries_count s ⊟ 1) ÷ cols s ⊟ rows s ⊞ 1).
  destruct (Z.gtb_spec n M) as [Hgt|Hle];
    cbn [set_scrolled_past scrolled_past].
  - replace (Z.min n M) with M by lia.
    destruct (Z.ltb_spec M 0); cbn [set_scrolled_past scrolled_past].
    + replace (Z.max 0 M) with 0 by lia. reflexivity.
    + replace (Z.max 0 M) with M by lia. reflexivity.
  - replace (Z.min n M) with n by lia.
    destruct (Z.ltb_spec n 0); cbn [set_scrolled_past scrolled_past].
    + replace (Z.max 0 n) with 0 by lia. reflexivity.
    + replace (Z.max 0 n) with n by lia. reflexivity.
Qed.

(** The call returns whenever the column count is positive. *)
Lemma set_scroll_level_returns s n :
  1 <= cols s ->
  exists c s1, xlunch_native_set_scroll_level (Some s) n = Ret (c, Some s1).
Proof.
  intros Hc. rewrite set_scroll_level_cases.
  destruct (truthy (noscroll s) || (n =? scrolled_past s)); [eauto|].
  rewrite idiv_pos by lia. cbn [obind]. eauto.
Qed.

(** C6. [setScroll] is idempotent on its target: once a call with a
    requested value has returned, a second call with the same value on the
    resulting state stores nothing new and reports unchanged (0), also when
    the first call clamped the request.  The first call returns whenever the
    column count is positive. *)
Theorem C6_set_scroll_idempotent s n :
  (1 <= cols s ->
   exists c s1, xlunch_native_set_scroll_level (Some s) n = Ret (c, Some s1)) /\
  (forall c s1,
     xlunch_native_set_scroll_level (Some s) n = Ret (c, Some s1) ->
     xlunch_native_set_scroll_level (Some s1) n = Ret (0, Some s1)).
Proof.
  split; [apply set_scroll_level_returns|].
  intros c s1. rewrite set_scroll_level_cases.
  {
    destruct (truthy (noscroll s) || (n =? scrolled_past s)) eqn:Hskip.
    + intros [= <- <-]. rewrite set_scroll_level_cases, Hskip. reflexivity.
    + destruct (idiv (entries_count s ⊟ 1) (cols s)) as [q|] eqn:Hq;
        cbn [obind]; [|discriminate].
      intros [= <- <-]. rewrite set_scroll_level_cases.
      apply orb_false_elim in Hskip as [Hno _].
      cbn [noscroll set_scrolled_past scrolled_past entries_count cols].
      rewrite Hno, Hq. cbn [orb obind].
      destruct (n =? clamped s n); [reflexivity|].
      change (clamped (set_scrolled_past (clamped s n) s) n) with (clamped s n).
      rewrite Z.eqb_refl, set_scrolled_past_twice. reflexivity.
  }
Qed.

(** C7. [setScroll] stores nothing and reports unchanged (0) when the
    requested value equals the current offset or when scrolling is disabled;
    and whenever it returns, the reported value is 1 exactly when the stored
    offset differs from the previous one, 0 otherwise.  It returns whenever
    the column count is positive. *)
Theorem C7_set_scroll_reports_change s n :
  (noscroll s <> 0 \/ n = scrolled_past s ->
   xlunch_native_set_scroll_level (Some s) n = Ret (0, Some s)) /\
  (forall c s1,
     xlunch_native_set_scroll_level (Some s) n = Ret (c, Some s1) ->
     c = of_bool (negb (scrolled_past s1 =? scrolled_past s))) /\
  (1 <= cols s ->
   exists c s1, xlunch_native_set_scroll_level (Some s) n = Ret (c, Some s1)).
Proof.
  split; [|split].
  - intros H. rewrite set_scroll_level_cases.
    replace (truthy (noscroll s) || (n =? scrolled_past s)) with true;
      [reflexivity|].
    symmetry. apply orb_true_iff. unfold truthy.
    destruct H as [H| ->]; [left|right; apply Z.eqb_refl].
    now destruct (Z.eqb_spec (noscroll s) 0).
  - intros c s1. rewrite set_scroll_level_cases.
    destruct (truthy (noscroll s) || (n =? scrolled_past s)).
    + intros [= <- <-]. now rewrite Z.eqb_refl.
    + destruct (idiv (entries_count s ⊟ 1) (cols s)); cbn [obind];
        [|discriminate].
      now intros [= <- <-].
  - apply set_scroll_level_returns.
Qed.

Lemma C6_set_scroll_idempotent_witness :
  1 <= cols (set_entries_count 50 xl_800x600) /\
  exists c s1,
    xlunch_native_set_scroll_level
      (Some (set_entries_count 50 xl_800x600)) 100 = Ret (c, Some s1) /\
    xlunch_native_set_scroll_level (Some s1) 100 = Ret (0, Some s1).
Proof.
  assert (H : 1 <= cols (set_entries_count 50 xl_800x600)) by (cbn; lia).
  split; [exact H|].
  destruct (proj1 (C6_set_scroll_idempotent
                     (set_entries_count 50 xl_800x600) 100) H)
    as (c & s1 & H1).
  exists c, s1. split; [exact H1|].
  exact (proj2 (C6_set_scroll_idempotent
                  (set_entries_count 50 xl_800x600) 100) c s1 H1).
Defined.

Lemma C7_set_scroll_reports_change_witness :
  (noscroll (set_entries_count 50 xl_800x600) <> 0 \/
   0 = scrolled_past (set_entries_count 50 xl_800x600)) /\
  xlunch_native_set_scroll_level (Some (set_entries_count 50 xl_800x600)) 0
  = Ret (0, Some (set_entries_count 50 xl_800x600)) /\
  1 = of_bool (negb (scrolled_past
                       (set_scrolled_past 4 (set_entries_count 50 xl_800x600))
                     =? scrolled_past (set_entries_count 50 xl_800x600))).
Proof.
  assert (H : noscroll (set_entries_count 50 xl_800x600) <> 0 \/
              0 = scrolled_past (set_entries_count 50 xl_800x600))
    by (right; reflexivity).
  split; [exact H|]. split.
  - exact (proj1 (C7_set_scroll_reports_change
                    (set_entries_count 50 xl_800x600) 0) H).
  - apply (proj1 (proj2 (C7_set_scroll_reports_change
                           (set_entries_count 50 xl_800x600) 100))).
    reflexivity.
Defined.

Lemma quot_minus_one c : 1 <= c -> -1 <= (-1) ÷ c <= 0.
Proof.
  intros Hc.
  pose proof (Z.quot_rem' (-1) c).
  pose proof (Z.rem_bound_abs (-1) c ltac:(lia)).
  pose proof (Z.rem_nonpos (-1) c ltac:(lia) ltac:(lia)).
  nia.
Qed.

(** The bound the code computes is the plain integer formula when the counts
    are non-negative [int]s. *)
Lemma code_max_scroll_exact s :
  1 <= cols s -> 0 <= entries_count s <= INT_MAX -> 0 <= rows s <= INT_MAX ->
  code_max_scroll s = (entries_count s - 1) ÷ cols s - rows s + 1.
Proof.
  intros Hc He Hr. unfold code_max_scroll, iadd, isub, INT_MAX in *.
  rewrite (wrap_small (entries_count s - 1))
    by (unfold int_range, INT_MIN, INT_MAX; lia).
  assert (Hq : -1 <= (entries_count s - 1) ÷ cols s <= INT_MAX - 1).
  { unfold INT_MAX.
    destruct (Z.eq_dec (entries_count s) 0) as [E0|E0].
    - rewrite E0. change (0 - 1) with (-1).
      pose proof (quot_minus_one (cols s) Hc). lia.
    - rewrite quot_floor by lia.
      assert (0 <= (entries_count s - 1) / cols s) by (apply Z.div_pos; lia).
      assert ((entries_count s - 1) / cols s <= entries_count s - 1).
      { apply Z.div_le_upper_bound; nia. }
      lia. }
  unfold INT_MAX in Hq.
  rewrite (wrap_small (_ ÷ _ - _)) by (unfold int_range, INT_MIN, INT_MAX; lia).
  apply wrap_small. unfold int_range, INT_MIN, INT_MAX. lia.
Qed.

(** Truncation and floor give the same clamped bound unless the grid has
    neither an entry nor a row. *)
Lemma spec_max_scroll_agrees s :
  1 <= cols s -> 0 <= entries_count s <= INT_MAX -> 0 <= rows s <= INT_MAX ->
  1 <= entries_count s \/ 1 <= rows s ->
  Z.max 0 (code_max_scroll s) = spec_max_scroll s.
Proof.
  intros Hc He Hr Hne. rewrite code_max_scroll_exact by assumption.
  unfold spec_max_scroll.
  destruct (Z.eq_dec (entries_count s) 0) as [E0|E0].
  - rewrite E0 in *. change (0 - 1) with (-1).
    pose proof (quot_minus_one (cols s) Hc).
    assert ((-1) / cols s = -1).
    { symmetry. apply Z.div_unique with (r := cols s - 1); lia. }
    lia.
  - rewrite quot_floor by lia. reflexivity.
Qed.

(** C4, as stated, fails: in the window that
    [xlunch_native_init(800, 100, 64)] builds (seven columns, no row, no
    entry yet), scrolling is enabled and the offset 0 is within the floor
    bound max(0, floor(-1 / 7) - 0 + 1) = 0, yet a request for 1 is stored
    as 1, because the code's division truncates (-1 / 7 = 0) and its bound
    is 1. *)
Lemma C4_floor_bound_exceeded :
  xlunch_native_init plain_env 800 100 64 = Ret (Some xl_800x100) /\
  1 <= cols xl_800x100 /\ noscroll xl_800x100 = 0 /\
  0 <= scrolled_past xl_800x100 <= spec_max_scroll xl_800x100 /\
  exists c s1,
    xlunch_native_set_scroll_level (Some xl_800x100) 1 = Ret (c, Some s1) /\
    ~ (0 <= scrolled_past s1 <= spec_max_scroll s1).
Proof.
  split; [reflexivity|]. split; [cbn; lia|]. split; [reflexivity|].
  split; [vm_compute; split; discriminate|].
  exists 1, (set_scrolled_past 1 xl_800x100). split; [reflexivity|].
  vm_compute. intros [_ H]. apply H. reflexivity.
Qed.

(** C4, amended. With at least one column, scrolling enabled, non-negative
    [int] counts of entries and rows, and at least one entry or one row: from
    every offset in [0, maxScroll] and for every requested value, [setScroll]
    returns and the stored offset is again in [0, maxScroll], where maxScroll
    is (entryCount - 1) / cols - rows + 1 under floor division, clamped to 0
    if negative.  Out-of-range requests are clamped. *)
Theorem C4_scroll_offset_bounded s n :
  1 <= cols s -> noscroll s = 0 ->
  0 <= entries_count s <= INT_MAX -> 0 <= rows s <= INT_MAX ->
  1 <= entries_count s \/ 1 <= rows s ->
  0 <= scrolled_past s <= spec_max_scroll s ->
  exists c s1,
    xlunch_native_set_scroll_level (Some s) n = Ret (c, Some s1) /\
    0 <= scrolled_past s1 <= spec_max_scroll s1 /\
    spec_max_scroll s1 = spec_max_scroll s.
Proof.
  intros Hc Hno He Hr Hne Hin.
  pose proof (spec_max_scroll_agrees s Hc He Hr Hne) as Hm.
  rewrite set_scroll_level_cases.
  destruct (truthy (noscroll s) || (n =? scrolled_past s)); [eauto|].
  rewrite idiv_pos by lia. cbn [obind].
  eexists _, _. split; [reflexivity|].
  change (spec_max_scroll (set_scrolled_past (clamped s n) s))
    with (spec_max_scroll s).
  cbn [scrolled_past set_scrolled_past]. unfold clamped. lia.
Qed.

Lemma C4_scroll_offset_bounded_witness :
  (1 <= cols (set_entries_count 50 xl_800x600) /\
   noscroll (set_entries_count 50 xl_800x600) = 0 /\
   0 <= entries_count (set_entries_count 50 xl_800x600) <= INT_MAX /\
   0 <= rows (set_entries_count 50 xl_800x600) <= INT_MAX /\
   (1 <= entries_count (set_entries_count 50 xl_800x600) \/
    1 <= rows (set_entries_count 50 xl_800x600)) /\
   0 <= scrolled_past (set_entries_count 50 xl_800x600)
     <= spec_max_scroll (set_entries_count 50 xl_800x600)) /\
  exists c s1,
    xlunch_native_set_scroll_level
      (Some (set_entries_count 50 xl_800x600)) (-100) = Ret (c, Some s1) /\
    0 <= scrolled_past s1 <= spec_max_scroll s1 /\
    spec_max_scroll s1 = spec_max_scroll (set_entries_count 50 xl_800x600).
Proof.
  assert (H1 : 1 <= cols (set_entries_count 50 xl_800x600)) by (cbn; lia).
  assert (H2 : noscroll (set_entries_count 50 xl_800x600) = 0) by reflexivity.
  assert (H3 : 0 <= entries_count (set_entries_count 50 xl_800x600) <= INT_MAX)
    by (unfold INT_MAX; cbn; lia).
  assert (H4 : 0 <= rows (set_entries_count 50 xl_800x600) <= INT_MAX)
    by (unfold INT_MAX; cbn; lia).
  assert (H5 : 1 <= entries_count (set_entries_count 50 xl_800x600) \/
               1 <= rows (set_entries_count 50 xl_800x600))
    by (left; cbn; lia).
  assert (H6 : 0 <= scrolled_past (set_entries_count 50 xl_800x600)
               <= spec_max_scroll (set_entries_count 50 xl_800x600))
    by (vm_compute; split; discriminate).
  split; [auto 10|].
  exact (C4_scroll_offset_bounded (set_entries_count 50 xl_800x600) (-100)
           H1 H2 H3 H4 H5 H6).
Defined.

(** C5. Whenever the display opens, [xlunch_native_init(800, 600, 64)]
    returns a structure with cell_width 104, cell_height 124, 7 columns,
    4 rows and offset 0; once the host has stored 50 entries the scroll
    bound is (50 - 1) / 7 - 4 + 1 = 4, and [setScroll(100)] stores 4 and
    reports changed (1). *)
Theorem C5_scenario_800x600 env :
  malloc_ok env = true -> display_ok env = true ->
  exists s,
    xlunch_native_init env 800 600 64 = Ret (Some s) /\
    cell_width s = 104 /\ cell_height s = 124 /\ cols s = 7 /\ rows s = 4 /\
    scrolled_past s = 0 /\
    code_max_scroll (set_entries_count 50 s) = 4 /\
    spec_max_scroll (set_entries_count 50 s) = 4 /\
    xlunch_native_set_scroll_level (Some (set_entries_count 50 s)) 100 =
      Ret (1, Some (set_scrolled_past 4 (set_entries_count 50 s))).
Proof.
  intros Hm Hd. unfold xlunch_native_init. rewrite Hm, Hd. cbv zeta.
  cbn [negb].
  replace (idiv (800 ⊟ 20) (64 ⊞ 20 ⊠ 2)) with (Ret 7 : outcome Z)
    by reflexivity.
  replace (idiv (600 ⊟ 20) (64 ⊞ 20 ⊠ 2 ⊞ 20)) with (Ret 4 : outcome Z)
    by reflexivity.
  cbn [obind]. eexists. split; [reflexivity|].
  cbn [cell_width cell_height cols rows scrolled_past].
  repeat (split; [reflexivity|]).
  rewrite set_scroll_level_cases. reflexivity.
Qed.

Lemma C5_scenario_800x600_witness :
  (malloc_ok plain_env = true /\ display_ok plain_env = true) /\
  exists s,
    xlunch_native_init plain_env 800 600 64 = Ret (Some s) /\
    cell_width s = 104 /\ cell_height s = 124 /\ cols s = 7 /\ rows s = 4 /\
    scrolled_past s = 0 /\
    code_max_scroll (set_entries_count 50 s) = 4 /\
    spec_max_scroll (set_entries_count 50 s) = 4 /\
    xlunch_native_set_scroll_level (Some (set_entries_count 50 s)) 100 =
      Ret (1, Some (set_scrolled_past 4 (set_entries_count 50 s))).
Proof.
  split; [split; reflexivity|].
  apply (C5_scenario_800x600 plain_env); reflexivity.
Defined.

(** ** Backdrop darkening *)

Lemma lor_disjoint x y n :
  0 <= n -> x mod 2 ^ n = 0 -> 0 <= y < 2 ^ n -> Z.lor x y = x + y.
Proof.
  intros Hn Hx Hy.
  rewrite <- Z.add_lor_land.
  assert (Z.land x y = 0) as ->; [|lia].
  apply Z.bits_inj'. intros i Hi.
  rewrite Z.land_spec, Z.bits_0.
  destruct (Z.lt_ge_cases i n) as [Hlt|Hge].
  - rewrite <- (Z.mod_pow2_bits_low x n i) by lia.
    rewrite Hx, Z.bits_0. reflexivity.
  - rewrite <- (Z.mod_small y (2 ^ n)) by lia.
    rewrite Z.mod_pow2_bits_high by lia. apply andb_false_r.
Qed.

Lemma packed_value r g b :
  0 <= r < 256 -> 0 <= g < 256 -> 0 <= b < 256 ->
  Z.lor (Z.lor (Z.lor 0xFF000000 (Z.shiftl r 16)) (Z.shiftl g 8)) b
  = 0xFF000000 + r * 65536 + g * 256 + b.
Proof.
  intros Hr Hg Hb.
  rewrite !Z.shiftl_mul_pow2 by lia.
  change (2 ^ 16) with 65536. change (2 ^ 8) with 256.
  rewrite (lor_disjoint 0xFF000000 (r * 65536) 24);
    [|lia|reflexivity|change (2 ^ 24) with 16777216; lia].
  rewrite (lor_disjoint _ (g * 256) 16);
    [|lia| |change (2 ^ 16) with 65536; lia].
  2:{ change (2 ^ 16) with 65536. apply Z.mod_divide; [lia|].
      exists (65280 + r). lia. }
  rewrite (lor_disjoint _ b 8);
    [|lia| |change (2 ^ 8) with 256; lia].
  2:{ change (2 ^ 8) with 256. apply Z.mod_divide; [lia|].
      exists (16711680 + r * 256 + g). lia. }
  reflexivity.
Qed.

Lemma channel_extract q k :
  0 <= k -> Z.land (Z.shiftr q k) 0xFF = (q / 2 ^ k) mod 256.
Proof.
  intros Hk. change 0xFF with (Z.ones 8).
  rewrite Z.land_ones by lia. rewrite Z.shiftr_div_pow2 by lia. reflexivity.
Qed.

Lemma channel_range q k : 0 <= k -> 0 <= Z.land (Z.shiftr q k) 0xFF < 256.
Proof.
  intros Hk. rewrite channel_extract by lia. apply Z.mod_pos_bound. lia.
Qed.

(** The truncating division of the loop body is the floor of the
    specification on a channel value. *)
Lemma darkened_channel c :
  0 <= c < 256 ->
  (c * (255 - 160)) ÷ 255 = spec_darken c /\ 0 <= spec_darken c < 256.
Proof.
  intros Hc. unfold spec_darken. change (255 - 160) with 95.
  rewrite quot_floor by lia. split; [reflexivity|].
  Z.div_mod_to_equations. lia.
Qed.

Lemma packed_channels r g b :
  0 <= r < 256 -> 0 <= g < 256 -> 0 <= b < 256 ->
  let q := Z.lor (Z.lor (Z.lor 0xFF000000 (Z.shiftl r 16)) (Z.shiftl g 8)) b in
  alpha_of q = 255 /\ red_of q = r /\ green_of q = g /\ blue_of q = b.
Proof.
  intros Hr Hg Hb q. subst q. unfold alpha_of, red_of, green_of, blue_of.
  rewrite packed_value by assumption.
  rewrite !channel_extract by lia.
  change 0xFF with (Z.ones 8). rewrite Z.land_ones by lia.
  change (Z.ones 8) with 255.
  change (2 ^ 24) with 16777216. change (2 ^ 16) with 65536.
  change (2 ^ 8) with 256.
  change 0xFF000000 with 4278190080.
  repeat split; Z.div_mod_to_equations; lia.
Qed.

Lemma darken_pixel_channels p :
  alpha_of (darken_pixel p) = 255 /\
  red_of (darken_pixel p) = spec_darken (red_of p) /\
  green_of (darken_pixel p) = spec_darken (green_of p) /\
  blue_of (darken_pixel p) = spec_darken (blue_of p).
Proof.
  pose proof (channel_range p 16 ltac:(lia)) as Hr.
  pose proof (channel_range p 8 ltac:(lia)) as Hg.
  pose proof (channel_range p 0 ltac:(lia)) as Hb.
  rewrite Z.shiftr_0_r in Hb.
  unfold darken_pixel. cbv zeta.
  destruct (darkened_channel _ Hr) as [-> Hr'].
  destruct (darkened_channel _ Hg) as [-> Hg'].
  destruct (darkened_channel _ Hb) as [-> Hb'].
  apply (packed_channels _ _ _ Hr' Hg' Hb').
Qed.

(** The loop, started at index [i] with as many iterations as pixels are
    left, darkens exactly the pixels from [i] on. *)
Lemma darken_from_map todo i (direct : list Z) :
  (i + todo = length direct)%nat ->
  darken_from todo i direct = take i direct ++ (darken_pixel <$> drop i direct).
Proof.
  revert i direct. induction todo as [|k IH]; intros i direct Hlen.
  - cbn [darken_from]. rewrite take_ge, drop_ge by lia.
    now rewrite app_nil_r.
  - cbn [darken_from].
    destruct (lookup_lt_is_Some_2 direct i ltac:(lia)) as [p Hp].
    rewrite Hp. rewrite IH by (rewrite length_insert; lia).
    rewrite (take_S_r _ _ (darken_pixel p))
      by (apply list_lookup_insert_eq; lia).
    rewrite take_insert_ge by lia. rewrite drop_insert_lt by lia.
    rewrite (drop_S direct p i Hp). cbn [fmap list_fmap].
    now rewrite <- app_assoc.
Qed.

Lemma darken_backdrop_map n (direct : list Z) :
  n = Z.of_nat (length direct) ->
  darken_backdrop n direct = darken_pixel <$> direct.
Proof.
  intros ->. unfold darken_backdrop. rewrite Nat2Z.id.
  now rewrite darken_from_map by lia.
Qed.

(** C8. Darkening is a function of the pixel alone, applied to every pixel
    of the captured backdrop: in the backdrop that initialisation stores,
    pixel [i] is [darken_pixel] of the captured pixel [i]; each of its 8-bit
    colour channels is floor(c * 95 / 255) of the captured channel [c], so
    0, 128 and 255 become 0, 47 and 95; and its alpha byte is 255. *)
Theorem C8_backdrop_darkening :
  (forall p,
     alpha_of (darken_pixel p) = 255 /\
     red_of (darken_pixel p) = spec_darken (red_of p) /\
     green_of (darken_pixel p) = spec_darken (green_of p) /\
     blue_of (darken_pixel p) = spec_darken (blue_of p)) /\
  (spec_darken 0 = 0 /\ spec_darken 128 = 47 /\ spec_darken 255 = 95) /\
  (forall c, 0 <= c < 256 -> (c * (255 - 160)) ÷ 255 = spec_darken c) /\
  (forall env w h icon s direct,
     xlunch_native_init env w h icon = Ret (Some s) ->
     background_ok env = true ->
     root_capture env = Some direct ->
     w ⊠ h = Z.of_nat (length direct) ->
     background_image s = Some (darken_pixel <$> direct)).
Proof.
  split; [exact darken_pixel_channels|].
  split; [repeat split; reflexivity|].
  split; [intros c Hc; apply (darkened_channel c Hc)|].
  intros env w h icon s direct Hinit Hbg Hcap Hlen.
  unfold xlunch_native_init in Hinit.
  destruct (negb (malloc_ok env)); [discriminate|].
  destruct (negb (display_ok env)); [discriminate|].
  cbv zeta in Hinit.
  destruct (idiv (w ⊟ 20) (icon ⊞ 20 ⊠ 2)); cbn [obind] in Hinit;
    [|discriminate].
  destruct (idiv (h ⊟ 20) (icon ⊞ 20 ⊠ 2 ⊞ 20)); cbn [obind] in Hinit;
    [|discriminate].
  injection Hinit as <-. cbn [background_image].
  rewrite Hbg, Hcap. now rewrite darken_backdrop_map.
Qed.

Lemma C8_backdrop_darkening_witness :
  0 <= 128 < 256 /\
  (128 * (255 - 160)) ÷ 255 = spec_darken 128 /\
  exists s,
    xlunch_native_init tiny_env 2 1 64 = Ret (Some s) /\
    background_image s = Some (darken_pixel <$> [0x000080FF; 0xFFFFFFFF]).
Proof.
  assert (H : 0 <= 128 < 256) by lia.
  split; [exact H|]. split.
  - exact (proj1 (proj2 (proj2 C8_backdrop_darkening)) 128 H).
  - eexists. split; [reflexivity|].
    apply (proj2 (proj2 (proj2 C8_backdrop_darkening))
             tiny_env 2 1 64 _ [0x000080FF; 0xFFFFFFFF]);
      reflexivity.
Defined.

(** ** Header buttons *)

Lemma settings_hit_iff s mx my :
  (mx >=? settings_x s) && (mx <=? settings_x s ⊞ settings_w s)
  && (my >=? settings_y s) && (my <=? settings_y s ⊞ settings_h s) = true
  <-> in_settings_rect s mx my.
Proof.
  unfold in_settings_rect.
  rewrite !andb_true_iff, !Z.geb_le, !Z.leb_le. tauto.
Qed.

Lemma logo_hit_iff s mx my :
  (mx >=? logo_x s) && (mx <=? logo_x s ⊞ logo_w s)
  && (my >=? logo_y s) && (my <=? logo_y s ⊞ logo_h s) = true
  <-> in_logo_rect s mx my.
Proof.
  unfold in_logo_rect.
  rewrite !andb_true_iff, !Z.geb_le, !Z.leb_le. tauto.
Qed.

(** The three answers of the button test. *)
Lemma check_button_hover_cases s mx my :
  (in_settings_rect s mx my /\
   xlunch_native_check_button_hover (Some s) mx my = 1) \/
  (~ in_settings_rect s mx my /\ in_logo_rect s mx my /\
   xlunch_native_check_button_hover (Some s) mx my = 2) \/
  (~ in_settings_rect s mx my /\ ~ in_logo_rect s mx my /\
   xlunch_native_check_button_hover (Some s) mx my = 0).
Proof.
  unfold xlunch_native_check_button_hover.
  pose proof (settings_hit_iff s mx my) as Hs.
  pose proof (logo_hit_iff s mx my) as Hl.
  destruct ((mx >=? settings_x s) && _ && _ && _).
  - left. split; [now apply Hs|reflexivity].
  - right.
    assert (~ in_settings_rect s mx my) by (intros H; apply Hs in H; discriminate).
    destruct ((mx >=? logo_x s) && _ && _ && _).
    + left. split; [assumption|]. split; [now apply Hl|reflexivity].
    + right. split; [assumption|].
      split; [intros H'; apply Hl in H'; discriminate|reflexivity].
Qed.

(** C9. Button resolution is exclusive. The button test answers exactly one
    of settings (1), logo (2) and none (0): settings exactly for the points
    of the settings rectangle, logo exactly for the points of the logo
    rectangle that are not in the settings rectangle, and none for every
    point outside both.  After hover processing, whatever the flags were
    before, the settings flag is set exactly when the answer was settings
    and the logo flag exactly when it was logo, so the two are never set
    together. *)
Theorem C9_hover_exclusive s mx my :
  let b := xlunch_native_check_button_hover (Some s) mx my in
  (b = 0 \/ b = 1 \/ b = 2) /\
  (b = 1 <-> in_settings_rect s mx my) /\
  (b = 2 <-> in_logo_rect s mx my /\ ~ in_settings_rect s mx my) /\
  (~ in_settings_rect s mx my /\ ~ in_logo_rect s mx my -> b = 0) /\
  exists s1,
    xlunch_native_handle_hover (Some s) mx my = Some s1 /\
    settings_button_hovered s1 = of_bool (b =? 1) /\
    logo_button_hovered s1 = of_bool (b =? 2) /\
    ~ (settings_button_hovered s1 <> 0 /\ logo_button_hovered s1 <> 0).
Proof.
  intros b.
  assert (Hb : xlunch_native_check_button_hover
                 (Some (set_hover 0 0 s)) mx my = b) by reflexivity.
  unfold xlunch_native_handle_hover.
  cbn [set_hover settings_button_hovered logo_button_hovered].
  change (set_hover 0 0 (set_hover 0 (logo_button_hovered s) s))
    with (set_hover 0 0 s).
  rewrite Hb.
  destruct (check_button_hover_cases s mx my) as [[Hs E]|[[Hs [Hl E]]|[Hs [Hl E]]]];
    fold b in E; rewrite E; cbn [Z.eqb Pos.eqb of_bool].
  - split; [tauto|]. split; [tauto|]. split; [split; [discriminate|tauto]|].
    split; [tauto|]. eexists. split; [reflexivity|].
    cbn. repeat split. tauto.
  - split; [tauto|]. split; [split; [discriminate|tauto]|]. split; [tauto|].
    split; [tauto|]. eexists. split; [reflexivity|].
    cbn. repeat split. tauto.
  - split; [tauto|]. split; [split; [discriminate|tauto]|].
    split; [split; [discriminate|tauto]|].
    split; [tauto|]. eexists. split; [reflexivity|].
    cbn. repeat split. tauto.
Qed.

Lemma C9_hover_exclusive_witness :
  (~ in_settings_rect xl_800x600 400 300 /\ ~ in_logo_rect xl_800x600 400 300) /\
  xlunch_native_check_button_hover (Some xl_800x600) 400 300 = 0.
Proof.
  assert (H : ~ in_settings_rect xl_800x600 400 300 /\
              ~ in_logo_rect xl_800x600 400 300).
  { split; intros [_ [_ H]]; vm_compute in H; congruence. }
  split; [exact H|].
  exact (proj1 (proj2 (proj2 (proj2 (C9_hover_exclusive xl_800x600 400 300)))) H).
Defined.

(** ** Event dispatch *)

Lemma scroll_reply_inv s target rest d :
  scroll_reply s target rest = Ret d ->
  selected_after d = Some (-1) /\ queue_after d = rest /\
  (code d = 1 \/ code d = 2).
Proof.
  unfold scroll_reply.
  destruct (xlunch_native_set_scroll_level (Some s) target) as [[c s1]|];
    cbn [obind]; [|discriminate].
  intros [= <-]. cbn [selected_after queue_after code fst].
  destruct (truthy c); auto.
Qed.

Lemma scroll_reply_returns s target rest :
  1 <= cols s -> exists d, scroll_reply s target rest = Ret d.
Proof.
  intros Hc. unfold scroll_reply.
  destruct (set_scroll_level_returns s target Hc) as (c & s1 & ->).
  cbn [obind]. eauto.
Qed.

(** A dispatch that returns either leaves -1 in the selection cell, with one
    of the five codes, or was a left click below the header that selected an
    entry. *)
Lemma handle_events_inv s sel0 pending d :
  xlunch_native_handle_events (Some s) (Some sel0) pending = Ret d ->
  (selected_after d = Some (-1) /\
   (code d = 0 \/ code d = 1 \/ code d = 2 \/ code d = -2 \/ code d = -3)) \/
  (exists x y rest idx,
     pending = ButtonPress 1 x y :: rest /\ 140 <= y /\ 0 <= x /\
     code d = 0 /\ xl_after d = Some s /\ queue_after d = rest /\
     selected_after d = Some idx /\ 0 <= idx < num_entries s).
Proof.
  unfold xlunch_native_handle_events.
  destruct pending as [|event rest].
  { intros [= <-]. left. cbn. solve [auto 10]. }
  destruct event as [keycode|button x y| | |x y| | |ty]; cbn [tail].
  - repeat match goal with
      | |- context [if ?c then _ else _] => destruct c
      end;
      first [ intros [= <-]; left; cbn; solve [auto 10]
            | intros H; apply scroll_reply_inv in H as (? & _ & [?|?]);
              left; solve [auto 10] ].
  - destruct (Z.eqb_spec button 1) as [->|Hb1].
    + destruct (Z.ltb_spec y 140) as [Hy|Hy].
      * repeat match goal with
          | |- context [if ?c then _ else _] => destruct c
          end; intros [= <-]; left; cbn; solve [auto 10].
      * destruct ((x >=? 0) && (y ⊟ 140 >=? 0)) eqn:Hxy;
          [|intros [= <-]; left; cbn; solve [auto 10]].
        apply andb_true_iff in Hxy as [Hx _]. apply Z.geb_le in Hx.
        destruct (idiv x (cell_width s)) as [col|]; cbn [obind];
          [|discriminate].
        destruct (idiv (y ⊟ 140) (cell_height s)) as [display_row|];
          cbn [obind]; [|discriminate].
        cbv zeta.
        destruct (_ && _ && _ && _ && _) eqn:Hbounds;
          [|intros [= <-]; left; cbn; solve [auto 10]].
        destruct (idiv (height s ⊟ 140) (cell_height s)) as [maxrows|];
          cbn [obind]; [|discriminate].
        destruct (display_row <? maxrows);
          [|intros [= <-]; left; cbn; solve [auto 10]].
        intros [= <-]. right.
        repeat (apply andb_true_iff in Hbounds as [Hbounds ?]).
        exists x, y, rest. eexists. cbn.
        repeat (split; [first [reflexivity|lia]|]). lia.
    + repeat match goal with
        | |- context [if ?c then _ else _] => destruct c
        end;
        first [ intros [= <-]; left; cbn; solve [auto 10]
              | intros H; apply scroll_reply_inv in H as (? & _ & [?|?]);
                left; solve [auto 10] ].
  - intros [= <-]. left. cbn. solve [auto 10].
  - intros [= <-]. left. cbn. solve [auto 10].
  - intros [= <-]. left. cbn. solve [auto 10].
  - intros [= <-]. left. cbn. solve [auto 10].
  - intros [= <-]. left. cbn. solve [auto 10].
  - intros [= <-]. left. cbn. solve [auto 10].
Qed.

(** The dispatcher returns whenever the cell sizes and the column count are
    positive. *)
Lemma handle_events_returns s sel0 pending :
  1 <= cell_width s -> 1 <= cell_height s -> 1 <= cols s ->
  exists d, xlunch_native_handle_events (Some s) (Some sel0) pending = Ret d.
Proof.
  intros Hw Hh Hc. unfold xlunch_native_handle_events.
  destruct pending as [|event rest]; [eauto|].
  destruct event as [keycode|button x y| | |x y| | |ty]; cbn [tail];
    rewrite ?idiv_pos by lia; cbn [obind]; cbv zeta;
    repeat match goal with
      | |- context [if ?c then _ else _] => destruct c
      end;
    rewrite ?idiv_pos by lia; cbn [obind];
    repeat match goal with
      | |- context [if ?c then _ else _] => destruct c
      end;
    eauto using scroll_reply_returns.
Qed.

(** A left click below the header, exactly: with positive cell sizes the
    cell is column floor(x / cell_width) of display row
    floor((y - 140) / cell_height), and the click selects the index the code
    computes for it if the column exists, the row is fully visible and the
    index is an entry; otherwise it is ignored. *)
Lemma left_click_below_header s sel0 x y rest :
  1 <= cell_width s -> 1 <= cell_height s ->
  0 < height s <= INT_MAX -> 140 <= y <= INT_MAX ->
  xlunch_native_handle_events (Some s) (Some sel0) (ButtonPress 1 x y :: rest)
  = if (0 <=? x / cell_width s) && (x / cell_width s <? cols s)
       && ((y - 140) / cell_height s <? visible_rows s)
       && (0 <=? ((y - 140) / cell_height s ⊞ scrolled_past s) ⊠ cols s
                 ⊞ x / cell_width s)
       && (((y - 140) / cell_height s ⊞ scrolled_past s) ⊠ cols s
           ⊞ x / cell_width s <? num_entries s)
    then Ret (mkDispatched 0 (Some s)
                (Some (((y - 140) / cell_height s ⊞ scrolled_past s) ⊠ cols s
                       ⊞ x / cell_width s)) rest)
    else Ret (mkDispatched 1 (Some s) (Some (-1)) rest).
Proof.
  unfold INT_MAX. intros Hw Hh Hht Hy.
  unfold xlunch_native_handle_events, visible_rows.
  cbn [Z.eqb Pos.eqb tail].
  destruct (Z.ltb_spec y 140) as [?|_]; [lia|].
  unfold isub at 1 2.
  rewrite (wrap_small (y - 140)) by (unfold int_range, INT_MIN, INT_MAX; lia).
  replace (y - 140 >=? 0) with true by (symmetry; apply Z.geb_le; lia).
  destruct (Z.leb_spec 0 x) as [Hx|Hx].
  - replace (x >=? 0) with true by (symmetry; apply Z.geb_le; lia).
    cbn [andb]. rewrite !idiv_pos by lia. cbn [obind]. cbv zeta.
    unfold isub at 1.
    rewrite (wrap_small (height s - 140))
      by (unfold int_range, INT_MIN, INT_MAX; lia).
    rewrite (quot_floor x) by lia. rewrite (quot_floor (y - 140)) by lia.
    assert (Hrow : 0 <= (y - 140) / cell_height s)
      by (apply Z.div_pos; lia).
    replace ((y - 140) / cell_height s >=? 0) with true
      by (symmetry; apply Z.geb_le; lia).
    rewrite !Z.geb_leb.
    repeat match goal with
      | |- context [?a <? ?b] => destruct (a <? b)
      | |- context [?a <=? ?b] => destruct (a <=? b)
      end; reflexivity.
  - replace (x >=? 0) with false
      by (symmetry; rewrite Z.geb_leb; apply Z.leb_gt; lia).
    cbn [andb].
    assert (Hcol : x / cell_width s < 0)
      by (apply Z.div_lt_upper_bound; lia).
    replace (0 <=? x / cell_width s) with false
      by (symmetry; apply Z.leb_gt; lia).
    reflexivity.
Qed.

(** C10. Called with a structure and a selection cell (whatever the cell
    held), the dispatcher leaves -1 in the cell on every return, except when
    the drained event is a left click below the header that resolves to an
    entry: then it returns 0 (terminate) and the cell holds an index with
    0 <= index < num_entries.  So any return other than a selection, and in
    particular any non-zero code, comes with -1 in the cell.  The call
    returns whenever the cell sizes and the column count are positive.
    And the selection does happen: with positive cell sizes, a left click at
    (x, y) with y >= 140 resolves to the index
    (row + scrolled_past) * cols + col, for col = floor(x / cell_width) and
    row = floor((y - 140) / cell_height), and whenever that column exists,
    that row is fully visible and that index is an entry, the dispatcher
    returns 0 with exactly this index in the cell, the structure unchanged
    and the click consumed; a left click there that does not resolve returns
    1 with -1 in the cell. *)
Theorem C10_selection_output s sel0 pending :
  (1 <= cell_width s -> 1 <= cell_height s -> 1 <= cols s ->
   exists d, xlunch_native_handle_events (Some s) (Some sel0) pending = Ret d) /\
  (forall d,
     xlunch_native_handle_events (Some s) (Some sel0) pending = Ret d ->
     (selected_after d = Some (-1) \/
      exists x y rest idx,
        pending = ButtonPress 1 x y :: rest /\ 140 <= y /\
        code d = 0 /\ selected_after d = Some idx /\
        0 <= idx < num_entries s) /\
     (code d <> 0 -> selected_after d = Some (-1))) /\
  (forall x y rest,
     pending = ButtonPress 1 x y :: rest ->
     1 <= cell_width s -> 1 <= cell_height s ->
     0 < height s <= INT_MAX -> 140 <= y <= INT_MAX ->
     (0 <= x / cell_width s < cols s ->
      (y - 140) / cell_height s < visible_rows s ->
      0 <= ((y - 140) / cell_height s ⊞ scrolled_past s) ⊠ cols s
           ⊞ x / cell_width s < num_entries s ->
      xlunch_native_handle_events (Some s) (Some sel0) pending
      = Ret (mkDispatched 0 (Some s)
               (Some (((y - 140) / cell_height s ⊞ scrolled_past s) ⊠ cols s
                      ⊞ x / cell_width s)) rest)) /\
     (~ (0 <= x / cell_width s < cols s /\
         (y - 140) / cell_height s < visible_rows s /\
         0 <= ((y - 140) / cell_height s ⊞ scrolled_past s) ⊠ cols s
              ⊞ x / cell_width s < num_entries s) ->
      xlunch_native_handle_events (Some s) (Some sel0) pending
      = Ret (mkDispatched 1 (Some s) (Some (-1)) rest))).
Proof.
  split; [apply handle_events_returns|]. split.
  - intros d Hd. apply handle_events_inv in Hd as [[Hsel _]|Hclick].
    + split; [now left|]. intros _. exact Hsel.
    + destruct Hclick
        as (x & y & rest & idx & -> & Hy & _ & Hc & _ & _ & Hsel & Hidx).
      split.
      * right. exists x, y, rest, idx. auto.
      * intros Hne. contradiction.
  - intros x y rest -> Hw Hh Hht Hy.
    rewrite (left_click_below_header s sel0 x y rest Hw Hh Hht Hy).
    split.
    + intros Hcol Hrow Hidx.
      replace (0 <=? x / cell_width s) with true
        by (symmetry; apply Z.leb_le; lia).
      replace (x / cell_width s <? cols s) with true
        by (symmetry; apply Z.ltb_lt; lia).
      replace ((y - 140) / cell_height s <? visible_rows s) with true
        by (symmetry; apply Z.ltb_lt; lia).
      replace (0 <=? ((y - 140) / cell_height s ⊞ scrolled_past s) ⊠ cols s
                     ⊞ x / cell_width s) with true
        by (symmetry; apply Z.leb_le; lia).
      replace (((y - 140) / cell_height s ⊞ scrolled_past s) ⊠ cols s
               ⊞ x / cell_width s <? num_entries s) with true
        by (symmetry; apply Z.ltb_lt; lia).
      reflexivity.
    + intros Hno.
      destruct (Z.leb_spec 0 (x / cell_width s)); [|reflexivity].
      destruct (Z.ltb_spec (x / cell_width s) (cols s)); [|reflexivity].
      destruct (Z.ltb_spec ((y - 140) / cell_height s) (visible_rows s));
        [|reflexivity].
      destruct (Z.leb_spec 0
                  (((y - 140) / cell_height s ⊞ scrolled_past s) ⊠ cols s
                   ⊞ x / cell_width s)); [|reflexivity].
      destruct (Z.ltb_spec
                  (((y - 140) / cell_height s ⊞ scrolled_past s) ⊠ cols s
                   ⊞ x / cell_width s) (num_entries s)); [|reflexivity].
      exfalso. apply Hno. lia.
Qed.

Lemma C10_selection_output_witness :
  (1 <= cell_width (set_num_entries 50 xl_800x600) /\
   1 <= cell_height (set_num_entries 50 xl_800x600) /\
   0 < height (set_num_entries 50 xl_800x600) <= INT_MAX /\
   140 <= 145 <= INT_MAX /\
   0 <= 110 / cell_width (set_num_entries 50 xl_800x600)
     < cols (set_num_entries 50 xl_800x600) /\
   (145 - 140) / cell_height (set_num_entries 50 xl_800x600)
     < visible_rows (set_num_entries 50 xl_800x600)) /\
  xlunch_native_handle_events (Some (set_num_entries 50 xl_800x600))
    (Some 7) [ButtonPress 1 110 145]
  = Ret (mkDispatched 0 (Some (set_num_entries 50 xl_800x600)) (Some 1) []).
Proof.
  assert (Hw : 1 <= cell_width (set_num_entries 50 xl_800x600))
    by (cbn; lia).
  assert (Hh : 1 <= cell_height (set_num_entries 50 xl_800x600))
    by (cbn; lia).
  assert (Hht : 0 < height (set_num_entries 50 xl_800x600) <= INT_MAX)
    by (unfold INT_MAX; cbn; lia).
  assert (Hy : 140 <= 145 <= INT_MAX) by (unfold INT_MAX; lia).
  assert (Hcol : 0 <= 110 / cell_width (set_num_entries 50 xl_800x600)
                 < cols (set_num_entries 50 xl_800x600))
    by (split; [apply Z.leb_le|apply Z.ltb_lt]; vm_compute; reflexivity).
  assert (Hrow : (145 - 140) / cell_height (set_num_entries 50 xl_800x600)
                 < visible_rows (set_num_entries 50 xl_800x600))
    by (apply Z.ltb_lt; vm_compute; reflexivity).
  assert (Hidx : 0 <= ((145 - 140) / cell_height (set_num_entries 50 xl_800x600)
                       ⊞ scrolled_past (set_num_entries 50 xl_800x600))
                      ⊠ cols (set_num_entries 50 xl_800x600)
                      ⊞ 110 / cell_width (set_num_entries 50 xl_800x600)
                 < num_entries (set_num_entries 50 xl_800x600))
    by (split; [apply Z.leb_le|apply Z.ltb_lt]; vm_compute; reflexivity).
  split; [auto 10|].
  exact (proj1 (proj2 (proj2 (C10_selection_output
                  (set_num_entries 50 xl_800x600) 7 [ButtonPress 1 110 145]))
                  110 145 [] eq_refl Hw Hh Hht Hy) Hcol Hrow Hidx).
Defined.

(** C1, as stated, fails: in the 800x600 window a call with no pending event
    and a call that drains a pointer motion (mapped to no-op) return the same
    code, 1. *)
Lemma C1_no_event_same_code_as_noop :
  code_of (xlunch_native_handle_events (Some xl_800x600) (Some 0) []) = Some 1 /\
  code_of (xlunch_native_handle_events (Some xl_800x600) (Some 0)
             [MotionNotify 400 300]) = Some 1 /\
  ~ (code_of (xlunch_native_handle_events (Some xl_800x600) (Some 0) [])
     <> code_of (xlunch_native_handle_events (Some xl_800x600) (Some 0)
                   [MotionNotify 400 300])).
Proof.
  split; [reflexivity|]. split; [reflexivity|].
  intros H. apply H. reflexivity.
Qed.

(** C1, amended. The dispatcher's return value separates three outcomes,
    terminate (0), redraw (2) and continue (1), besides the two button codes
    (-2, -3): every returned code is one of these five; Escape and a
    window-close request give 0, Expose gives 2; a call with no pending
    event gives 1, leaves the structure as it was and -1 in the selection
    cell; and a drained event with no effect (pointer motion, enter, leave,
    any other event type) gives the same code 1. *)
Theorem C1_dispatch_codes s sel0 :
  xlunch_native_handle_events (Some s) (Some sel0) [] =
    Ret (mkDispatched 1 (Some s) (Some (-1)) []) /\
  (forall rest x y,
     code_of (xlunch_native_handle_events (Some s) (Some sel0)
                (MotionNotify x y :: rest)) = Some 1) /\
  (forall rest ev, ev = EnterNotify \/ ev = LeaveNotify \/
                   (exists ty, ev = OtherEvent ty) ->
     code_of (xlunch_native_handle_events (Some s) (Some sel0) (ev :: rest))
     = Some 1) /\
  (forall rest,
     code_of (xlunch_native_handle_events (Some s) (Some sel0)
                (Expose :: rest)) = Some 2 /\
     code_of (xlunch_native_handle_events (Some s) (Some sel0)
                (KeyPress 9 :: rest)) = Some 0 /\
     code_of (xlunch_native_handle_events (Some s) (Some sel0)
                (ClientMessage :: rest)) = Some 0) /\
  (forall pending d,
     xlunch_native_handle_events (Some s) (Some sel0) pending = Ret d ->
     code d = 0 \/ code d = 1 \/ code d = 2 \/ code d = -2 \/ code d = -3).
Proof.
  split; [reflexivity|]. split; [reflexivity|].
  split; [intros rest ev [->|[->|[ty ->]]]; reflexivity|].
  split; [intros rest; repeat split; reflexivity|].
  intros pending d Hd. apply handle_events_inv in Hd as [[_ Hc]|Hclick].
  - exact Hc.
  - destruct Hclick as (x & y & rest & idx & _ & _ & _ & Hc & _). now left.
Qed.

Lemma C1_dispatch_codes_witness :
  xlunch_native_handle_events (Some xl_800x600) (Some 0) [LeaveNotify] =
    Ret (mkDispatched 1 (Some xl_800x600) (Some (-1)) []) /\
  code_of (xlunch_native_handle_events (Some xl_800x600) (Some 0)
             [LeaveNotify]) = Some 1 /\
  (1 = 0 \/ 1 = 1 \/ 1 = 2 \/ 1 = -2 \/ 1 = -3).
Proof.
  split; [reflexivity|]. split.
  - apply (proj1 (proj2 (proj2 (C1_dispatch_codes xl_800x600 0))) []).
    right. left. reflexivity.
  - apply (proj2 (proj2 (proj2 (proj2 (C1_dispatch_codes xl_800x600 0))))
             [LeaveNotify] (mkDispatched 1 (Some xl_800x600) (Some (-1)) [])).
    reflexivity.
Defined.

(** ** Grid layout and hit test *)

(** Initialisation from a positive window and icon size yields a derived
    layout. *)
Lemma init_derived_layout env w h icon s :
  0 < w <= INT_MAX -> 0 < h <= INT_MAX -> 0 < icon <= INT_MAX - 60 ->
  xlunch_native_init env w h icon = Ret (Some s) ->
  derived_layout s.
Proof.
  unfold INT_MAX. intros Hw Hh Hi. unfold xlunch_native_init.
  destruct (negb (malloc_ok env)); [discriminate|].
  destruct (negb (display_ok env)); [discriminate|].
  cbv zeta. unfold iadd, isub, imul.
  change (20 * 2) with 40. change (wrap 40) with 40.
  rewrite (wrap_small (icon + 40)) by (unfold int_range, INT_MIN, INT_MAX; lia).
  rewrite (wrap_small (icon + 40 + 20)) by (unfold int_range, INT_MIN, INT_MAX; lia).
  rewrite (wrap_small (w - 20)) by (unfold int_range, INT_MIN, INT_MAX; lia).
  rewrite (wrap_small (h - 20)) by (unfold int_range, INT_MIN, INT_MAX; lia).
  rewrite !idiv_pos by lia. cbn [obind].
  intros [= <-]. unfold derived_layout, INT_MAX. cbn.
  repeat split; lia.
Qed.

Lemma quot_mul_add c k b : 0 <= c -> 0 <= k < b -> (c * b + k) ÷ b = c.
Proof.
  intros Hc Hk. rewrite quot_floor by nia.
  symmetry. apply Z.div_unique with (r := k); lia.
Qed.

(** A left click at the pixel where the cell of column [c] and display row
    [dr] is drawn. *)
Lemma click_in_grid s c dr sel0 rest :
  21 <= cell_width s -> 1 <= cell_height s ->
  0 <= c < cols s -> 0 <= dr ->
  c * cell_width s + 20 <= INT_MAX ->
  140 + dr * cell_height s <= INT_MAX ->
  0 < height s <= INT_MAX ->
  0 <= (dr ⊞ scrolled_past s) ⊠ cols s ⊞ c < num_entries s ->
  xlunch_native_handle_events (Some s) (Some sel0)
    (ButtonPress 1 (c * cell_width s + 20) (140 + dr * cell_height s) :: rest)
  = if dr <? visible_rows s
    then Ret (mkDispatched 0 (Some s)
                (Some ((dr ⊞ scrolled_past s) ⊠ cols s ⊞ c)) rest)
    else Ret (mkDispatched 1 (Some s) (Some (-1)) rest).
Proof.
  unfold INT_MAX. intros Hw Hh Hc Hdr Hx Hy Hht Hidx.
  assert (0 <= c * cell_width s) by nia.
  assert (0 <= dr * cell_height s) by nia.
  unfold xlunch_native_handle_events. cbn [Z.eqb Pos.eqb tail].
  destruct (Z.ltb_spec (140 + dr * cell_height s) 140) as [?|_]; [lia|].
  unfold isub at 1 2.
  replace (140 + dr * cell_height s - 140) with (dr * cell_height s) by lia.
  rewrite (wrap_small (dr * cell_height s))
    by (unfold int_range, INT_MIN, INT_MAX; lia).
  replace (c * cell_width s + 20 >=? 0) with true
    by (symmetry; apply Z.geb_le; lia).
  replace (dr * cell_height s >=? 0) with true
    by (symmetry; apply Z.geb_le; lia).
  cbn [andb]. rewrite !idiv_pos by lia. cbn [obind].
  rewrite (quot_mul_add c 20) by lia.
  replace (dr * cell_height s) with (dr * cell_height s + 0) by lia.
  rewrite (quot_mul_add dr 0) by lia.
  cbv zeta.
  replace (c >=? 0) with true by (symmetry; apply Z.geb_le; lia).
  replace (c <? cols s) with true by (symmetry; apply Z.ltb_lt; lia).
  replace (dr >=? 0) with true by (symmetry; apply Z.geb_le; lia).
  replace ((dr ⊞ scrolled_past s) ⊠ cols s ⊞ c >=? 0) with true
    by (symmetry; apply Z.geb_le; lia).
  replace ((dr ⊞ scrolled_past s) ⊠ cols s ⊞ c <? num_entries s) with true
    by (symmetry; apply Z.ltb_lt; lia).
  cbn [andb].
  unfold isub. rewrite (wrap_small (height s - 140))
    by (unfold int_range, INT_MIN, INT_MAX; lia).
  reflexivity.
Qed.

(** A left click in the header never selects an entry. *)
Lemma click_in_header s x y sel0 rest :
  y < 140 ->
  exists d,
    xlunch_native_handle_events (Some s) (Some sel0)
      (ButtonPress 1 x y :: rest) = Ret d /\
    selected_after d = Some (-1) /\ code d <> 0.
Proof.
  intros Hy. unfold xlunch_native_handle_events. cbn [Z.eqb Pos.eqb tail].
  destruct (Z.ltb_spec y 140) as [_|?]; [|lia].
  repeat match goal with
    | |- context [if ?c then _ else _] => destruct c
    end; eexists; (split; [reflexivity|]); cbn; split; congruence.
Qed.

(** What a derived layout with at least one column gives the arithmetic. *)
Lemma derived_layout_facts s :
  derived_layout s -> 1 <= cols s ->
  41 <= cell_width s <= INT_MAX /\ 61 <= cell_height s <= INT_MAX /\
  cell_width s ⊟ icon_size s = 40 /\
  cols s * cell_width s <= width s - 20 /\
  0 < height s <= INT_MAX /\ 0 < width s <= INT_MAX.
Proof.
  unfold derived_layout, INT_MAX.
  intros (Hw & Hh & Hi & _ & Hcw & Hch & Hcols & _) Hc.
  repeat split; try lia.
  - unfold isub. rewrite Hcw.
    replace (icon_size s + 40 - icon_size s) with 40 by lia. reflexivity.
  - pose proof (Z.quot_rem' (width s - 20) (cell_width s)) as Hqr.
    rewrite <- Hcols in Hqr.
    destruct (Z.le_gt_cases 0 (width s - 20)) as [Hpos|Hneg].
    + pose proof (Z.rem_nonneg (width s - 20) (cell_width s)
                    ltac:(lia) Hpos). nia.
    + pose proof (Z.rem_nonpos (width s - 20) (cell_width s)
                    ltac:(lia) ltac:(lia)).
      pose proof (Z.rem_bound_abs (width s - 20) (cell_width s) ltac:(lia)).
      nia.
Qed.

(** The position of an entry, with the arithmetic carried out. *)
Lemma entry_position s index x0 y0 :
  derived_layout s -> 1 <= cols s -> 0 <= index <= INT_MAX ->
  xlunch_native_calculate_entry_position (Some s) index (Some x0) (Some y0) =
  Ret (Some (Z.rem index (cols s) * cell_width s + 20),
       Some (140 ⊞ (index ÷ cols s ⊟ scrolled_past s) ⊠ cell_height s)).
Proof.
  intros Hl Hc Hi.
  destruct (derived_layout_facts s Hl Hc) as (Hcw & Hch & Hpad & Hfit & Hh & Hw).
  unfold INT_MAX in *.
  unfold xlunch_native_calculate_entry_position.
  rewrite idiv_pos, imod_pos by lia. cbn [obind].
  rewrite Hpad. change (40 ÷ 2) with 20.
  pose proof (Z.rem_bound_pos index (cols s) ltac:(lia) ltac:(lia)).
  unfold imul at 1. unfold iadd at 1.
  rewrite (wrap_small (Z.rem index (cols s) * cell_width s))
    by (unfold int_range, INT_MIN, INT_MAX; nia).
  rewrite wrap_small by (unfold int_range, INT_MIN, INT_MAX; nia).
  reflexivity.
Qed.

Lemma entry_y_exact row sp ch :
  int_range (row - sp) -> int_range (140 + (row - sp) * ch) ->
  140 ⊞ (row ⊟ sp) ⊠ ch = 140 + (row - sp) * ch.
Proof.
  intros Hdr Hy.
  unfold isub. rewrite (wrap_small _ Hdr).
  unfold iadd, imul. rewrite (Z.add_comm 140 (wrap _)), wrap_wrap_add.
  rewrite Z.add_comm. apply wrap_small, Hy.
Qed.

(** C3. In a layout derived by initialisation with at least one column, for
    every index in [0, num_entries) and every scroll offset, the position
    computed for the entry, clicked with the left button, selects that same
    index (code 0) provided the entry's display row is at least 0 and
    strictly below the visible-row bound (height - 140) / cell_height.  An
    entry whose display row is outside that bound does not resolve: the
    click at its position (computed without [int] overflow) leaves the
    selection at -1. *)
Theorem C3_layout_roundtrip s index x0 y0 :
  derived_layout s -> 1 <= cols s ->
  0 <= index < num_entries s -> num_entries s <= INT_MAX ->
  exists x y,
    xlunch_native_calculate_entry_position (Some s) index (Some x0) (Some y0)
      = Ret (Some x, Some y) /\
    (0 <= display_row_of s index < visible_rows s ->
     forall sel0 rest,
       xlunch_native_handle_events (Some s) (Some sel0)
         (ButtonPress 1 x y :: rest)
       = Ret (mkDispatched 0 (Some s) (Some index) rest)) /\
    (~ (0 <= display_row_of s index < visible_rows s) ->
     int_range (140 + display_row_of s index * cell_height s) ->
     forall sel0 rest,
       exists d,
         xlunch_native_handle_events (Some s) (Some sel0)
           (ButtonPress 1 x y :: rest) = Ret d /\
         selected_after d = Some (-1) /\ code d <> 0).
Proof.
  intros Hl Hc Hidx Hn.
  destruct (derived_layout_facts s Hl Hc) as (Hcw & Hch & Hpad & Hfit & Hh & Hw).
  rewrite (entry_position s index x0 y0 Hl Hc) by lia.
  eexists _, _. split; [reflexivity|].
  set (c := Z.rem index (cols s)). set (row := index ÷ cols s).
  pose proof (Z.rem_bound_pos index (cols s) ltac:(lia) ltac:(lia)) as Hcb.
  fold c in Hcb.
  pose proof (Z.quot_rem' index (cols s)) as Hqr. fold c row in Hqr.
  assert (Hrow : 0 <= row) by (apply Z.quot_pos; lia).
  assert (Hdr : display_row_of s index = row - scrolled_past s) by reflexivity.
  assert (Hvis : 0 < visible_rows s ->
                 visible_rows s * cell_height s <= height s - 140).
  { unfold visible_rows. intros Hv.
    pose proof (Z.quot_rem' (height s - 140) (cell_height s)) as Hq.
    destruct (Z.le_gt_cases 0 (height s - 140)) as [Hpos|Hneg].
    - pose proof (Z.rem_nonneg (height s - 140) (cell_height s)
                    ltac:(lia) Hpos). nia.
    - pose proof (Z.rem_nonpos (height s - 140) (cell_height s)
                    ltac:(lia) ltac:(lia)).
      pose proof (Z.rem_bound_abs (height s - 140) (cell_height s) ltac:(lia)).
      nia. }
  assert (Hback : forall dr, dr = row - scrolled_past s ->
            (dr ⊞ scrolled_past s) ⊠ cols s ⊞ c = index).
  { intros dr ->. unfold iadd, imul, INT_MAX in *.
    replace (row - scrolled_past s + scrolled_past s) with row by lia.
    rewrite (wrap_small row) by (unfold int_range, INT_MIN, INT_MAX; nia).
    rewrite (wrap_small (row * cols s))
      by (unfold int_range, INT_MIN, INT_MAX; nia).
    rewrite (Z.mul_comm row), <- Hqr.
    apply wrap_small. unfold int_range, INT_MIN, INT_MAX. lia. }
  unfold INT_MAX in *. rewrite Hdr. clear Hdr.
  set (dr := row - scrolled_past s) in *.
  split.
  - intros Hin sel0 rest.
    assert (Hy : 140 + dr * cell_height s <= height s) by nia.
    rewrite entry_y_exact
      by (unfold int_range, INT_MIN, INT_MAX; fold dr; nia).
    fold dr.
    rewrite click_in_grid; unfold INT_MAX; try lia; try nia.
    + rewrite (Hback dr eq_refl).
      destruct (Z.ltb_spec dr (visible_rows s)); [|lia].
      reflexivity.
    + rewrite (Hback dr eq_refl). lia.
  - intros Hout Hyr sel0 rest.
    assert (Hdrr : int_range dr).
    { unfold int_range, INT_MIN, INT_MAX in *. nia. }
    rewrite (entry_y_exact row (scrolled_past s) (cell_height s) Hdrr Hyr).
    fold dr.
    destruct (Z.lt_ge_cases dr 0) as [Hneg|Hpos].
    + apply click_in_header. nia.
    + unfold int_range, INT_MIN, INT_MAX in Hyr.
      rewrite click_in_grid; unfold INT_MAX; try lia; try nia.
      * destruct (Z.ltb_spec dr (visible_rows s)); [lia|].
        eexists. split; [reflexivity|]. cbn. split; congruence.
      * rewrite (Hback dr eq_refl). lia.
Qed.

Lemma C3_layout_roundtrip_witness :
  (derived_layout (set_num_entries 50 xl_800x600) /\
   1 <= cols (set_num_entries 50 xl_800x600) /\
   0 <= 1 < num_entries (set_num_entries 50 xl_800x600) /\
   num_entries (set_num_entries 50 xl_800x600) <= INT_MAX /\
   0 <= display_row_of (set_num_entries 50 xl_800x600) 1
     < visible_rows (set_num_entries 50 xl_800x600)) /\
  exists x y,
    xlunch_native_calculate_entry_position
      (Some (set_num_entries 50 xl_800x600)) 1 (Some 0) (Some 0)
      = Ret (Some x, Some y) /\
    xlunch_native_handle_events (Some (set_num_entries 50 xl_800x600))
      (Some 0) [ButtonPress 1 x y]
    = Ret (mkDispatched 0 (Some (set_num_entries 50 xl_800x600)) (Some 1) []).
Proof.
  assert (Hl : derived_layout (set_num_entries 50 xl_800x600)).
  { unfold derived_layout, INT_MAX. cbn. repeat split; lia. }
  assert (Hc : 1 <= cols (set_num_entries 50 xl_800x600)) by (cbn; lia).
  assert (Hi : 0 <= 1 < num_entries (set_num_entries 50 xl_800x600))
    by (cbn; lia).
  assert (Hn : num_entries (set_num_entries 50 xl_800x600) <= INT_MAX)
    by (unfold INT_MAX; cbn; lia).
  assert (Hv : 0 <= display_row_of (set_num_entries 50 xl_800x600) 1
               < visible_rows (set_num_entries 50 xl_800x600))
    by (vm_compute; split; congruence).
  split; [auto|].
  destruct (C3_layout_roundtrip (set_num_entries 50 xl_800x600) 1 0 0
              Hl Hc Hi Hn) as (x & y & Hpos & Hin & _).
  exists x, y. split; [exact Hpos|]. apply (Hin Hv).
Defined.

(** ** Drawing targets *)

Lemma ops_on_emit t t' op w :
  ops_on t (emit t' op w) = ops_on t w ++ (if decide (t' = t) then [op] else []).
Proof.
  unfold ops_on, emit. cbn [drawn].
  rewrite filter_app, fmap_app. f_equal.
  rewrite filter_cons, filter_nil. cbn [fst].
  destruct (decide (t' = t)); reflexivity.
Qed.

Lemma window_only_refl w : window_only w w.
Proof. exists []. cbn. now rewrite app_nil_r. Qed.

Lemma window_only_trans w0 w1 w2 :
  window_only w0 w1 -> window_only w1 w2 -> window_only w0 w2.
Proof.
  intros [o1 H1] [o2 H2]. exists (o1 ++ o2).
  now rewrite H2, H1, fmap_app, app_assoc.
Qed.

Lemma window_only_emit w op : window_only w (emit Window op w).
Proof. exists [op]. reflexivity. Qed.

Lemma window_only_foreground w c : window_only w (XSetForeground c w).
Proof. exists []. cbn. now rewrite app_nil_r. Qed.

(** Primitives applied to the window only show up on the window. *)
Lemma window_only_ops w0 w1 :
  window_only w0 w1 ->
  (exists ops, drawn w1 = drawn w0 ++ (pair Window <$> ops) /\
               window_ops w1 = window_ops w0 ++ ops) /\
  render_buffer_ops w1 = render_buffer_ops w0.
Proof.
  intros [ops H].
  assert (Hw : forall t, ops_on t w1 =
            ops_on t w0 ++ (if decide (Window = t) then ops else [])).
  { intros t. unfold ops_on. rewrite H, filter_app, fmap_app. f_equal.
    clear H. induction ops as [|op ops IH]; cbn [fmap list_fmap].
    - now destruct (decide (Window = t)).
    - rewrite filter_cons. cbn [fst].
      destruct (decide (Window = t)); cbn [fmap list_fmap snd];
        [now rewrite IH|exact IH]. }
  split.
  - exists ops. split; [exact H|]. unfold window_ops. rewrite Hw.
    now destruct (decide (Window = Window)).
  - unfold render_buffer_ops. rewrite Hw.
    destruct (decide (Window = Image RenderBufferImage)); [discriminate|].
    apply app_nil_r.
Qed.

Lemma window_only_foldl {A} (f : XWorld -> A -> XWorld) (l : list A) w :
  (forall w a, window_only w (f w a)) -> window_only w (foldl f w l).
Proof.
  intros Hf. revert w. induction l as [|a l IH]; intros w; cbn [foldl].
  - apply window_only_refl.
  - eapply window_only_trans; [apply Hf|apply IH].
Qed.

Lemma draw_rounded_rect_window_only s x y wd ht radius color w :
  exists op1 op2 ops,
    drawn (xlunch_native_draw_rounded_rect (Some s) x y wd ht radius color w)
    = drawn w ++ (pair Window <$> (op1 :: op2 :: ops)).
Proof.
  unfold xlunch_native_draw_rounded_rect.
  match goal with
  | |- context [foldl ?f ?w0 ?l] =>
    assert (H : window_only w0 (foldl f w0 l))
  end.
  { apply window_only_foldl. intros w1 i.
    apply window_only_foldl. intros w2 j.
    destruct (corner_hit radius i j); [|apply window_only_refl].
    unfold XDrawPoint.
    do 3 (eapply window_only_trans; [|apply window_only_emit]).
    apply window_only_emit. }
  destruct H as [ops H]. rewrite H. cbn [drawn XFillRectangle emit XSetForeground].
  eexists _, _, ops. rewrite <- !app_assoc. reflexivity.
Qed.

Lemma ops_on_app t w0 w1 l :
  drawn w1 = drawn w0 ++ l ->
  ops_on t w1 = ops_on t w0 ++ (snd <$> filter (fun e => fst e = t) l).
Proof. intros H. unfold ops_on. now rewrite H, filter_app, fmap_app. Qed.

Lemma window_ops_app w0 w1 ops :
  drawn w1 = drawn w0 ++ (pair Window <$> ops) ->
  window_ops w1 = window_ops w0 ++ ops.
Proof.
  intros H. unfold window_ops, ops_on. rewrite H, filter_app, fmap_app.
  f_equal. clear H. induction ops as [|op ops IH]; [reflexivity|].
  cbn [fmap list_fmap]. rewrite filter_cons. cbn [fst].
  destruct (decide (Window = Window)); [|congruence].
  cbn [fmap list_fmap snd]. f_equal. exact IH.
Qed.

(** An icon that loads, with the render buffer present: the blend lands on
    the image that is current when it is issued, the icon itself, and the
    image freed at the end is the one current then, the render buffer. *)
Lemma draw_icon_buffered abi s x y wd ht path w :
  loadable w path = true -> render_buffer s = true ->
  exists op,
    drawn (xlunch_native_draw_icon abi (Some s) x y wd ht (Some path) w)
    = drawn w ++ [(Image (LoadedImage path), op);
                  (Image RenderBufferImage, FreeImage)].
Proof.
  intros Hload Hrb. unfold xlunch_native_draw_icon. rewrite Hload, Hrb.
  cbv zeta.
  destruct ((wd ⊟ 8 ⊠ 2 >? 16) && (ht ⊟ 8 ⊠ 2 >? 16));
    cbn -[iadd isub imul]; rewrite <- app_assoc; eexists; reflexivity.
Qed.

(** An icon that loads, without a render buffer: the icon is rendered onto
    the window and then freed. *)
Lemma draw_icon_direct abi s x y wd ht path w :
  loadable w path = true -> render_buffer s = false ->
  exists op,
    drawn (xlunch_native_draw_icon abi (Some s) x y wd ht (Some path) w)
    = drawn w ++ [(Window, op); (Image (LoadedImage path), FreeImage)].
Proof.
  intros Hload Hrb. unfold xlunch_native_draw_icon. rewrite Hload, Hrb.
  cbv zeta.
  destruct ((wd ⊟ 8 ⊠ 2 >? 16) && (ht ⊟ 8 ⊠ 2 >? 16));
    cbn -[iadd isub imul]; rewrite <- app_assoc; eexists; reflexivity.
Qed.

(** C2, as stated, fails: the 800x600 window has its render buffer, and
    drawing a filled rectangle there changes what is on the visible window
    and puts nothing on the render buffer. *)
Lemma C2_rectangle_bypasses_render_buffer :
  render_buffer xl_800x600 = true /\
  window_ops (xlunch_native_draw_rect (Some xl_800x600) 10 20 30 40 1 blank_world)
    = [FillRectangle 0 10 20 30 40] /\
  window_ops (xlunch_native_draw_rect (Some xl_800x600) 10 20 30 40 1 blank_world)
    <> window_ops blank_world /\
  render_buffer_ops
    (xlunch_native_draw_rect (Some xl_800x600) 10 20 30 40 1 blank_world)
    = render_buffer_ops blank_world.
Proof.
  split; [reflexivity|]. split; [reflexivity|].
  split; [discriminate|reflexivity].
Qed.

(** C2, amended. Text, filled and outline rectangles and rounded rectangles
    are always drawn directly onto the visible window and put nothing on
    the render buffer, whether or not a render buffer is present.  An icon
    whose image loads leaves the visible window unchanged when the render
    buffer is present, and is rendered onto the visible window, with nothing
    put on the render buffer, only when there is none. *)
Theorem C2_draw_targets abi s w x y wd ht :
  (forall text highlighted,
     exists op,
       window_ops (xlunch_native_draw_text (Some s) x y (Some text) highlighted w)
         = window_ops w ++ [op] /\
       render_buffer_ops
         (xlunch_native_draw_text (Some s) x y (Some text) highlighted w)
         = render_buffer_ops w) /\
  (forall filled,
     exists op,
       window_ops (xlunch_native_draw_rect (Some s) x y wd ht filled w)
         = window_ops w ++ [op] /\
       render_buffer_ops (xlunch_native_draw_rect (Some s) x y wd ht filled w)
         = render_buffer_ops w) /\
  (forall radius color,
     exists op1 op2 ops,
       window_ops
         (xlunch_native_draw_rounded_rect (Some s) x y wd ht radius color w)
         = window_ops w ++ op1 :: op2 :: ops /\
       render_buffer_ops
         (xlunch_native_draw_rounded_rect (Some s) x y wd ht radius color w)
         = render_buffer_ops w) /\
  (forall path,
     loadable w path = true ->
     (render_buffer s = true ->
      window_ops (xlunch_native_draw_icon abi (Some s) x y wd ht (Some path) w)
        = window_ops w) /\
     (render_buffer s = false ->
      exists op,
        window_ops (xlunch_native_draw_icon abi (Some s) x y wd ht (Some path) w)
          = window_ops w ++ [op] /\
        render_buffer_ops
          (xlunch_native_draw_icon abi (Some s) x y wd ht (Some path) w)
          = render_buffer_ops w)).
Proof.
  split; [|split; [|split]].
  - intros text highlighted. unfold xlunch_native_draw_text.
    destruct (truthy highlighted); eexists;
      unfold window_ops, render_buffer_ops, XftDrawStringUtf8;
      rewrite !ops_on_emit; cbn; rewrite ?app_nil_r; split; reflexivity.
  - intros filled. unfold xlunch_native_draw_rect.
    destruct (truthy filled); eexists;
      unfold window_ops, render_buffer_ops, XFillRectangle, XDrawRectangle;
      rewrite !ops_on_emit; cbn; rewrite ?app_nil_r; split; reflexivity.
  - intros radius color.
    destruct (draw_rounded_rect_window_only s x y wd ht radius color w)
      as (op1 & op2 & ops & H).
    destruct (window_only_ops w _ (ex_intro _ _ H)) as [(ops' & H1 & H2) H3].
    rewrite H in H1. apply app_inv_head in H1.
    apply (inj (fmap (pair Window))) in H1. subst ops'.
    exists op1, op2, ops. split; assumption.
  - intros path Hload. split; intros Hrb.
    + destruct (draw_icon_buffered abi s x y wd ht path w Hload Hrb) as [op H].
      unfold window_ops. rewrite (ops_on_app _ _ _ _ H). cbn.
      apply app_nil_r.
    + destruct (draw_icon_direct abi s x y wd ht path w Hload Hrb) as [op H].
      exists op. unfold window_ops, render_buffer_ops.
      rewrite !(ops_on_app _ _ _ _ H). cbn.
      split; [reflexivity|apply app_nil_r].
Qed.

Lemma C2_draw_targets_witness :
  (loadable icon_world "icon.png" = true /\ render_buffer xl_800x600 = true) /\
  window_ops
    (xlunch_native_draw_icon aarch64 (Some xl_800x600) 20 140 64 64
       (Some "icon.png") icon_world)
  = window_ops icon_world.
Proof.
  assert (Hl : loadable icon_world "icon.png" = true) by reflexivity.
  assert (Hb : render_buffer xl_800x600 = true) by reflexivity.
  split; [split; assumption|].
  exact (proj1 (proj2 (proj2 (proj2
           (C2_draw_targets aarch64 xl_800x600 icon_world 20 140 64 64)))
           "icon.png" Hl) Hb).
Defined.

(** * Further properties of the code *)

(** ** The scroll setter as a state machine *)

Lemma clamped_in_range s n :
  0 <= clamped s n <= Z.max 0 (code_max_scroll s).
Proof. unfold clamped. lia. Qed.

Lemma clamped_fixed s n :
  0 <= n <= Z.max 0 (code_max_scroll s) -> clamped s n = n.
Proof. unfold clamped. lia. Qed.

(** X1. The scroll setter changes no field but the offset; a call that
    requests an offset different from the current one, with scrolling
    enabled, leaves the offset within [0, max(0, max_scroll)] whatever it
    was before; and every call keeps an offset that was within that range
    in it.  The call returns whenever there is at least one column. *)
Theorem X1_set_scroll_keeps_range s n :
  (1 <= cols s ->
   exists c s1, xlunch_native_set_scroll_level (Some s) n = Ret (c, Some s1)) /\
  (forall c s1,
     xlunch_native_set_scroll_level (Some s) n = Ret (c, Some s1) ->
     s1 = set_scrolled_past (scrolled_past s1) s /\
     (noscroll s = 0 -> n <> scrolled_past s ->
      scrolled_past s1 = clamped s n /\ scroll_in_range s1) /\
     (scroll_in_range s -> scroll_in_range s1)).
Proof.
  split; [apply set_scroll_level_returns|].
  intros c s1. rewrite set_scroll_level_cases.
  destruct (truthy (noscroll s) || (n =? scrolled_past s)) eqn:Hskip.
  - intros [= <- <-]. split; [symmetry; apply set_scrolled_past_same|].
    split; [|auto].
    intros Hno Hne. apply orb_true_iff in Hskip as [Hs|Hs].
    + unfold truthy in Hs. rewrite Hno in Hs. discriminate.
    + apply Z.eqb_eq in Hs. contradiction.
  - destruct (idiv (entries_count s ⊟ 1) (cols s)); cbn [obind]; [|discriminate].
    intros [= <- <-]. split; [reflexivity|].
    assert (scroll_in_range (set_scrolled_past (clamped s n) s))
      by exact (clamped_in_range s n).
    auto.
Qed.

Lemma X1_set_scroll_keeps_range_witness :
  1 <= cols (set_entries_count 50 xl_800x600) /\
  exists c s1,
    xlunch_native_set_scroll_level
      (Some (set_entries_count 50 xl_800x600)) (-7) = Ret (c, Some s1) /\
    s1 = set_scrolled_past (scrolled_past s1) (set_entries_count 50 xl_800x600).
Proof.
  assert (H : 1 <= cols (set_entries_count 50 xl_800x600)) by (cbn; lia).
  split; [exact H|].
  destruct (proj1 (X1_set_scroll_keeps_range
                     (set_entries_count 50 xl_800x600) (-7)) H)
    as (c & s1 & H1).
  exists c, s1. split; [exact H1|].
  exact (proj1 (proj2 (X1_set_scroll_keeps_range
                         (set_entries_count 50 xl_800x600) (-7)) c s1 H1)).
Defined.

(** With the offset in range, the setter has one closed form. *)
Lemma set_scroll_level_in_range s n :
  1 <= cols s -> scroll_in_range s -> noscroll s = 0 ->
  xlunch_native_set_scroll_level (Some s) n =
  Ret (of_bool (negb (clamped s n =? scrolled_past s)),
       Some (set_scrolled_past (clamped s n) s)).
Proof.
  intros Hc Hin Hno. rewrite set_scroll_level_cases.
  unfold truthy. rewrite Hno. cbn [Z.eqb negb orb].
  destruct (Z.eqb_spec n (scrolled_past s)) as [->|Hne].
  - rewrite (clamped_fixed s (scrolled_past s) Hin).
    rewrite Z.eqb_refl, set_scrolled_past_same. reflexivity.
  - rewrite idiv_pos by lia. reflexivity.
Qed.

(** X2. Scroll requests compose as last-write-wins: from a state with at
    least one column whose offset is in range, requesting [a] and then [b]
    ends in the same state as requesting [b] alone, and when scrolling is
    enabled its offset is [b] clamped into the range. *)
Theorem X2_set_scroll_last_wins s a b :
  1 <= cols s -> scroll_in_range s ->
  exists c1 s1 c2 c3 s2,
    xlunch_native_set_scroll_level (Some s) a = Ret (c1, Some s1) /\
    xlunch_native_set_scroll_level (Some s1) b = Ret (c2, Some s2) /\
    xlunch_native_set_scroll_level (Some s) b = Ret (c3, Some s2) /\
    (noscroll s = 0 -> scrolled_past s2 = clamped s b).
Proof.
  intros Hc Hin.
  destruct (Z.eq_dec (noscroll s) 0) as [Hno|Hno].
  - rewrite !(set_scroll_level_in_range s) by assumption.
    eexists _, _, _, _, _. split; [reflexivity|].
    rewrite set_scroll_level_in_range;
      [|exact Hc|exact (clamped_in_range s a)|exact Hno].
    change (clamped (set_scrolled_past (clamped s a) s) b) with (clamped s b).
    rewrite set_scrolled_past_twice.
    split; [reflexivity|]. split; [reflexivity|]. intros _. reflexivity.
  - assert (Hskip : forall n, xlunch_native_set_scroll_level (Some s) n
                              = Ret (0, Some s)).
    { intros n. rewrite set_scroll_level_cases. unfold truthy.
      destruct (Z.eqb_spec (noscroll s) 0); [contradiction|reflexivity]. }
    exists 0, s, 0, 0, s. rewrite !Hskip. repeat split. contradiction.
Qed.

Lemma X2_set_scroll_last_wins_witness :
  (1 <= cols (set_entries_count 50 xl_800x600) /\
   scroll_in_range (set_entries_count 50 xl_800x600)) /\
  exists c1 s1 c2 c3 s2,
    xlunch_native_set_scroll_level
      (Some (set_entries_count 50 xl_800x600)) 100 = Ret (c1, Some s1) /\
    xlunch_native_set_scroll_level (Some s1) 2 = Ret (c2, Some s2) /\
    xlunch_native_set_scroll_level
      (Some (set_entries_count 50 xl_800x600)) 2 = Ret (c3, Some s2) /\
    (noscroll (set_entries_count 50 xl_800x600) = 0 ->
     scrolled_past s2 = clamped (set_entries_count 50 xl_800x600) 2).
Proof.
  assert (H1 : 1 <= cols (set_entries_count 50 xl_800x600)) by (cbn; lia).
  assert (H2 : scroll_in_range (set_entries_count 50 xl_800x600))
    by (vm_compute; split; discriminate).
  split; [split; assumption|].
  exact (X2_set_scroll_last_wins (set_entries_count 50 xl_800x600) 100 2 H1 H2).
Defined.

(** ** The dispatcher as a state machine *)

Lemma same_but_scroll_hover_refl s : same_but_scroll_hover s s.
Proof. unfold same_but_scroll_hover. now destruct s. Qed.

(** An event bound to scrolling is answered by the scroll setter. *)
Lemma handle_events_scroll s sel0 ev rest target :
  scroll_request s ev = Some target ->
  xlunch_native_handle_events (Some s) (Some sel0) (ev :: rest)
  = scroll_reply s target rest.
Proof.
  unfold xlunch_native_handle_events, scroll_request.
  destruct ev as [keycode|button x y| | |x y| | |ty]; try discriminate.
  - destruct (Z.eqb_spec keycode 9) as [->|_]; [discriminate|].
    repeat match goal with
      | |- context [if ?c then _ else _] => destruct c
      end; intros [= <-]; reflexivity.
  - destruct (Z.eqb_spec button 1) as [->|_]; [discriminate|].
    repeat match goal with
      | |- context [if ?c then _ else _] => destruct c
      end; intros [= <-]; reflexivity.
Qed.

(** Every other event leaves the offset alone. *)
Lemma handle_events_other s sel0 ev rest d :
  scroll_request s ev = None ->
  xlunch_native_handle_events (Some s) (Some sel0) (ev :: rest) = Ret d ->
  queue_after d = rest /\
  exists s1,
    xl_after d = Some s1 /\ scrolled_past s1 = scrolled_past s /\
    same_but_scroll_hover s s1 /\
    (code d = 2 <-> ev = Expose) /\
    (code d = 0 <->
     ev = KeyPress 9 \/ ev = ClientMessage \/ selected_after d <> Some (-1)).
Proof.
  unfold xlunch_native_handle_events, scroll_request.
  pose proof (same_but_scroll_hover_refl s) as Hrefl.
  destruct ev as [keycode|button x y| | |x y| | |ty]; cbn [tail].
  - destruct (Z.eqb_spec keycode 9) as [->|Hk].
    + intros _ [= <-]. cbn. split; [reflexivity|]. exists s.
      repeat split; auto; try discriminate.
    + repeat match goal with
        | |- context [if ?c then _ else _] => destruct c
        end; try discriminate.
      intros _ [= <-]. cbn. split; [reflexivity|]. exists s.
      repeat split; auto; try discriminate.
      intros [H|[H|H]]; [congruence|discriminate|congruence].
  - destruct (Z.eqb_spec button 1) as [->|Hb1].
    + intros _.
      destruct (y <? 140).
      * repeat match goal with
          | |- context [if ?c then _ else _] => destruct c
          end; intros [= <-]; cbn; (split; [reflexivity|]); exists s;
          repeat split; auto; try discriminate;
          intros [H|[H|H]]; congruence.
      * destruct ((x >=? 0) && (y ⊟ 140 >=? 0)).
        2:{ intros [= <-]; cbn; (split; [reflexivity|]); exists s;
            repeat split; auto; try discriminate;
            intros [H|[H|H]]; congruence. }
        destruct (idiv x (cell_width s)) as [col|]; cbn [obind];
          [|discriminate].
        destruct (idiv (y ⊟ 140) (cell_height s)) as [display_row|];
          cbn [obind]; [|discriminate].
        cbv zeta.
        destruct (_ && _ && _ && _ && _) eqn:Hbounds.
        2:{ intros [= <-]; cbn; (split; [reflexivity|]); exists s;
            repeat split; auto; try discriminate;
            intros [H|[H|H]]; congruence. }
        destruct (idiv (height s ⊟ 140) (cell_height s)) as [maxrows|];
          cbn [obind]; [|discriminate].
        destruct (display_row <? maxrows).
        2:{ intros [= <-]; cbn; (split; [reflexivity|]); exists s;
            repeat split; auto; try discriminate;
            intros [H|[H|H]]; congruence. }
        intros [= <-]. cbn. split; [reflexivity|]. exists s.
        repeat (apply andb_true_iff in Hbounds as [Hbounds ?]).
        repeat split; auto; try discriminate.
        intros _. right. right. intros [= H']. lia.
    + repeat match goal with
        | |- context [if ?c then _ else _] => destruct c
        end; try discriminate.
      intros _ [= <-]. cbn. split; [reflexivity|]. exists s.
      repeat split; auto; try discriminate.
      intros [H|[H|H]]; congruence.
  - intros _ [= <-]. cbn. split; [reflexivity|]. exists s.
    repeat split; auto; try discriminate.
    intros [H|[H|H]]; congruence.
  - intros _ [= <-]. cbn. split; [reflexivity|]. exists s.
    repeat split; auto; try discriminate.
  - intros _ [= <-]. cbn. split; [reflexivity|].
    unfold xlunch_native_handle_hover.
    repeat match goal with
      | |- context [if ?c then _ else _] => destruct c
      end; eexists; (split; [reflexivity|]);
      (split; [reflexivity|]); (split; [reflexivity|]);
      split; split; try discriminate; intros [H|[H|H]]; congruence.
  - intros _ [= <-]. cbn. split; [reflexivity|].
    eexists; (split; [reflexivity|]);
      (split; [reflexivity|]); (split; [reflexivity|]);
      split; split; try discriminate; intros [H|[H|H]]; congruence.
  - intros _ [= <-]. cbn. split; [reflexivity|].
    eexists; (split; [reflexivity|]);
      (split; [reflexivity|]); (split; [reflexivity|]);
      split; split; try discriminate; intros [H|[H|H]]; congruence.
  - intros _ [= <-]. cbn. split; [reflexivity|]. exists s.
    repeat split; auto; try discriminate.
    intros [H|[H|H]]; congruence.
Qed.

Lemma set_scroll_level_effect s n c s1 :
  xlunch_native_set_scroll_level (Some s) n = Ret (c, Some s1) ->
  s1 = set_scrolled_past (scrolled_past s1) s /\
  (scroll_in_range s -> scroll_in_range s1) /\
  c = of_bool (negb (scrolled_past s1 =? scrolled_past s)).
Proof.
  rewrite set_scroll_level_cases.
  destruct (truthy (noscroll s) || (n =? scrolled_past s)).
  - intros [= <- <-]. rewrite Z.eqb_refl.
    split; [symmetry; apply set_scrolled_past_same|]. auto.
  - destruct (idiv (entries_count s ⊟ 1) (cols s)); cbn [obind]; [|discriminate].
    intros [= <- <-]. split; [reflexivity|]. split; [|reflexivity].
    intros _. exact (clamped_in_range s n).
Qed.

(** What a dispatch that drains a scroll binding leaves behind. *)
Lemma scroll_reply_effect s target rest d :
  scroll_reply s target rest = Ret d ->
  queue_after d = rest /\ selected_after d = Some (-1) /\
  exists s1,
    xl_after d = Some s1 /\
    s1 = set_scrolled_past (scrolled_past s1) s /\
    (scroll_in_range s -> scroll_in_range s1) /\
    code d = (if scrolled_past s1 =? scrolled_past s then 1 else 2).
Proof.
  unfold scroll_reply.
  destruct (xlunch_native_set_scroll_level (Some s) target) as [[c o]|] eqn:E;
    cbn [obind]; [|discriminate].
  intros [= <-]. cbn [queue_after selected_after xl_after code fst snd].
  assert (exists s1, o = Some s1) as [s1 ->].
  { revert E. rewrite set_scroll_level_cases.
    destruct (_ || _); [intros [= <- <-]; eauto|].
    destruct (idiv _ _); cbn [obind]; [intros [= <- <-]; eauto|discriminate]. }
  destruct (set_scroll_level_effect s target c s1 E) as (Hf & Hr & ->).
  split; [reflexivity|]. split; [reflexivity|].
  exists s1. split; [reflexivity|]. split; [exact Hf|]. split; [exact Hr|].
  now destruct (scrolled_past s1 =? scrolled_past s).
Qed.

(** X3. Called with a structure and a selection cell (neither of them
    NULL), whenever the dispatcher returns, it has taken exactly the first
    pending event off the queue (nothing when the queue was empty), it has
    changed no field of the structure other than the scroll offset and the
    two hover flags, and an offset that was in range is still in range.  It
    returns whenever the cell sizes and the column count are positive. *)
Theorem X3_dispatch_frame s sel0 pending :
  (1 <= cell_width s -> 1 <= cell_height s -> 1 <= cols s ->
   exists d, xlunch_native_handle_events (Some s) (Some sel0) pending = Ret d) /\
  (forall d,
     xlunch_native_handle_events (Some s) (Some sel0) pending = Ret d ->
     queue_after d = tail pending /\
     exists s1,
       xl_after d = Some s1 /\ same_but_scroll_hover s s1 /\
       (scroll_in_range s -> scroll_in_range s1)).
Proof.
  split; [apply handle_events_returns|].
  intros d Hd. destruct pending as [|ev rest].
  { injection Hd as <-. cbn. split; [reflexivity|]. exists s.
    split; [reflexivity|]. split; [apply same_but_scroll_hover_refl|auto]. }
  destruct (scroll_request s ev) as [target|] eqn:Hreq.
  - rewrite (handle_events_scroll _ _ _ _ _ Hreq) in Hd.
    apply scroll_reply_effect in Hd as (Hq & _ & s1 & Hx & Hf & Hr & _).
    split; [exact Hq|]. exists s1. split; [exact Hx|]. split; [|exact Hr].
    clear Hx Hr. remember (scrolled_past s1) as v eqn:Hv in Hf.
    clear Hv. subst s1. reflexivity.
  - destruct (handle_events_other _ _ _ _ _ Hreq Hd)
      as (Hq & s1 & Hx & Hs & Hf & _).
    split; [exact Hq|]. exists s1. split; [exact Hx|]. split; [exact Hf|].
    unfold scroll_in_range. rewrite Hs.
    replace (code_max_scroll s1) with (code_max_scroll s);
      [auto|rewrite Hf; reflexivity].
Qed.

Lemma X3_dispatch_frame_witness :
  (1 <= cell_width xl_800x600 /\ 1 <= cell_height xl_800x600 /\
   1 <= cols xl_800x600) /\
  exists d,
    xlunch_native_handle_events (Some xl_800x600) (Some 0)
      [ButtonPress 5 10 10; Expose] = Ret d /\
    queue_after d = [Expose].
Proof.
  assert (H : 1 <= cell_width xl_800x600 /\ 1 <= cell_height xl_800x600 /\
              1 <= cols xl_800x600) by (cbn; lia).
  split; [exact H|]. destruct H as (Hw & Hh & Hc).
  destruct (proj1 (X3_dispatch_frame xl_800x600 0 [ButtonPress 5 10 10; Expose])
              Hw Hh Hc) as [d Hd].
  exists d. split; [exact Hd|].
  exact (proj1 (proj2 (X3_dispatch_frame xl_800x600 0
                         [ButtonPress 5 10 10; Expose]) d Hd)).
Defined.

(** X4. The dispatcher asks for a redraw (code 2) exactly when the drained
    event is an Expose or the call changed the scroll offset; a change of
    the hover flags alone never asks for one. *)
Theorem X4_redraw_iff s sel0 pending d :
  xlunch_native_handle_events (Some s) (Some sel0) pending = Ret d ->
  (code d = 2 <->
   (exists rest, pending = Expose :: rest) \/
   (exists s1, xl_after d = Some s1 /\ scrolled_past s1 <> scrolled_past s)).
Proof.
  intros Hd. destruct pending as [|ev rest].
  { injection Hd as <-. cbn. split; [discriminate|].
    intros [[rest H]|(s1 & [= <-] & H)]; [discriminate|contradiction]. }
  destruct (scroll_request s ev) as [target|] eqn:Hreq.
  - rewrite (handle_events_scroll _ _ _ _ _ Hreq) in Hd.
    apply scroll_reply_effect in Hd as (_ & _ & s1 & Hx & _ & _ & Hc).
    rewrite Hc, Hx. destruct (Z.eqb_spec (scrolled_past s1) (scrolled_past s)).
    + split; [discriminate|].
      intros [[r [= -> _]]|(s2 & [= <-] & H)]; [discriminate|contradiction].
    + split; [|reflexivity]. intros _. right. eauto.
  - destruct (handle_events_other _ _ _ _ _ Hreq Hd)
      as (_ & s1 & Hx & Hs & _ & H2 & _).
    rewrite H2, Hx. split.
    + intros ->. left. eauto.
    + intros [[r [= -> _]]|(s2 & [= <-] & H)]; [reflexivity|contradiction].
Qed.

Lemma X4_redraw_iff_witness :
  xlunch_native_handle_events (Some (set_entries_count 50 xl_800x600)) (Some 0)
    [ButtonPress 5 10 10]
  = Ret (mkDispatched 2
           (Some (set_scrolled_past 1 (set_entries_count 50 xl_800x600)))
           (Some (-1)) []) /\
  ((exists rest, [ButtonPress 5 10 10] = Expose :: rest) \/
   (exists s1,
      Some (set_scrolled_past 1 (set_entries_count 50 xl_800x600)) = Some s1 /\
      scrolled_past s1 <> scrolled_past (set_entries_count 50 xl_800x600))).
Proof.
  assert (H : xlunch_native_handle_events
                (Some (set_entries_count 50 xl_800x600)) (Some 0)
                [ButtonPress 5 10 10]
              = Ret (mkDispatched 2
                       (Some (set_scrolled_past 1
                                (set_entries_count 50 xl_800x600)))
                       (Some (-1)) [])) by reflexivity.
  split; [exact H|].
  exact (proj1 (X4_redraw_iff _ _ _ _ H) eq_refl).
Defined.

(** X5. The dispatcher returns 0 (terminate) exactly when the drained event
    is Escape or a window-close message, or when it stored a selection; so
    a 0 with -1 in the selection cell always means Escape or close. *)
Theorem X5_terminate_iff s sel0 pending d :
  xlunch_native_handle_events (Some s) (Some sel0) pending = Ret d ->
  (code d = 0 <->
   (exists rest, pending = KeyPress 9 :: rest) \/
   (exists rest, pending = ClientMessage :: rest) \/
   selected_after d <> Some (-1)).
Proof.
  intros Hd. destruct pending as [|ev rest].
  { injection Hd as <-. cbn. split; [discriminate|].
    intros [[r H]|[[r H]|H]]; congruence. }
  destruct (scroll_request s ev) as [target|] eqn:Hreq.
  - assert (ev <> KeyPress 9 /\ ev <> ClientMessage) as [N1 N2].
    { split; intros ->; discriminate. }
    rewrite (handle_events_scroll _ _ _ _ _ Hreq) in Hd.
    apply scroll_reply_effect in Hd as (_ & Hsel & s1 & _ & _ & _ & Hc).
    rewrite Hc, Hsel. split.
    + destruct (scrolled_past s1 =? scrolled_past s); discriminate.
    + intros [[r [= -> _]]|[[r [= -> _]]|H]]; congruence.
  - destruct (handle_events_other _ _ _ _ _ Hreq Hd)
      as (_ & s1 & _ & _ & _ & _ & H0).
    rewrite H0. split.
    + intros [->|[->|H]]; eauto.
    + intros [[r [= -> _]]|[[r [= -> _]]|H]]; auto.
Qed.

Lemma X5_terminate_iff_witness :
  xlunch_native_handle_events (Some xl_800x600) (Some 0) [KeyPress 9; Expose]
  = Ret (mkDispatched 0 (Some xl_800x600) (Some (-1)) [Expose]) /\
  code (mkDispatched 0 (Some xl_800x600) (Some (-1)) [Expose]) = 0.
Proof.
  assert (H : xlunch_native_handle_events (Some xl_800x600) (Some 0)
                [KeyPress 9; Expose]
              = Ret (mkDispatched 0 (Some xl_800x600) (Some (-1)) [Expose]))
    by reflexivity.
  split; [exact H|].
  apply (proj2 (X5_terminate_iff _ _ _ _ H)). left. eauto.
Defined.

Lemma code_max_scroll_le_entries s :
  1 <= cols s -> 1 <= entries_count s <= INT_MAX -> 0 <= rows s <= INT_MAX ->
  code_max_scroll s <= entries_count s.
Proof.
  intros Hc He Hr. rewrite code_max_scroll_exact by lia.
  rewrite quot_floor by lia.
  assert ((entries_count s - 1) / cols s <= entries_count s - 1)
    by (apply Z.div_le_upper_bound; nia).
  lia.
Qed.

(** X6. With at least one column and scrolling enabled, the Home key always
    leaves the offset at 0.  If moreover the offset was in range and there
    is at least one entry (entry and row counts being non-negative [int]s),
    the End key always leaves it at the bound max(0, max_scroll).  Each
    asks for a redraw exactly when it moved the offset. *)
Theorem X6_home_and_end s sel0 rest :
  1 <= cols s -> noscroll s = 0 ->
  (exists d s1,
     xlunch_native_handle_events (Some s) (Some sel0) (KeyPress 110 :: rest)
       = Ret d /\
     xl_after d = Some s1 /\ scrolled_past s1 = 0 /\
     code d = (if scrolled_past s =? 0 then 1 else 2)) /\
  (scroll_in_range s ->
   1 <= entries_count s <= INT_MAX -> 0 <= rows s <= INT_MAX ->
   exists d s1,
     xlunch_native_handle_events (Some s) (Some sel0) (KeyPress 115 :: rest)
       = Ret d /\
     xl_after d = Some s1 /\
     scrolled_past s1 = Z.max 0 (code_max_scroll s) /\
     code d =
       (if scrolled_past s =? Z.max 0 (code_max_scroll s) then 1 else 2)).
Proof.
  intros Hc Hno.
  assert (Ht : truthy (noscroll s) = false) by (unfold truthy; now rewrite Hno).
  split.
  - rewrite (handle_events_scroll s sel0 (KeyPress 110) rest 0) by reflexivity.
    unfold scroll_reply. rewrite set_scroll_level_cases, Ht. cbn [orb].
    destruct (Z.eqb_spec 0 (scrolled_past s)) as [H0|H0].
    + cbn [obind fst snd]. eexists _, s. split; [reflexivity|].
      split; [reflexivity|]. split; [auto|]. cbn.
      rewrite <- H0. reflexivity.
    + rewrite idiv_pos by lia. cbn [obind fst snd].
      assert (Hcl : clamped s 0 = 0) by (unfold clamped; lia).
      rewrite Hcl. eexists _, _. split; [reflexivity|].
      split; [reflexivity|]. split; [reflexivity|]. cbn [code].
      destruct (Z.eqb_spec 0 (scrolled_past s)); [contradiction|].
      destruct (Z.eqb_spec (scrolled_past s) 0); [congruence|reflexivity].
  - intros Hin He Hr.
    pose proof (code_max_scroll_le_entries s Hc He Hr) as Hle.
    rewrite (handle_events_scroll s sel0 (KeyPress 115) rest (entries_count s))
      by reflexivity.
    unfold scroll_reply. rewrite set_scroll_level_cases, Ht. cbn [orb].
    unfold scroll_in_range in Hin.
    destruct (Z.eqb_spec (entries_count s) (scrolled_past s)) as [H0|H0].
    + cbn [obind fst snd]. eexists _, s. split; [reflexivity|].
      split; [reflexivity|]. split; [lia|]. cbn.
      destruct (Z.eqb_spec (scrolled_past s) (Z.max 0 (code_max_scroll s)));
        [reflexivity|lia].
    + rewrite idiv_pos by lia. cbn [obind fst snd].
      assert (Hcl : clamped s (entries_count s) = Z.max 0 (code_max_scroll s))
        by (unfold clamped; lia).
      rewrite Hcl. eexists _, _. split; [reflexivity|].
      split; [reflexivity|]. split; [reflexivity|]. cbn [code].
      rewrite (Z.eqb_sym (scrolled_past s)).
      now destruct (Z.max 0 (code_max_scroll s) =? scrolled_past s).
Qed.

Lemma X6_home_and_end_witness :
  (1 <= cols (set_entries_count 50 xl_800x600) /\
   noscroll (set_entries_count 50 xl_800x600) = 0 /\
   scroll_in_range (set_entries_count 50 xl_800x600) /\
   1 <= entries_count (set_entries_count 50 xl_800x600) <= INT_MAX /\
   0 <= rows (set_entries_count 50 xl_800x600) <= INT_MAX) /\
  exists d s1,
    xlunch_native_handle_events (Some (set_entries_count 50 xl_800x600))
      (Some 0) [KeyPress 115] = Ret d /\
    xl_after d = Some s1 /\
    scrolled_past s1
      = Z.max 0 (code_max_scroll (set_entries_count 50 xl_800x600)) /\
    code d =
      (if scrolled_past (set_entries_count 50 xl_800x600)
          =? Z.max 0 (code_max_scroll (set_entries_count 50 xl_800x600))
       then 1 else 2).
Proof.
  assert (H1 : 1 <= cols (set_entries_count 50 xl_800x600)) by (cbn; lia).
  assert (H2 : noscroll (set_entries_count 50 xl_800x600) = 0) by reflexivity.
  assert (H3 : scroll_in_range (set_entries_count 50 xl_800x600))
    by (vm_compute; split; discriminate).
  assert (H4 : 1 <= entries_count (set_entries_count 50 xl_800x600) <= INT_MAX)
    by (unfold INT_MAX; cbn; lia).
  assert (H5 : 0 <= rows (set_entries_count 50 xl_800x600) <= INT_MAX)
    by (unfold INT_MAX; cbn; lia).
  split; [auto 10|].
  exact (proj2 (X6_home_and_end (set_entries_count 50 xl_800x600) 0 [] H1 H2)
           H3 H4 H5).
Defined.

(** ** Header clicks *)

Lemma init_sets_buttons env w h icon s :
  0 < w <= INT_MAX ->
  xlunch_native_init env w h icon = Ret (Some s) -> init_buttons s.
Proof.
  unfold INT_MAX. intros Hw. unfold xlunch_native_init.
  destruct (negb (malloc_ok env)); [discriminate|].
  destruct (negb (display_ok env)); [discriminate|].
  cbv zeta.
  destruct (idiv _ _); cbn [obind]; [|discriminate].
  destruct (idiv _ _); cbn [obind]; [|discriminate].
  intros [= <-]. unfold init_buttons, INT_MAX. cbn.
  unfold isub. rewrite wrap_small by (unfold int_range, INT_MIN, INT_MAX; lia).
  repeat split; lia.
Qed.

(** The rectangles of an initialised structure, in plain coordinates. *)
Lemma init_buttons_rects s mx my :
  init_buttons s ->
  (in_settings_rect s mx my <->
   width s - 150 <= mx <= width s - 10 /\ 30 <= my <= 82) /\
  (in_logo_rect s mx my <-> 45 <= mx <= 290 /\ 10 <= my <= 110).
Proof.
  unfold init_buttons, in_settings_rect, in_logo_rect, INT_MAX.
  intros (Hw & -> & -> & -> & -> & -> & -> & -> & ->).
  unfold iadd.
  rewrite (wrap_small (width s - 150 + 140))
    by (unfold int_range, INT_MIN, INT_MAX; lia).
  change (wrap (30 + 52)) with 82. change (wrap (45 + 245)) with 290.
  change (wrap (10 + 100)) with 110.
  split; split; lia.
Qed.

(** X7. A left click above the grid (y < 140) never selects and never
    scrolls: it returns -2 on the settings rectangle, -3 on the logo
    rectangle outside the settings rectangle, and 1 anywhere else, leaving
    the structure as it was.  With the rectangles where initialisation puts
    them, both lie inside the header, so a left click on the settings button
    always returns -2; and in a window wider than 440 pixels the two
    rectangles are disjoint, so a left click on the logo always returns
    -3. *)
Theorem X7_header_click s sel0 x y rest :
  (y < 140 ->
   xlunch_native_handle_events (Some s) (Some sel0) (ButtonPress 1 x y :: rest)
   = Ret (mkDispatched
            (if xlunch_native_check_button_hover (Some s) x y =? 1 then -2
             else if xlunch_native_check_button_hover (Some s) x y =? 2
                  then -3 else 1)
            (Some s) (Some (-1)) rest)) /\
  (init_buttons s ->
   (in_settings_rect s x y ->
    xlunch_native_handle_events (Some s) (Some sel0) (ButtonPress 1 x y :: rest)
    = Ret (mkDispatched (-2) (Some s) (Some (-1)) rest)) /\
   (440 < width s -> in_logo_rect s x y ->
    ~ in_settings_rect s x y /\
    xlunch_native_handle_events (Some s) (Some sel0) (ButtonPress 1 x y :: rest)
    = Ret (mkDispatched (-3) (Some s) (Some (-1)) rest))).
Proof.
  assert (Hhead : y < 140 ->
    xlunch_native_handle_events (Some s) (Some sel0) (ButtonPress 1 x y :: rest)
    = Ret (mkDispatched
             (if xlunch_native_check_button_hover (Some s) x y =? 1 then -2
              else if xlunch_native_check_button_hover (Some s) x y =? 2
                   then -3 else 1)
             (Some s) (Some (-1)) rest)).
  { intros Hy. unfold xlunch_native_handle_events. cbn [Z.eqb Pos.eqb tail].
    destruct (Z.ltb_spec y 140) as [_|?]; [|lia].
    destruct (check_button_hover_cases s x y)
      as [[_ E]|[[_ [_ E]]|[_ [_ E]]]]; rewrite E; reflexivity. }
  split; [exact Hhead|].
  intros Hb. destruct (init_buttons_rects s x y Hb) as [Hs Hl].
  split.
  - intros Hin. pose proof (proj1 Hs Hin) as Hc.
    rewrite Hhead by lia.
    destruct (check_button_hover_cases s x y)
      as [[_ E]|[[N _]|[N _]]]; [|contradiction|contradiction].
    rewrite E. reflexivity.
  - intros Hw Hin. pose proof (proj1 Hl Hin) as Hc.
    assert (Hn : ~ in_settings_rect s x y) by (rewrite Hs; lia).
    split; [exact Hn|]. rewrite Hhead by lia.
    destruct (check_button_hover_cases s x y)
      as [[Y _]|[[_ [_ E]]|[_ [N _]]]]; [contradiction| |contradiction].
    rewrite E. reflexivity.
Qed.

Lemma X7_header_click_witness :
  (init_buttons xl_800x600 /\ in_settings_rect xl_800x600 700 50) /\
  xlunch_native_handle_events (Some xl_800x600) (Some 0) [ButtonPress 1 700 50]
  = Ret (mkDispatched (-2) (Some xl_800x600) (Some (-1)) []).
Proof.
  assert (Hb : init_buttons xl_800x600).
  { unfold init_buttons, INT_MAX. cbn. repeat split; lia. }
  assert (Hin : in_settings_rect xl_800x600 700 50).
  { vm_compute. repeat split; discriminate. }
  split; [split; assumption|].
  exact (proj1 (proj2 (X7_header_click xl_800x600 0 700 50 []) Hb) Hin).
Defined.

(** ** From a click back to the cell *)

(** What a left click that stored a selection went through. *)
Lemma click_selects_inv s sel0 x y rest d idx :
  xlunch_native_handle_events (Some s) (Some sel0) (ButtonPress 1 x y :: rest)
    = Ret d ->
  selected_after d = Some idx -> idx <> -1 ->
  140 <= y /\ 0 <= x /\ cell_width s <> 0 /\ cell_height s <> 0 /\
  0 <= x ÷ cell_width s < cols s /\
  0 <= (y ⊟ 140) ÷ cell_height s < (height s ⊟ 140) ÷ cell_height s /\
  idx = ((y ⊟ 140) ÷ cell_height s ⊞ scrolled_past s) ⊠ cols s
        ⊞ x ÷ cell_width s /\
  0 <= idx < num_entries s /\ code d = 0.
Proof.
  unfold xlunch_native_handle_events. cbn [Z.eqb Pos.eqb tail].
  destruct (Z.ltb_spec y 140) as [Hy|Hy].
  { repeat match goal with
      | |- context [if ?c then _ else _] => destruct c
      end; intros [= <-]; cbn; congruence. }
  destruct ((x >=? 0) && (y ⊟ 140 >=? 0)) eqn:Hxy;
    [|intros [= <-]; cbn; congruence].
  apply andb_true_iff in Hxy as [Hx _]. apply Z.geb_le in Hx.
  unfold idiv.
  destruct (Z.eqb_spec (cell_width s) 0); [discriminate|].
  destruct ((x =? INT_MIN) && (cell_width s =? -1)); [discriminate|].
  cbn [obind].
  destruct (Z.eqb_spec (cell_height s) 0); [discriminate|].
  destruct ((y ⊟ 140 =? INT_MIN) && (cell_height s =? -1)); [discriminate|].
  cbn [obind]. cbv zeta.
  destruct (_ && _ && _ && _ && _) eqn:Hbounds;
    [|intros [= <-]; cbn; congruence].
  destruct ((height s ⊟ 140 =? INT_MIN) && (cell_height s =? -1));
    [discriminate|].
  cbn [obind].
  destruct (Z.ltb_spec ((y ⊟ 140) ÷ cell_height s)
              ((height s ⊟ 140) ÷ cell_height s));
    [|intros [= <-]; cbn; congruence].
  intros [= <-]. cbn. intros [= <-] _.
  repeat (apply andb_true_iff in Hbounds as [Hbounds ?]).
  repeat split; try assumption; lia.
Qed.

Lemma rem_mul_add c k b : 0 <= c -> 0 <= k < b -> Z.rem (c * b + k) b = k.
Proof.
  intros Hc Hk. pose proof (Z.quot_rem' (c * b + k) b) as H.
  rewrite quot_mul_add in H by assumption. lia.
Qed.

(** X8. A click selects an entry only on that entry's cell.  In a derived
    layout with at least one column, a non-negative offset and no [int]
    overflow in the index of the last visible cell, whenever a left click at
    (x, y) stores the index [idx], the position (x1, y1) the layout computes
    for [idx] satisfies x1 - 20 <= x < x1 - 20 + cell_width and
    y1 <= y < y1 + cell_height, and [idx] is displayed in a fully visible
    row. *)
Theorem X8_selected_cell_contains_click s sel0 x y rest d idx :
  derived_layout s -> 1 <= cols s -> int_range y ->
  0 <= scrolled_past s ->
  (scrolled_past s + visible_rows s) * cols s <= INT_MAX ->
  xlunch_native_handle_events (Some s) (Some sel0) (ButtonPress 1 x y :: rest)
    = Ret d ->
  selected_after d = Some idx -> idx <> -1 ->
  exists x1 y1,
    xlunch_native_calculate_entry_position (Some s) idx (Some 0) (Some 0)
      = Ret (Some x1, Some y1) /\
    x1 - 20 <= x < x1 - 20 + cell_width s /\
    y1 <= y < y1 + cell_height s /\
    0 <= display_row_of s idx < visible_rows s.
Proof.
  intros Hl Hc Hyr Hsp Hov Hd Hsel Hne.
  destruct (derived_layout_facts s Hl Hc) as (Hcw & Hch & Hpad & Hfit & Hh & Hw).
  destruct (click_selects_inv s sel0 x y rest d idx Hd Hsel Hne)
    as (Hy & Hx & _ & _ & Hcol & Hdr & Hidx & Hin & _).
  unfold int_range, INT_MIN, INT_MAX in *.
  unfold isub in Hdr, Hidx.
  rewrite (wrap_small (y - 140)) in Hdr, Hidx
    by (unfold int_range, INT_MIN, INT_MAX; lia).
  rewrite (wrap_small (height s - 140)) in Hdr
    by (unfold int_range, INT_MIN, INT_MAX; lia).
  fold (visible_rows s) in Hdr.
  set (col := x ÷ cell_width s) in *.
  set (dr := (y - 140) ÷ cell_height s) in *.
  assert (Hxq : x = cell_width s * col + Z.rem x (cell_width s))
    by apply Z.quot_rem'.
  pose proof (Z.rem_bound_pos x (cell_width s) Hx ltac:(lia)) as Hxr.
  assert (Hyq : y - 140 = cell_height s * dr + Z.rem (y - 140) (cell_height s))
    by apply Z.quot_rem'.
  pose proof (Z.rem_bound_pos (y - 140) (cell_height s) ltac:(lia) ltac:(lia))
    as Hyrem.
  assert (Hrow : 0 <= dr + scrolled_past s) by lia.
  assert (Hlast : (dr + scrolled_past s) * cols s + col
                  < (scrolled_past s + visible_rows s) * cols s) by nia.
  assert (Hval : idx = (dr + scrolled_past s) * cols s + col).
  { rewrite Hidx. unfold iadd, imul.
    rewrite (wrap_small (dr + scrolled_past s))
      by (unfold int_range, INT_MIN, INT_MAX; nia).
    rewrite (wrap_small ((dr + scrolled_past s) * cols s))
      by (unfold int_range, INT_MIN, INT_MAX; nia).
    apply wrap_small. unfold int_range, INT_MIN, INT_MAX. nia. }
  rewrite (entry_position s idx 0 0 Hl Hc) by (unfold INT_MAX; nia).
  eexists _, _. split; [reflexivity|].
  assert (Hq : idx ÷ cols s = dr + scrolled_past s)
    by (rewrite Hval; apply quot_mul_add; lia).
  assert (Hr : Z.rem idx (cols s) = col)
    by (rewrite Hval; apply rem_mul_add; lia).
  rewrite Hq, Hr.
  assert (Hdrv : dr + scrolled_past s - scrolled_past s = dr) by lia.
  assert (Hdc : 0 <= dr * cell_height s <= y - 140) by lia.
  assert (Hvh : dr <= dr * cell_height s) by (clear - Hdr Hch; nia).
  rewrite entry_y_exact;
    rewrite ?Hdrv; try (unfold int_range, INT_MIN, INT_MAX; lia).
  unfold display_row_of. rewrite Hq, Hdrv.
  split; [lia|]. split; [lia|]. lia.
Qed.

Lemma X8_selected_cell_contains_click_witness :
  (derived_layout (set_num_entries 50 xl_800x600) /\
   1 <= cols (set_num_entries 50 xl_800x600) /\ int_range 145 /\
   0 <= scrolled_past (set_num_entries 50 xl_800x600) /\
   (scrolled_past (set_num_entries 50 xl_800x600)
    + visible_rows (set_num_entries 50 xl_800x600))
   * cols (set_num_entries 50 xl_800x600) <= INT_MAX) /\
  exists x1 y1,
    xlunch_native_calculate_entry_position
      (Some (set_num_entries 50 xl_800x600)) 1 (Some 0) (Some 0)
      = Ret (Some x1, Some y1) /\
    x1 - 20 <= 110 < x1 - 20 + cell_width (set_num_entries 50 xl_800x600) /\
    y1 <= 145 < y1 + cell_height (set_num_entries 50 xl_800x600) /\
    0 <= display_row_of (set_num_entries 50 xl_800x600) 1
      < visible_rows (set_num_entries 50 xl_800x600).
Proof.
  assert (Hl : derived_layout (set_num_entries 50 xl_800x600)).
  { unfold derived_layout, INT_MAX. cbn. repeat split; lia. }
  assert (Hc : 1 <= cols (set_num_entries 50 xl_800x600)) by (cbn; lia).
  assert (Hy : int_range 145) by (unfold int_range, INT_MIN, INT_MAX; lia).
  assert (Hs : 0 <= scrolled_past (set_num_entries 50 xl_800x600))
    by (cbn; lia).
  assert (Ho : (scrolled_past (set_num_entries 50 xl_800x600)
                + visible_rows (set_num_entries 50 xl_800x600))
               * cols (set_num_entries 50 xl_800x600) <= INT_MAX)
    by (vm_compute; discriminate).
  split; [auto 10|].
  apply (X8_selected_cell_contains_click (set_num_entries 50 xl_800x600)
           0 110 145 []
           (mkDispatched 0 (Some (set_num_entries 50 xl_800x600)) (Some 1) [])
           1 Hl Hc Hy Hs Ho).
  - reflexivity.
  - reflexivity.
  - discriminate.
Defined.

(** ** Where entries are placed *)

Lemma small_factor d ch :
  61 <= ch -> int_range (140 + d * ch) -> int_range d.
Proof. unfold int_range, INT_MIN, INT_MAX. intros Hch H. nia. Qed.

(** X9. In a derived layout with at least one column every entry's icon
    lies horizontally inside the window, at least 20 pixels from the left
    edge and 40 from the right; and two entries whose positions are computed
    without [int] overflow and coincide are the same entry. *)
Theorem X9_entry_positions s i1 i2 :
  derived_layout s -> 1 <= cols s ->
  0 <= i1 <= INT_MAX -> 0 <= i2 <= INT_MAX ->
  (exists x y,
     xlunch_native_calculate_entry_position (Some s) i1 (Some 0) (Some 0)
       = Ret (Some x, Some y) /\
     20 <= x /\ x + icon_size s <= width s - 40) /\
  (int_range (140 + display_row_of s i1 * cell_height s) ->
   int_range (140 + display_row_of s i2 * cell_height s) ->
   xlunch_native_calculate_entry_position (Some s) i1 (Some 0) (Some 0)
   = xlunch_native_calculate_entry_position (Some s) i2 (Some 0) (Some 0) ->
   i1 = i2).
Proof.
  intros Hl Hc H1 H2.
  destruct (derived_layout_facts s Hl Hc) as (Hcw & Hch & Hpad & Hfit & Hh & Hw).
  assert (Hicon : cell_width s = icon_size s + 40)
    by (destruct Hl as (_ & _ & _ & _ & E & _); exact E).
  rewrite !(entry_position s _ 0 0 Hl Hc) by assumption.
  pose proof (Z.rem_bound_pos i1 (cols s) ltac:(lia) ltac:(lia)) as Hr1.
  pose proof (Z.rem_bound_pos i2 (cols s) ltac:(lia) ltac:(lia)) as Hr2.
  pose proof (Z.quot_rem' i1 (cols s)) as Hq1.
  pose proof (Z.quot_rem' i2 (cols s)) as Hq2.
  split.
  - eexists _, _. split; [reflexivity|].
    split; [nia|].
    assert (Z.rem i1 (cols s) * cell_width s + cell_width s
            <= cols s * cell_width s) by nia.
    lia.
  - intros Hy1 Hy2.
    pose proof (small_factor _ _ (proj1 Hch) Hy1) as Hd1.
    pose proof (small_factor _ _ (proj1 Hch) Hy2) as Hd2.
    unfold display_row_of in *.
    rewrite !entry_y_exact by assumption.
    intros [= Hx Hy].
    assert (Hrem : Z.rem i1 (cols s) = Z.rem i2 (cols s)) by nia.
    assert (Hquot : i1 ÷ cols s = i2 ÷ cols s) by nia.
    rewrite Hq1, Hq2, Hrem, Hquot. reflexivity.
Qed.

Lemma X9_entry_positions_witness :
  (derived_layout xl_800x600 /\ 1 <= cols xl_800x600 /\
   0 <= 13 <= INT_MAX /\ 0 <= 6 <= INT_MAX) /\
  exists x y,
    xlunch_native_calculate_entry_position (Some xl_800x600) 13 (Some 0) (Some 0)
      = Ret (Some x, Some y) /\
    20 <= x /\ x + icon_size xl_800x600 <= width xl_800x600 - 40.
Proof.
  assert (Hl : derived_layout xl_800x600).
  { unfold derived_layout, INT_MAX. cbn. repeat split; lia. }
  assert (Hc : 1 <= cols xl_800x600) by (cbn; lia).
  assert (H1 : 0 <= 13 <= INT_MAX) by (unfold INT_MAX; lia).
  assert (H2 : 0 <= 6 <= INT_MAX) by (unfold INT_MAX; lia).
  split; [auto 10|].
  exact (proj1 (X9_entry_positions xl_800x600 13 6 Hl Hc H1 H2)).
Defined.

(** ** Initialisation *)

(** X10. For a positive [int] window size and icon size, initialisation
    never faults; it returns NULL exactly when malloc or XOpenDisplay fails,
    and otherwise a structure with the derived layout, the header
    rectangles in place, offset 0 (in range), scrolling enabled, no entry,
    both hover flags clear, the dirty flag set, the render buffer present
    exactly when its allocation succeeded and a backdrop exactly when its
    image was allocated.  With an icon size of -40 or -60 a cell dimension
    is 0 and initialisation dies on the division. *)
Theorem X10_init_outcomes env w h icon :
  (0 < w <= INT_MAX -> 0 < h <= INT_MAX -> 0 < icon <= INT_MAX - 60 ->
   (malloc_ok env && display_ok env = false ->
    xlunch_native_init env w h icon = Ret None) /\
   (malloc_ok env && display_ok env = true ->
    exists s,
      xlunch_native_init env w h icon = Ret (Some s) /\
      derived_layout s /\ init_buttons s /\ 0 <= cols s /\ 0 <= rows s /\
      scrolled_past s = 0 /\ scroll_in_range s /\ noscroll s = 0 /\
      entries_count s = 0 /\
      settings_button_hovered s = 0 /\ logo_button_hovered s = 0 /\
      dirty s = 1 /\ render_buffer s = render_buffer_ok env /\
      (background_image s = None <-> background_ok env = false))) /\
  (malloc_ok env = true -> display_ok env = true ->
   xlunch_native_init env w h (-40) = Fault /\
   xlunch_native_init env w h (-60) = Fault).
Proof.
  split.
  - intros Hw Hh Hi. split.
    + intros Hf. unfold xlunch_native_init.
      destruct (malloc_ok env); [|reflexivity].
      destruct (display_ok env); [discriminate|reflexivity].
    + intros Ht. apply andb_true_iff in Ht as [Hm Hd].
      assert (Hex : exists s, xlunch_native_init env w h icon = Ret (Some s)).
      { unfold xlunch_native_init. rewrite Hm, Hd. cbn [negb]. cbv zeta.
        unfold INT_MAX in *. unfold iadd, isub, imul.
        change (20 * 2) with 40. change (wrap 40) with 40.
        rewrite (wrap_small (icon + 40))
          by (unfold int_range, INT_MIN, INT_MAX; lia).
        rewrite (wrap_small (icon + 40 + 20))
          by (unfold int_range, INT_MIN, INT_MAX; lia).
        rewrite !idiv_pos by lia. cbn [obind]. eauto. }
      destruct Hex as [s Hs]. exists s. split; [exact Hs|].
      pose proof (init_derived_layout env w h icon s Hw Hh Hi Hs) as Hl.
      pose proof (init_sets_buttons env w h icon s Hw Hs) as Hb.
      split; [exact Hl|]. split; [exact Hb|].
      destruct Hl as (Hw' & Hh' & Hi' & _ & Hcw & Hch & Hcols & Hrows).
      assert (Hc0 : 0 <= cols s).
      { rewrite Hcols.
        destruct (Z.le_gt_cases 0 (width s - 20)).
        - apply Z.quot_pos; lia.
        - rewrite <- (Z.opp_involutive (width s - 20)).
          rewrite Z.quot_opp_l by lia. rewrite Z.quot_small; lia. }
      assert (Hr0 : 0 <= rows s).
      { rewrite Hrows.
        destruct (Z.le_gt_cases 0 (height s - 20)).
        - apply Z.quot_pos; lia.
        - rewrite <- (Z.opp_involutive (height s - 20)).
          rewrite Z.quot_opp_l by lia. rewrite Z.quot_small; lia. }
      split; [exact Hc0|]. split; [exact Hr0|].
      revert Hs. unfold xlunch_native_init. rewrite Hm, Hd. cbn [negb]. cbv zeta.
      destruct (idiv _ _); cbn [obind]; [|discriminate].
      destruct (idiv _ _); cbn [obind]; [|discriminate].
      intros [= <-]. unfold scroll_in_range.
      cbn [scrolled_past noscroll entries_count settings_button_hovered
           logo_button_hovered dirty render_buffer background_image].
      repeat (split; [first [reflexivity|lia]|]).
      destruct (background_ok env); [|tauto].
      destruct (root_capture env); split; discriminate.
  - intros Hm Hd. unfold xlunch_native_init. rewrite Hm, Hd.
    cbn [negb]. cbv zeta. split.
    + change (-40 ⊞ 20 ⊠ 2) with 0. reflexivity.
    + change (-60 ⊞ 20 ⊠ 2) with (-20). change (-20 ⊞ 20) with 0.
      unfold idiv at 1. cbn [Z.eqb andb].
      rewrite andb_false_r. cbn [obind]. reflexivity.
Qed.

Lemma X10_init_outcomes_witness :
  (0 < 800 <= INT_MAX /\ 0 < 600 <= INT_MAX /\ 0 < 64 <= INT_MAX - 60 /\
   malloc_ok plain_env && display_ok plain_env = true) /\
  exists s,
    xlunch_native_init plain_env 800 600 64 = Ret (Some s) /\
    derived_layout s /\ init_buttons s /\ 0 <= cols s /\ 0 <= rows s /\
    scrolled_past s = 0 /\ scroll_in_range s /\ noscroll s = 0 /\
    entries_count s = 0 /\
    settings_button_hovered s = 0 /\ logo_button_hovered s = 0 /\
    dirty s = 1 /\ render_buffer s = render_buffer_ok plain_env /\
    (background_image s = None <-> background_ok plain_env = false).
Proof.
  assert (H1 : 0 < 800 <= INT_MAX) by (unfold INT_MAX; lia).
  assert (H2 : 0 < 600 <= INT_MAX) by (unfold INT_MAX; lia).
  assert (H3 : 0 < 64 <= INT_MAX - 60) by (unfold INT_MAX; lia).
  assert (H4 : malloc_ok plain_env && display_ok plain_env = true)
    by reflexivity.
  split; [auto|].
  exact (proj2 (proj1 (X10_init_outcomes plain_env 800 600 64) H1 H2 H3) H4).
Defined.

(** ** The backdrop *)

Lemma spec_darken_bounds c :
  0 <= c < 256 -> 0 <= spec_darken c <= c /\ spec_darken c <= 95.
Proof.
  intros Hc. unfold spec_darken. Z.div_mod_to_equations. lia.
Qed.

Lemma red_ignores_alpha p : red_of (Z.land p 0xFFFFFF) = red_of p.
Proof.
  unfold red_of. rewrite !channel_extract by lia.
  change 0xFFFFFF with (Z.ones 24). rewrite Z.land_ones by lia.
  change (2 ^ 24) with 16777216. change (2 ^ 16) with 65536.
  Z.div_mod_to_equations. lia.
Qed.

Lemma green_ignores_alpha p : green_of (Z.land p 0xFFFFFF) = green_of p.
Proof.
  unfold green_of. rewrite !channel_extract by lia.
  change 0xFFFFFF with (Z.ones 24). rewrite Z.land_ones by lia.
  change (2 ^ 24) with 16777216. change (2 ^ 8) with 256.
  Z.div_mod_to_equations. lia.
Qed.

Lemma blue_ignores_alpha p : blue_of (Z.land p 0xFFFFFF) = blue_of p.
Proof.
  unfold blue_of. change 0xFF with (Z.ones 8).
  change 0xFFFFFF with (Z.ones 24). rewrite !Z.land_ones by lia.
  change (2 ^ 24) with 16777216. change (2 ^ 8) with 256.
  Z.div_mod_to_equations. lia.
Qed.

Lemma darken_pixel_dim p :
  dim_opaque (darken_pixel p) /\
  red_of (darken_pixel p) <= red_of p /\
  green_of (darken_pixel p) <= green_of p /\
  blue_of (darken_pixel p) <= blue_of p.
Proof.
  destruct (darken_pixel_channels p) as (Ha & Hr & Hg & Hb).
  pose proof (channel_range p 16 ltac:(lia)) as Rr.
  pose proof (channel_range p 8 ltac:(lia)) as Rg.
  pose proof (channel_range p 0 ltac:(lia)) as Rb.
  rewrite Z.shiftr_0_r in Rb.
  pose proof (spec_darken_bounds _ Rr). pose proof (spec_darken_bounds _ Rg).
  pose proof (spec_darken_bounds _ Rb).
  unfold dim_opaque. rewrite Ha, Hr, Hg, Hb.
  unfold red_of, green_of, blue_of. repeat split; lia.
Qed.

(** X11. Darkening never brightens: every channel of the darkened pixel is
    at most the channel it came from and at most 95; it reads only the low
    24 bits of the captured pixel, so the captured alpha byte has no
    influence.  Every backdrop that initialisation stores, whether darkened
    from a capture that filled the image or filled with the fallback colour,
    has as many pixels as the window and consists of opaque pixels with no
    channel above 95. *)
Theorem X11_backdrop_dim_and_opaque :
  (forall p,
     dim_opaque (darken_pixel p) /\
     red_of (darken_pixel p) <= red_of p /\
     green_of (darken_pixel p) <= green_of p /\
     blue_of (darken_pixel p) <= blue_of p /\
     darken_pixel (Z.land p 0xFFFFFF) = darken_pixel p) /\
  (forall env w h icon s px,
     xlunch_native_init env w h icon = Ret (Some s) ->
     background_image s = Some px ->
     (forall direct, root_capture env = Some direct ->
                     w ⊠ h = Z.of_nat (length direct)) ->
     Z.of_nat (length px) = Z.max 0 (w ⊠ h) /\
     Forall dim_opaque px).
Proof.
  split.
  - intros p. destruct (darken_pixel_dim p) as (H1 & H2 & H3 & H4).
    repeat (split; [assumption|]).
    unfold darken_pixel.
    fold (red_of (Z.land p 0xFFFFFF)) (green_of (Z.land p 0xFFFFFF))
         (blue_of (Z.land p 0xFFFFFF)) (red_of p) (green_of p) (blue_of p).
    now rewrite red_ignores_alpha, green_ignores_alpha, blue_ignores_alpha.
  - intros env w h icon s px Hinit Hbg Hcap.
    unfold xlunch_native_init in Hinit.
    destruct (negb (malloc_ok env)); [discriminate|].
    destruct (negb (display_ok env)); [discriminate|].
    cbv zeta in Hinit.
    destruct (idiv _ _); cbn [obind] in Hinit; [|discriminate].
    destruct (idiv _ _); cbn [obind] in Hinit; [|discriminate].
    injection Hinit as <-. cbn [background_image] in Hbg.
    destruct (background_ok env); [|discriminate].
    destruct (root_capture env) as [direct|] eqn:Hrc.
    + specialize (Hcap direct eq_refl).
      injection Hbg as <-. rewrite darken_backdrop_map by assumption.
      rewrite length_fmap. split; [lia|].
      apply Forall_fmap, Forall_forall. intros p _. apply darken_pixel_dim.
    + injection Hbg as <-. rewrite length_replicate. split; [lia|].
      apply Forall_replicate. vm_compute. repeat split; discriminate.
Qed.

Lemma X11_backdrop_dim_and_opaque_witness :
  (xlunch_native_init tiny_env 2 1 64
   = Ret (Some (mkXLunchNative 2 1 64 0 0 104 124 20 0
                  (Some (darken_pixel <$> [0x000080FF; 0xFFFFFFFF]))
                  0 0 (-148) 30 140 52 45 10 245 100 0 0 0
                  0x3CFFFFFF 0x70FFFFFF 0 true 1))) /\
  Forall dim_opaque (darken_pixel <$> [0x000080FF; 0xFFFFFFFF]).
Proof.
  assert (H : xlunch_native_init tiny_env 2 1 64
   = Ret (Some (mkXLunchNative 2 1 64 0 0 104 124 20 0
                  (Some (darken_pixel <$> [0x000080FF; 0xFFFFFFFF]))
                  0 0 (-148) 30 140 52 45 10 245 100 0 0 0
                  0x3CFFFFFF 0x70FFFFFF 0 true 1))) by reflexivity.
  split; [exact H|].
  assert (Hcap : forall direct, root_capture tiny_env = Some direct ->
                                2 ⊠ 1 = Z.of_nat (length direct))
    by (intros direct [= <-]; reflexivity).
  exact (proj2 (proj2 X11_backdrop_dim_and_opaque tiny_env 2 1 64 _ _
                  H eq_refl Hcap)).
Defined.

(** ** Icons that do not load *)

Lemma category_color_range abi path : 0 <= category_color abi path < 2 ^ 24.
Proof.
  unfold category_color. cbv zeta. change (2 ^ 24) with 16777216.
  repeat match goal with
    | |- context [if ?c then _ else _] => destruct c; [lia|]
    end.
  pose proof (Z.mod_pos_bound (path_hash abi 5381 path) 5 ltac:(lia)). lia.
Qed.

Lemma ulong_small abi z : 0 <= z < 2 ^ 32 -> ulong abi z = z.
Proof.
  intros H. unfold ulong, long_bits. apply Z.mod_small.
  destruct (long_width abi); lia.
Qed.

(** X12. On every platform, whatever the sign of [char] and the width of
    [unsigned long], the placeholder colour of a path is one of thirteen
    fixed colours, the eight category colours or the five default blues; in
    particular it is a 24-bit RGB value. *)
Theorem X12_placeholder_palette abi path :
  In (category_color abi path) placeholder_palette /\
  0 <= category_color abi path < 2 ^ 24.
Proof.
  assert (Hin : In (category_color abi path) placeholder_palette).
  { unfold category_color, placeholder_palette. cbv zeta.
    repeat match goal with
      | |- context [if ?c then _ else _] => destruct c; [cbn; tauto|]
      end.
    pose proof (Z.mod_pos_bound (path_hash abi 5381 path) 5 ltac:(lia)) as Hm.
    assert (Hcases : path_hash abi 5381 path mod 5 = 0 \/
                     path_hash abi 5381 path mod 5 = 1 \/
                     path_hash abi 5381 path mod 5 = 2 \/
                     path_hash abi 5381 path mod 5 = 3 \/
                     path_hash abi 5381 path mod 5 = 4) by lia.
    destruct Hcases as [->|[->|[->|[->| ->]]]]; cbn; tauto. }
  split; [exact Hin|].
  revert Hin. generalize (category_color abi path). intros c Hin.
  unfold placeholder_palette in Hin. cbn in Hin.
  change (2 ^ 24) with 16777216.
  repeat (destruct Hin as [<-|Hin]; [lia|]). contradiction.
Qed.

(** X13. On every platform, an icon whose image does not load is drawn as a
    tile of exactly eight Xlib primitives, all of them on the visible window
    and none on the render buffer, whether or not a render buffer is
    present.  The first, the body of the tile, is a filled rectangle in the
    placeholder colour of the path; the seventh, the highlight, is a line in
    that colour plus 0x333333, a sum that never wraps.  The call leaves the
    foreground of the graphics context black, and the rectangle functions
    never set it: a rectangle drawn next comes out black whatever the
    foreground was before the icon.  With a NULL path nothing is drawn. *)
Theorem X13_placeholder_on_window abi s x y wd ht path w :
  (loadable w path = false ->
   exists ops,
     length ops = 8%nat /\
     drawn (xlunch_native_draw_icon abi (Some s) x y wd ht (Some path) w)
       = drawn w ++ (pair Window <$> ops) /\
     window_ops (xlunch_native_draw_icon abi (Some s) x y wd ht (Some path) w)
       = window_ops w ++ ops /\
     render_buffer_ops
       (xlunch_native_draw_icon abi (Some s) x y wd ht (Some path) w)
       = render_buffer_ops w /\
     ops !! 0%nat =
       Some (FillRectangle (category_color abi path) (x ⊞ 8 ⊞ 6) (y ⊞ 8)
               (wd ⊟ 8 ⊠ 2 ⊟ 2 ⊠ 6) (ht ⊟ 8 ⊠ 2)) /\
     ops !! 6%nat =
       Some (DrawLine (category_color abi path + 0x333333)
               (x ⊞ 8 ⊞ 6) (y ⊞ 8 ⊞ 1)
               (x ⊞ 8 ⊞ (wd ⊟ 8 ⊠ 2) ⊟ 6) (y ⊞ 8 ⊞ 1)) /\
     gc_foreground
       (xlunch_native_draw_icon abi (Some s) x y wd ht (Some path) w) = 0 /\
     forall rx ry rw rh filled,
       window_ops
         (xlunch_native_draw_rect (Some s) rx ry rw rh filled
            (xlunch_native_draw_icon abi (Some s) x y wd ht (Some path) w))
       = window_ops w ++ ops ++
         [if truthy filled then FillRectangle 0 rx ry rw rh
          else DrawRectangle 0 rx ry rw rh]) /\
  xlunch_native_draw_icon abi (Some s) x y wd ht None w = w.
Proof.
  split; [|reflexivity].
  intros Hload.
  assert (Hu : ulong abi (category_color abi path + 0x333333)
               = category_color abi path + 0x333333).
  { apply ulong_small. pose proof (category_color_range abi path). lia. }
  set (w1 := xlunch_native_draw_icon abi (Some s) x y wd ht (Some path) w).
  assert (H : exists ops, length ops = 8%nat /\
            drawn w1 = drawn w ++ (pair Window <$> ops) /\
            ops !! 0%nat =
              Some (FillRectangle (category_color abi path) (x ⊞ 8 ⊞ 6)
                      (y ⊞ 8) (wd ⊟ 8 ⊠ 2 ⊟ 2 ⊠ 6) (ht ⊟ 8 ⊠ 2)) /\
            ops !! 6%nat =
              Some (DrawLine (category_color abi path + 0x333333)
                      (x ⊞ 8 ⊞ 6) (y ⊞ 8 ⊞ 1)
                      (x ⊞ 8 ⊞ (wd ⊟ 8 ⊠ 2) ⊟ 6) (y ⊞ 8 ⊞ 1)) /\
            gc_foreground w1 = 0).
  { subst w1. unfold xlunch_native_draw_icon. rewrite Hload. cbv zeta.
    rewrite Hu. cbn -[iadd isub imul category_color].
    eexists [_; _; _; _; _; _; _; _]. split; [reflexivity|].
    rewrite <- !app_assoc. repeat split; reflexivity. }
  destruct H as (ops & Hlen & Hd & Hbody & Hline & Hg).
  assert (Hw : window_ops w1 = window_ops w ++ ops)
    by (apply window_ops_app; exact Hd).
  exists ops.
  split; [exact Hlen|]. split; [exact Hd|]. split; [exact Hw|].
  split; [exact (proj2 (window_only_ops w w1 (ex_intro _ ops Hd)))|].
  split; [exact Hbody|]. split; [exact Hline|]. split; [exact Hg|].
  intros rx ry rw rh filled. unfold xlunch_native_draw_rect.
  destruct (truthy filled);
    unfold window_ops, XFillRectangle, XDrawRectangle;
    rewrite ops_on_emit, Hg; fold (window_ops w1); rewrite Hw;
    destruct (decide (Window = Window)); [|congruence| |congruence];
    now rewrite <- app_assoc.
Qed.

Lemma X13_placeholder_on_window_witness :
  loadable blank_world cafe_path = false /\
  exists ops,
    length ops = 8%nat /\
    window_ops (xlunch_native_draw_icon x86_64 (Some xl_800x600) 20 140 64 64
                  (Some cafe_path) blank_world)
      = window_ops blank_world ++ ops /\
    render_buffer_ops
      (xlunch_native_draw_icon x86_64 (Some xl_800x600) 20 140 64 64
         (Some cafe_path) blank_world)
      = render_buffer_ops blank_world /\
    ops !! 0%nat =
      Some (FillRectangle (category_color x86_64 cafe_path)
              (20 ⊞ 8 ⊞ 6) (140 ⊞ 8) (64 ⊟ 8 ⊠ 2 ⊟ 2 ⊠ 6) (64 ⊟ 8 ⊠ 2)).
Proof.
  assert (H : loadable blank_world cafe_path = false) by reflexivity.
  split; [exact H|].
  destruct (proj1 (X13_placeholder_on_window x86_64 xl_800x600 20 140 64 64
                     cafe_path blank_world) H)
    as (ops & Hl & _ & Hw & Hb & Hbody & _).
  exists ops. auto.
Defined.

(** ** Hover *)

(** X14. Hover processing is a function of the pointer position alone: the
    flags it leaves do not depend on the flags it found, processing the
    same position twice equals processing it once, and it changes nothing
    but the two flags.  A pointer enter or leave event clears both flags and
    changes nothing else. *)
Theorem X14_hover_depends_on_position s a b mx my :
  xlunch_native_handle_hover (Some (set_hover a b s)) mx my
    = xlunch_native_handle_hover (Some s) mx my /\
  (exists h1 h2,
     xlunch_native_handle_hover (Some s) mx my = Some (set_hover h1 h2 s) /\
     xlunch_native_handle_hover (Some (set_hover h1 h2 s)) mx my
       = Some (set_hover h1 h2 s)) /\
  (forall sel0 rest ev,
     ev = EnterNotify \/ ev = LeaveNotify ->
     xlunch_native_handle_events (Some s) (Some sel0) (ev :: rest)
     = Ret (mkDispatched 1 (Some (set_hover 0 0 s)) (Some (-1)) rest)).
Proof.
  assert (Hcalc : forall a' b',
    xlunch_native_handle_hover (Some (set_hover a' b' s)) mx my =
    Some (set_hover
            (of_bool (xlunch_native_check_button_hover (Some s) mx my =? 1))
            (of_bool (xlunch_native_check_button_hover (Some s) mx my =? 2))
            s)).
  { intros a' b'. unfold xlunch_native_handle_hover.
    cbn [set_hover settings_button_hovered logo_button_hovered].
    change (xlunch_native_check_button_hover (Some (set_hover 0 0 _)) mx my)
      with (xlunch_native_check_button_hover (Some s) mx my).
    destruct (check_button_hover_cases s mx my)
      as [[_ E]|[[_ [_ E]]|[_ [_ E]]]]; rewrite E; reflexivity. }
  assert (Hs : xlunch_native_handle_hover (Some s) mx my =
    Some (set_hover
            (of_bool (xlunch_native_check_button_hover (Some s) mx my =? 1))
            (of_bool (xlunch_native_check_button_hover (Some s) mx my =? 2))
            s)).
  { rewrite <- (Hcalc (settings_button_hovered s) (logo_button_hovered s)).
    now destruct s. }
  split; [now rewrite Hcalc, Hs|]. split.
  - eexists _, _. split; [exact Hs|]. apply Hcalc.
  - intros sel0 rest ev [->| ->]; reflexivity.
Qed.

Lemma X14_hover_depends_on_position_witness :
  (EnterNotify = EnterNotify \/ EnterNotify = LeaveNotify) /\
  xlunch_native_handle_events (Some (set_hover 1 0 xl_800x600)) (Some 0)
    [EnterNotify]
  = Ret (mkDispatched 1 (Some (set_hover 0 0 (set_hover 1 0 xl_800x600)))
           (Some (-1)) []).
Proof.
  assert (H : EnterNotify = EnterNotify \/ EnterNotify = LeaveNotify)
    by (left; reflexivity).
  split; [exact H|].
  exact (proj2 (proj2 (X14_hover_depends_on_position
                         (set_hover 1 0 xl_800x600) 0 0 0 0))
           0 [] EnterNotify H).
Defined.

(** ** Division faults *)

Lemma idiv_fault_iff a b :
  idiv a b = Fault <-> b = 0 \/ (a = INT_MIN /\ b = -1).
Proof.
  unfold idiv.
  destruct (Z.eqb_spec b 0); [tauto|].
  destruct (Z.eqb_spec a INT_MIN); destruct (Z.eqb_spec b (-1)); cbn [andb];
    split; try tauto; try discriminate; intros [?|[? ?]]; congruence.
Qed.

(** X15. Where the code dies on a division.  The scroll setter faults
    exactly when scrolling is enabled, the request differs from the current
    offset and the column count is 0 (or [entries_count - 1] is INT_MIN and
    the column count -1); a NULL structure, disabled scrolling or an equal
    request return before the division.  The layout function faults under
    the same condition on the column count when all three pointers are set,
    and with a NULL out-parameter it returns without computing anything. *)
Theorem X15_division_faults s n index :
  (xlunch_native_set_scroll_level (Some s) n = Fault <->
   noscroll s = 0 /\ n <> scrolled_past s /\
   (cols s = 0 \/ (entries_count s ⊟ 1 = INT_MIN /\ cols s = -1))) /\
  xlunch_native_set_scroll_level None n = Ret (0, None) /\
  (forall x0 y0,
     xlunch_native_calculate_entry_position (Some s) index (Some x0) (Some y0)
       = Fault <->
     cols s = 0 \/ (index = INT_MIN /\ cols s = -1)) /\
  (forall x y, x = None \/ y = None ->
     xlunch_native_calculate_entry_position (Some s) index x y = Ret (x, y)).
Proof.
  split; [|split; [reflexivity|split]].
  - rewrite set_scroll_level_cases. unfold truthy.
    destruct (Z.eqb_spec (noscroll s) 0) as [Hno|Hno];
      destruct (Z.eqb_spec n (scrolled_past s)) as [Hn|Hn]; cbn [negb orb];
      try (split; [discriminate|tauto]).
    destruct (idiv (entries_count s ⊟ 1) (cols s)) eqn:E; cbn [obind].
    + split; [discriminate|]. intros (_ & _ & H).
      apply idiv_fault_iff in H. congruence.
    + apply idiv_fault_iff in E. tauto.
  - intros x0 y0. unfold xlunch_native_calculate_entry_position.
    destruct (idiv index (cols s)) eqn:E; cbn [obind].
    + assert (Hm : imod index (cols s) = Ret (Z.rem index (cols s))).
      { revert E. unfold idiv, imod.
        destruct (cols s =? 0); [discriminate|].
        destruct ((index =? INT_MIN) && (cols s =? -1)); [discriminate|].
        reflexivity. }
      rewrite Hm. cbn [obind]. split; [discriminate|].
      intros H. apply idiv_fault_iff in H. congruence.
    + apply idiv_fault_iff in E. tauto.
  - intros x y [-> | ->]; [reflexivity|]. now destruct x.
Qed.

Lemma X15_division_faults_witness :
  ((None : ptr Z) = None \/ Some 0 = (None : ptr Z)) /\
  xlunch_native_calculate_entry_position (Some xl_800x600) 5 None (Some 0)
  = Ret (None, Some 0).
Proof.
  assert (H : (None : ptr Z) = None \/ Some 0 = (None : ptr Z))
    by (left; reflexivity).
  split; [exact H|].
  exact (proj2 (proj2 (proj2 (X15_division_faults xl_800x600 0 5)))
           None (Some 0) H).
Defined.

(** ** Capturing the desktop *)

Lemma for_loop_ext {S} (cond1 cond2 : Z -> bool) (body1 body2 : Z -> S -> S) :
  (forall i, cond1 i = cond2 i) -> (forall i st, body1 i st = body2 i st) ->
  forall todo i st,
    for_loop todo i cond1 body1 st = for_loop todo i cond2 body2 st.
Proof.
  intros Hc Hb. induction todo as [|k IH]; intros i st; cbn [for_loop];
    [reflexivity|].
  rewrite Hc, Hb, IH. reflexivity.
Qed.

Lemma for_loop_id {S} (cond : Z -> bool) (body : Z -> S -> S) :
  (forall i st, body i st = st) ->
  forall todo i st, for_loop todo i cond body st = st.
Proof.
  intros Hb. induction todo as [|k IH]; intros i st; cbn [for_loop];
    [reflexivity|].
  destruct (cond i); [|reflexivity]. now rewrite IH, Hb.
Qed.

(** A loop over [0, n) runs its body on an initial segment [i, stop): the
    condition holds on the segment and fails at [stop] unless [stop = n]. *)
Lemma for_loop_stops {S} (cond : Z -> bool) (body : Z -> S -> S)
    (Inv : Z -> S -> Prop) n :
  0 <= n <= INT_MAX ->
  (forall i, cond i = true -> i < n) ->
  (forall j st, 0 <= j < n -> cond j = true -> Inv j st ->
                Inv (j + 1) (body j st)) ->
  forall todo i st,
    0 <= i <= n -> todo = Z.to_nat (n - i) -> Inv i st ->
    exists stop,
      i <= stop <= n /\ (stop < n -> cond stop = false) /\
      (forall j, i <= j < stop -> cond j = true) /\
      Inv stop (for_loop todo i cond body st).
Proof.
  intros Hn Hcond Hstep. induction todo as [|k IH]; intros i st Hi Htodo Hinv.
  - exists i. cbn [for_loop]. split; [lia|]. split; [intros Hlt; lia|].
    split; [intros j Hj; lia|exact Hinv].
  - cbn [for_loop]. destruct (cond i) eqn:Hci.
    + pose proof (Hcond i Hci) as Hlt.
      assert (Hw : i ⊞ 1 = i + 1).
      { apply wrap_small. unfold int_range, INT_MIN, INT_MAX in *. lia. }
      rewrite Hw.
      destruct (IH (i + 1) (body i st) ltac:(lia) ltac:(lia)
                  (Hstep i st ltac:(lia) Hci Hinv))
        as (stop & Hs & Hf & Hall & Hres).
      exists stop. split; [lia|]. split; [exact Hf|]. split; [|exact Hres].
      intros j Hj. destruct (Z.eq_dec j i) as [->|]; [assumption|].
      apply Hall. lia.
    + exists i. split; [lia|]. split; [intros _; exact Hci|].
      split; [intros j Hj; lia|exact Hinv].
Qed.

(** Row-major indices of distinct cells are distinct. *)
Lemma cell_index_inj W x y x' y' :
  0 <= x < W -> 0 <= x' < W -> 0 <= y -> 0 <= y' ->
  Z.to_nat (y * W + x) = Z.to_nat (y' * W + x') -> x = x' /\ y = y'.
Proof.
  intros Hx Hx' Hy Hy' E.
  assert (E' : y * W + x = y' * W + x') by nia.
  destruct (Z.lt_trichotomy y y') as [H|[H|H]]; [nia| |nia].
  subst y'. lia.
Qed.

Lemma cell_index_bound W H x y :
  0 <= x < W -> 0 <= y < H -> 0 <= y * W + x < W * H.
Proof. intros Hx Hy. nia. Qed.

Lemma store_lookup W H x y v x' y' (d : list Z) :
  W * H <= INT_MAX -> length d = Z.to_nat (W * H) ->
  0 <= x < W -> 0 <= y < H -> 0 <= x' < W -> 0 <= y' < H ->
  length (store (y ⊠ W ⊞ x) v d) = length d /\
  store (y ⊠ W ⊞ x) v d !! Z.to_nat (y' * W + x')
  = if (y' =? y) && (x' =? x) then Some v else d !! Z.to_nat (y' * W + x').
Proof.
  intros Hov Hlen Hx Hy Hx' Hy'.
  pose proof (cell_index_bound W H x y Hx Hy) as Hb.
  assert (Hidx : y ⊠ W ⊞ x = y * W + x).
  { unfold iadd, imul, INT_MAX in *.
    rewrite (wrap_small (y * W)) by (unfold int_range, INT_MIN, INT_MAX; nia).
    apply wrap_small. unfold int_range, INT_MIN, INT_MAX. lia. }
  rewrite Hidx. unfold store.
  destruct (Z.leb_spec 0 (y * W + x)); [|lia].
  split; [apply length_insert|].
  destruct (Z.eqb_spec y' y) as [->|Hny]; cbn [andb].
  - destruct (Z.eqb_spec x' x) as [->|Hnx].
    + apply list_lookup_insert_eq. lia.
    + apply list_lookup_insert_ne. intros E.
      apply (cell_index_inj W) in E; lia.
  - apply list_lookup_insert_ne. intros E.
    apply (cell_index_inj W) in E; lia.
Qed.

(** One row of a copy loop: the cells of row [y] whose column passes the
    test are written, every other cell of the buffer is left alone. *)
Lemma fill_row (cx : Z -> bool) (v : Z -> Z) W H y (d0 : list Z) :
  0 <= W -> W * H <= INT_MAX -> length d0 = Z.to_nat (W * H) ->
  0 <= y < H ->
  (forall a b, 0 <= a <= b -> b < W -> cx b = true -> cx a = true) ->
  length (for_loop (Z.to_nat W) 0 (fun x => (x <? W) && cx x)
            (fun x d => store (y ⊠ W ⊞ x) (v x) d) d0) = length d0 /\
  forall x' y', 0 <= x' < W -> 0 <= y' < H ->
    for_loop (Z.to_nat W) 0 (fun x => (x <? W) && cx x)
      (fun x d => store (y ⊠ W ⊞ x) (v x) d) d0 !! Z.to_nat (y' * W + x')
    = if (y' =? y) && cx x' then Some (v x')
      else d0 !! Z.to_nat (y' * W + x').
Proof.
  intros HW Hov Hlen Hy Hanti.
  assert (HWmax : W <= INT_MAX) by (unfold INT_MAX in *; nia).
  destruct (for_loop_stops (fun x => (x <? W) && cx x)
              (fun x d => store (y ⊠ W ⊞ x) (v x) d)
              (fun i d => length d = length d0 /\
                 forall x' y', 0 <= x' < W -> 0 <= y' < H ->
                   d !! Z.to_nat (y' * W + x')
                   = if (y' =? y) && (x' <? i) then Some (v x')
                     else d0 !! Z.to_nat (y' * W + x'))
              W ltac:(lia)) with (todo := Z.to_nat W) (i := 0) (st := d0)
    as (stop & Hs & Hf & Hall & Hlen' & Hres).
  - intros i Hi. apply andb_true_iff in Hi as [Hi _]. now apply Z.ltb_lt in Hi.
  - intros j d Hj _ [Hl Hd].
    split.
    + rewrite <- Hl.
      apply (store_lookup W H j y (v j) j y d Hov); try lia.
    + intros x' y' Hx' Hy'.
      destruct (store_lookup W H j y (v j) x' y' d Hov ltac:(lia) Hj Hy Hx' Hy')
        as [_ ->].
      rewrite (Hd x' y' Hx' Hy').
      destruct (Z.eqb_spec y' y); cbn [andb]; [|reflexivity].
      destruct (Z.eqb_spec x' j) as [->|Hne].
      * destruct (Z.ltb_spec j (j + 1)); [reflexivity|lia].
      * destruct (Z.ltb_spec x' j); destruct (Z.ltb_spec x' (j + 1));
          try reflexivity; lia.
  - lia.
  - f_equal. lia.
  - split; [reflexivity|]. intros x' y' Hx' Hy'.
    destruct (Z.ltb_spec x' 0); [lia|]. now rewrite andb_false_r.
  - split; [exact Hlen'|]. intros x' y' Hx' Hy'.
    rewrite (Hres x' y' Hx' Hy').
    destruct (Z.eqb_spec y' y); cbn [andb]; [|reflexivity].
    destruct (Z.ltb_spec x' stop) as [Hlt|Hge].
    + specialize (Hall x' ltac:(lia)).
      apply andb_true_iff in Hall as [_ ->]. reflexivity.
    + specialize (Hf ltac:(lia)). apply andb_false_iff in Hf as [Hf|Hf].
      * apply Z.ltb_ge in Hf. lia.
      * destruct (cx x') eqn:E; [|reflexivity].
        rewrite (Hanti stop x' ltac:(lia) ltac:(lia) E) in Hf. discriminate.
Qed.

(** The two nested copy loops: a cell is written exactly when its row and
    its column pass their tests, and nothing else in the buffer changes. *)
Lemma fill_grid (cx cy : Z -> bool) (v : Z -> Z -> Z) W H (d0 : list Z) :
  0 <= W -> 0 <= H -> W * H <= INT_MAX -> length d0 = Z.to_nat (W * H) ->
  (forall a b, 0 <= a <= b -> b < W -> cx b = true -> cx a = true) ->
  (forall a b, 0 <= a <= b -> b < H -> cy b = true -> cy a = true) ->
  length (for_loop (Z.to_nat H) 0 (fun y => (y <? H) && cy y)
            (fun y d =>
               for_loop (Z.to_nat W) 0 (fun x => (x <? W) && cx x)
                 (fun x d => store (y ⊠ W ⊞ x) (v x y) d) d) d0)
  = length d0 /\
  forall x' y', 0 <= x' < W -> 0 <= y' < H ->
    for_loop (Z.to_nat H) 0 (fun y => (y <? H) && cy y)
      (fun y d =>
         for_loop (Z.to_nat W) 0 (fun x => (x <? W) && cx x)
           (fun x d => store (y ⊠ W ⊞ x) (v x y) d) d) d0
      !! Z.to_nat (y' * W + x')
    = if cy y' && cx x' then Some (v x' y')
      else d0 !! Z.to_nat (y' * W + x').
Proof.
  intros HW HH Hov Hlen Hax Hay.
  destruct (Z.eq_dec W 0) as [W0|W0].
  { subst W. split; [|intros; lia].
    now rewrite for_loop_id. }
  assert (HHmax : H <= INT_MAX) by (unfold INT_MAX in *; nia).
  destruct (for_loop_stops (fun y => (y <? H) && cy y)
              (fun y d =>
                 for_loop (Z.to_nat W) 0 (fun x => (x <? W) && cx x)
                   (fun x d => store (y ⊠ W ⊞ x) (v x y) d) d)
              (fun i d => length d = length d0 /\
                 forall x' y', 0 <= x' < W -> 0 <= y' < H ->
                   d !! Z.to_nat (y' * W + x')
                   = if (y' <? i) && cx x' then Some (v x' y')
                     else d0 !! Z.to_nat (y' * W + x'))
              H ltac:(lia)) with (todo := Z.to_nat H) (i := 0) (st := d0)
    as (stop & Hs & Hf & Hall & Hlen' & Hres).
  - intros i Hi. apply andb_true_iff in Hi as [Hi _]. now apply Z.ltb_lt in Hi.
  - intros j d Hj _ [Hl Hd].
    destruct (fill_row cx (fun x => v x j) W H j d HW Hov
                ltac:(congruence) Hj Hax) as [Hl1 Hd1].
    split; [congruence|].
    intros x' y' Hx' Hy'. rewrite (Hd1 x' y' Hx' Hy'), (Hd x' y' Hx' Hy').
    destruct (Z.eqb_spec y' j) as [->|Hne].
    + destruct (Z.ltb_spec j (j + 1)); [|lia].
      destruct (Z.ltb_spec j j); [lia|]. cbn [andb].
      now destruct (cx x').
    + cbn [andb].
      destruct (Z.ltb_spec y' j); destruct (Z.ltb_spec y' (j + 1));
        try reflexivity; lia.
  - lia.
  - f_equal. lia.
  - split; [reflexivity|]. intros x' y' Hx' Hy'.
    destruct (Z.ltb_spec y' 0); [lia|]. reflexivity.
  - split; [exact Hlen'|]. intros x' y' Hx' Hy'.
    rewrite (Hres x' y' Hx' Hy').
    destruct (Z.ltb_spec y' stop) as [Hlt|Hge].
    + specialize (Hall y' ltac:(lia)).
      apply andb_true_iff in Hall as [_ ->]. reflexivity.
    + specialize (Hf ltac:(lia)). apply andb_false_iff in Hf as [Hf|Hf].
      * apply Z.ltb_ge in Hf. lia.
      * destruct (cy y') eqn:E; [|reflexivity].
        rewrite (Hay stop y' ltac:(lia) ltac:(lia) E) in Hf. discriminate.
Qed.

(** X16. The main capture copies the window's part of the captured image
    and nothing more.  For a buffer of width * height pixels and a window
    origin that keeps the source coordinates within [int], pixel (x, y) of
    the buffer is written exactly when x + win_x and y + win_y are below the
    image's width and height; it then holds the source pixel (its low 32
    bits) if both source coordinates are non-negative and opaque black
    otherwise.  Every pixel to the right of or below the image keeps what
    the buffer held before: it is not blackened. *)
Theorem X16_cropped_copy img W H win_x win_y (direct : list Z) :
  0 <= W -> 0 <= H -> W * H <= INT_MAX ->
  length direct = Z.to_nat (W * H) ->
  INT_MIN <= win_x -> win_x + W <= INT_MAX ->
  INT_MIN <= win_y -> win_y + H <= INT_MAX ->
  length (copy_cropped img W H win_x win_y direct) = length direct /\
  forall x y, 0 <= x < W -> 0 <= y < H ->
    copy_cropped img W H win_x win_y direct !! Z.to_nat (y * W + x)
    = if (x + win_x <? img_width img) && (y + win_y <? img_height img)
      then Some (if (0 <=? x + win_x) && (0 <=? y + win_y)
                 then Z.land 0xffffffff (XGetPixel img (x + win_x) (y + win_y))
                 else 0xff000000)
      else direct !! Z.to_nat (y * W + x).
Proof.
  intros HW HH Hov Hlen Hx0 Hx1 Hy0 Hy1.
  assert (Hsx : forall x, 0 <= x < W -> x ⊞ win_x = x + win_x).
  { intros x Hx. apply wrap_small.
    unfold int_range, INT_MIN, INT_MAX in *. lia. }
  assert (Hsy : forall y, 0 <= y < H -> y ⊞ win_y = y + win_y).
  { intros y Hy. apply wrap_small.
    unfold int_range, INT_MIN, INT_MAX in *. lia. }
  unfold copy_cropped.
  set (cx := fun x => x ⊞ win_x <? img_width img).
  set (cy := fun y => y ⊞ win_y <? img_height img).
  set (v := fun x y =>
         if (x ⊞ win_x >=? 0) && (y ⊞ win_y >=? 0)
            && (x ⊞ win_x <? img_width img) && (y ⊞ win_y <? img_height img)
         then Z.land 0xffffffff (XGetPixel img (x ⊞ win_x) (y ⊞ win_y))
         else 0xff000000).
  rewrite (for_loop_ext _ (fun y => (y <? H) && cy y) _
             (fun y d =>
                for_loop (Z.to_nat W) 0 (fun x => (x <? W) && cx x)
                  (fun x d => store (y ⊠ W ⊞ x) (v x y) d) d)).
  2:{ reflexivity. }
  2:{ intros y d. apply for_loop_ext; [reflexivity|].
      intros x d'. unfold v. cbv zeta.
      now destruct (_ && _ && _ && _). }
  destruct (fill_grid cx cy v W H direct HW HH Hov Hlen) as [Hl Hd].
  - intros a b Hab Hb. unfold cx. rewrite !Hsx by lia.
    rewrite !Z.ltb_lt. lia.
  - intros a b Hab Hb. unfold cy. rewrite !Hsy by lia.
    rewrite !Z.ltb_lt. lia.
  - split; [exact Hl|]. intros x y Hx Hy. rewrite (Hd x y Hx Hy).
    unfold cx, cy, v. rewrite (Hsx x Hx), (Hsy y Hy).
    rewrite (andb_comm (y + win_y <? _)).
    destruct (x + win_x <? img_width img); cbn [andb]; [|reflexivity].
    destruct (y + win_y <? img_height img); cbn [andb]; [|reflexivity].
    rewrite !andb_true_r.
    rewrite !Z.geb_leb. reflexivity.
Qed.

Lemma X16_cropped_copy_witness :
  (0 <= 2 /\ 0 <= 1 /\ 2 * 1 <= INT_MAX /\
   length [7; 9] = Z.to_nat (2 * 1) /\
   INT_MIN <= 0 /\ 0 + 2 <= INT_MAX /\ INT_MIN <= 0 /\ 0 + 1 <= INT_MAX) /\
  length (copy_cropped (mkXImage 1 1 (fun _ _ => 0x80FF)) 2 1 0 0 [7; 9])
  = length [7; 9].
Proof.
  assert (H : 0 <= 2 /\ 0 <= 1 /\ 2 * 1 <= INT_MAX /\
              length [7; 9] = Z.to_nat (2 * 1) /\
              INT_MIN <= 0 /\ 0 + 2 <= INT_MAX /\ INT_MIN <= 0 /\
              0 + 1 <= INT_MAX).
  { unfold INT_MIN, INT_MAX. repeat split; try lia; reflexivity. }
  split; [exact H|].
  destruct H as (H1 & H2 & H3 & H4 & H5 & H6 & H7 & H8).
  exact (proj1 (X16_cropped_copy (mkXImage 1 1 (fun _ _ => 0x80FF)) 2 1 0 0
                  [7; 9] H1 H2 H3 H4 H5 H6 H7 H8)).
Defined.

(** The capture of a 1x1 image into a 2x1 buffer at the origin: the first
    pixel is copied, the second keeps its old content. *)
Example cropped_copy_leaves_right_pixel :
  copy_cropped (mkXImage 1 1 (fun _ _ => 0x80FF)) 2 1 0 0 [7; 9] = [0x80FF; 9].
Proof. reflexivity. Qed.

Lemma land_24_alpha p : alpha_of (Z.land 0xFFFFFF p) = 0.
Proof.
  unfold alpha_of. rewrite channel_extract by lia.
  rewrite Z.land_comm. change 0xFFFFFF with (Z.ones 24).
  rewrite Z.land_ones by lia. change (2 ^ 24) with 16777216.
  Z.div_mod_to_equations. lia.
Qed.

(** X17. The alternative capture writes every pixel of a width * height
    buffer: pixel (x, y) receives the low 24 bits of the image pixel at
    (center_x + x, center_y + y) when that point is inside the image, so
    its alpha byte is 0, and opaque black 0xFF000000 when it is outside. *)
Theorem X17_centered_copy img W H center_x center_y (direct : list Z) :
  0 <= W -> 0 <= H -> W * H <= INT_MAX ->
  length direct = Z.to_nat (W * H) ->
  length (copy_centered img W H center_x center_y direct) = length direct /\
  forall x y, 0 <= x < W -> 0 <= y < H ->
    exists q,
      copy_centered img W H center_x center_y direct !! Z.to_nat (y * W + x)
        = Some q /\
      ((0 <= center_x ⊞ x < img_width img /\
        0 <= center_y ⊞ y < img_height img /\
        q = Z.land 0xFFFFFF (XGetPixel img (center_x ⊞ x) (center_y ⊞ y)) /\
        alpha_of q = 0) \/
       (~ (0 <= center_x ⊞ x < img_width img /\
           0 <= center_y ⊞ y < img_height img) /\
        q = 0xFF000000)).
Proof.
  intros HW HH Hov Hlen. unfold copy_centered.
  set (v := fun x y =>
         if (center_x ⊞ x >=? 0) && (center_y ⊞ y >=? 0)
            && (center_x ⊞ x <? img_width img)
            && (center_y ⊞ y <? img_height img)
         then Z.land 0xFFFFFF (XGetPixel img (center_x ⊞ x) (center_y ⊞ y))
         else 0xFF000000).
  rewrite (for_loop_ext _ (fun y => (y <? H) && (fun _ => true) y) _
             (fun y d =>
                for_loop (Z.to_nat W) 0
                  (fun x => (x <? W) && (fun _ => true) x)
                  (fun x d => store (y ⊠ W ⊞ x) (v x y) d) d)).
  2:{ intros y. now rewrite andb_true_r. }
  2:{ intros y d. apply for_loop_ext.
      - intros x. now rewrite andb_true_r.
      - intros x d'. unfold v. cbv zeta. now destruct (_ && _ && _ && _). }
  destruct (fill_grid (fun _ => true) (fun _ => true) v W H direct
              HW HH Hov Hlen) as [Hl Hd]; [reflexivity|reflexivity|].
  split; [exact Hl|]. intros x y Hx Hy. rewrite (Hd x y Hx Hy). cbn [andb].
  eexists. split; [reflexivity|]. unfold v.
  destruct (Z.geb_spec (center_x ⊞ x) 0); cbn [andb];
    [|right; split; [lia|reflexivity]].
  destruct (Z.geb_spec (center_y ⊞ y) 0); cbn [andb];
    [|right; split; [lia|reflexivity]].
  destruct (Z.ltb_spec (center_x ⊞ x) (img_width img)); cbn [andb];
    [|right; split; [lia|reflexivity]].
  destruct (Z.ltb_spec (center_y ⊞ y) (img_height img));
    [|right; split; [lia|reflexivity]].
  left. repeat split; try lia. apply land_24_alpha.
Qed.

Lemma X17_centered_copy_witness :
  (0 <= 2 /\ 0 <= 1 /\ 2 * 1 <= INT_MAX /\
   length [7; 9] = Z.to_nat (2 * 1)) /\
  length (copy_centered (mkXImage 1 1 (fun _ _ => 0xFF0080FF)) 2 1 0 0 [7; 9])
  = length [7; 9].
Proof.
  assert (H : 0 <= 2 /\ 0 <= 1 /\ 2 * 1 <= INT_MAX /\
              length [7; 9] = Z.to_nat (2 * 1)).
  { unfold INT_MAX. repeat split; try lia; reflexivity. }
  split; [exact H|]. destruct H as (H1 & H2 & H3 & H4).
  exact (proj1 (X17_centered_copy (mkXImage 1 1 (fun _ _ => 0xFF0080FF))
                  2 1 0 0 [7; 9] H1 H2 H3 H4)).
Defined.

(** X18. The capture chain.  The legacy root property is read only when the
    query of the primary one fails: a successful query that returns no data
    gives no pixmap.  With a NULL structure or buffer the capture returns 0
    and touches nothing.  When a root pixmap is found and its image can be
    read, the capture succeeds with the cropped copy of that image and makes
    no capture of the root window; without a pixmap, a first root capture
    that succeeds is cropped the same way.  In every case the capture
    returns 0 or 1 after at most seven captures of the root window, a 0
    leaves the buffer exactly as it was, and when neither a pixmap image nor
    any root capture is available the result is 0. *)
Theorem X18_capture_chain srv s (d : list Z) tape :
  (prop_XROOTPMAP_ID srv = Some None -> GetRootPixmap srv = 0) /\
  (forall xl direct, xl = None \/ direct = None ->
     xl_get_root_image_to_imlib_data srv xl direct tape = (0, direct, tape)) /\
  (forall img,
     GetRootPixmap srv <> 0 ->
     pixmap_image srv (GetRootPixmap srv) = Some img ->
     xl_get_root_image_to_imlib_data srv (Some s) (Some d) tape
     = (1, Some (copy_cropped img (width s) (height s)
                   (fst (win_origin srv)) (snd (win_origin srv)) d), tape)) /\
  (forall img rest,
     GetRootPixmap srv = 0 -> tape = Some img :: rest ->
     xl_get_root_image_to_imlib_data srv (Some s) (Some d) tape
     = (1, Some (copy_cropped img (width s) (height s)
                   (fst (win_origin srv)) (snd (win_origin srv)) d), rest)) /\
  (exists k,
     (k <= 7)%nat /\
     snd (xl_get_root_image_to_imlib_data srv (Some s) (Some d) tape)
     = drop k tape) /\
  (fst (fst (xl_get_root_image_to_imlib_data srv (Some s) (Some d) tape)) = 0
   \/
   fst (fst (xl_get_root_image_to_imlib_data srv (Some s) (Some d) tape)) = 1)
  /\
  (fst (fst (xl_get_root_image_to_imlib_data srv (Some s) (Some d) tape)) = 0
   -> snd (fst (xl_get_root_image_to_imlib_data srv (Some s) (Some d) tape))
      = Some d) /\
  (Forall (eq None) tape ->
   GetRootPixmap srv = 0 \/ pixmap_image srv (GetRootPixmap srv) = None ->
   fst (fst (xl_get_root_image_to_imlib_data srv (Some s) (Some d) tape)) = 0).
Proof.
  split; [intros H; unfold GetRootPixmap; now rewrite H|].
  split.
  { intros xl direct [-> | ->]; [reflexivity|]. now destruct xl. }
  split.
  { intros img Hbg Himg. unfold xl_get_root_image_to_imlib_data.
    unfold truthy. destruct (Z.eqb_spec (GetRootPixmap srv) 0); [contradiction|].
    cbn [negb]. rewrite Himg. now destruct (win_origin srv). }
  split.
  { intros img rest Hbg ->. unfold xl_get_root_image_to_imlib_data.
    rewrite Hbg. cbn. now destruct (win_origin srv). }
  assert (Hcases :
    let F := xl_get_root_image_to_imlib_data srv (Some s) (Some d) tape in
    (exists k, (k <= 7)%nat /\ snd F = drop k tape) /\
    (fst (fst F) = 0 \/ fst (fst F) = 1) /\
    (fst (fst F) = 0 -> snd (fst F) = Some d) /\
    (Forall (eq None) tape ->
     truthy (GetRootPixmap srv) = false \/
     pixmap_image srv (GetRootPixmap srv) = None ->
     fst (fst F) = 0)).
  { unfold xl_get_root_image_to_imlib_data, xl_capture_desktop_alternative.
    destruct (truthy (GetRootPixmap srv)) eqn:Hbg;
      [destruct (pixmap_image srv (GetRootPixmap srv)) as [img|] eqn:Himg|];
      destruct (win_origin srv) as [wx wy];
      do 7 (try (destruct tape as [|[?|] tape]; cbn));
      (split;
       [first [ exists 0%nat; split; [lia|reflexivity]
              | exists 1%nat; split; [lia|reflexivity]
              | exists 2%nat; split; [lia|reflexivity]
              | exists 3%nat; split; [lia|reflexivity]
              | exists 4%nat; split; [lia|reflexivity]
              | exists 5%nat; split; [lia|reflexivity]
              | exists 6%nat; split; [lia|reflexivity]
              | exists 7%nat; split; [lia|reflexivity] ]
       |split; [auto|split; [first [reflexivity|discriminate]|]]]);
      intros HF Hno;
      repeat match goal with
        | H : Forall _ (_ :: _) |- _ => inversion H; subst; clear H
        end;
      try discriminate; try reflexivity;
      destruct Hno; discriminate. }
  cbv zeta in Hcases. destruct Hcases as (H1 & H2 & H3 & H4).
  split; [exact H1|]. split; [exact H2|]. split; [exact H3|].
  intros HF [Hz|Hn]; apply H4; auto.
  left. unfold truthy. now rewrite Hz.
Qed.

Lemma X18_capture_chain_witness :
  (Forall (eq None) [None; None; (None : option XImage)] /\
   (GetRootPixmap (mkRootServer (Some None) (Some (Some 5)) 1920 1080
                     (fun _ => None) (560, 240)) = 0 \/
    pixmap_image (mkRootServer (Some None) (Some (Some 5)) 1920 1080
                    (fun _ => None) (560, 240))
      (GetRootPixmap (mkRootServer (Some None) (Some (Some 5)) 1920 1080
                        (fun _ => None) (560, 240))) = None)) /\
  fst (fst (xl_get_root_image_to_imlib_data
              (mkRootServer (Some None) (Some (Some 5)) 1920 1080
                 (fun _ => None) (560, 240))
              (Some xl_800x600) (Some [1; 2]) [None; None; None])) = 0.
Proof.
  assert (HF : Forall (eq None) [None; None; (None : option XImage)])
    by (repeat constructor).
  assert (Hn : GetRootPixmap (mkRootServer (Some None) (Some (Some 5)) 1920 1080
                     (fun _ => None) (560, 240)) = 0 \/
    pixmap_image (mkRootServer (Some None) (Some (Some 5)) 1920 1080
                    (fun _ => None) (560, 240))
      (GetRootPixmap (mkRootServer (Some None) (Some (Some 5)) 1920 1080
                        (fun _ => None) (560, 240))) = None)
    by (left; reflexivity).
  split; [split; assumption|].
  exact (proj2 (proj2 (proj2 (proj2 (proj2 (proj2 (proj2
           (X18_capture_chain
              (mkRootServer (Some None) (Some (Some 5)) 1920 1080
                 (fun _ => None) (560, 240))
              xl_800x600 [1; 2] [None; None; None]))))))) HF Hn).
Defined.

(** ** The scrollbar *)

(** X19. The scrollbar is drawn only when scrolling is enabled and there
    are more entries than fit on one page (rows * cols); otherwise nothing
    is drawn.  When it is drawn, with at least one column and non-negative
    [int] counts whose page size does not overflow, the call does not fault,
    the divisor of the position is the scroll bound max_scroll and is at
    least 1, and exactly two filled rectangles land on the visible window
    (none on the render buffer): the track at (width - 30, 160) of size
    15 x (height - 180) and the indicator, 15 wide and at least 20 high.
    With no column and at least one entry the call dies on the division. *)
Theorem X19_scrollbar to_shift s w :
  (truthy (noscroll s) = true \/ entries_count s <= rows s ⊠ cols s ->
   xlunch_native_draw_scrollbar to_shift (Some s) w = Ret w) /\
  (noscroll s = 0 -> 1 <= cols s -> 0 <= rows s ->
   rows s * cols s <= INT_MAX -> rows s * cols s < entries_count s <= INT_MAX ->
   1 <= code_max_scroll s /\
   exists w1 shift dh,
     xlunch_native_draw_scrollbar to_shift (Some s) w = Ret w1 /\
     20 <= dh /\
     shift = to_shift (height s ⊟ 180 ⊟ dh) (scrolled_past s)
               (code_max_scroll s) /\
     window_ops w1 = window_ops w ++
       [FillRectangle 0x606060 (width s ⊟ 30) 160 15 (height s ⊟ 180);
        FillRectangle 0xA0A0A0 (width s ⊟ 30) (160 ⊞ shift) 15 dh] /\
     render_buffer_ops w1 = render_buffer_ops w) /\
  (noscroll s = 0 -> cols s = 0 -> 1 <= entries_count s ->
   xlunch_native_draw_scrollbar to_shift (Some s) w = Fault).
Proof.
  split; [|split].
  - intros [Hno|Hfit]; unfold xlunch_native_draw_scrollbar.
    + now rewrite Hno.
    + destruct (truthy (noscroll s)); [reflexivity|]. cbv zeta.
      destruct (Z.leb_spec (entries_count s) (rows s ⊠ cols s));
        [reflexivity|lia].
  - intros Hno Hc Hr Hov He. unfold INT_MAX in *.
    assert (Hvis : rows s ⊠ cols s = rows s * cols s).
    { apply wrap_small. unfold int_range, INT_MIN, INT_MAX. nia. }
    assert (Hmax : code_max_scroll s
                   = (entries_count s - 1) ÷ cols s - rows s + 1).
    { apply code_max_scroll_exact; unfold INT_MAX; nia. }
    assert (Hpos : 1 <= code_max_scroll s).
    { rewrite Hmax. rewrite quot_floor by lia.
      assert (rows s <= (entries_count s - 1) / cols s)
        by (apply Z.div_le_lower_bound; lia).
      lia. }
    split; [exact Hpos|].
    unfold xlunch_native_draw_scrollbar, truthy. rewrite Hno.
    cbn [Z.eqb negb]. cbv zeta. rewrite Hvis.
    destruct (Z.leb_spec (entries_count s) (rows s * cols s)); [lia|].
    rewrite !idiv_pos by lia. cbn [obind].
    fold (code_max_scroll s).
    set (dh := if _ <? 20 then _ else _).
    assert (Hdh : 20 <= dh).
    { subst dh. destruct (_ <? 20) eqn:E; [lia|apply Z.ltb_ge in E; lia]. }
    eexists _, _, dh. split; [reflexivity|].
    split; [exact Hdh|split; [reflexivity|]].
    unfold window_ops, render_buffer_ops, XFillRectangle.
    rewrite !ops_on_emit.
    change (ops_on ?t (XSetForeground ?c ?v)) with (ops_on t v).
    rewrite !ops_on_emit. cbn [XSetForeground gc_foreground emit].
    repeat case_decide; try congruence.
    rewrite <- !app_assoc, ?app_nil_r. split; reflexivity.
  - intros Hno Hc He. unfold xlunch_native_draw_scrollbar, truthy.
    rewrite Hno, Hc. cbn [Z.eqb negb]. cbv zeta.
    assert (Hz : rows s ⊠ 0 = 0).
    { unfold imul. now rewrite Z.mul_0_r. }
    rewrite Hz.
    destruct (Z.leb_spec (entries_count s) 0); [lia|].
    rewrite idiv_pos by lia. cbn [obind]. reflexivity.
Qed.

Lemma X19_scrollbar_witness :
  (noscroll (set_entries_count 50 xl_800x600) = 0 /\
   1 <= cols (set_entries_count 50 xl_800x600) /\
   0 <= rows (set_entries_count 50 xl_800x600) /\
   rows (set_entries_count 50 xl_800x600)
   * cols (set_entries_count 50 xl_800x600) <= INT_MAX /\
   rows (set_entries_count 50 xl_800x600)
   * cols (set_entries_count 50 xl_800x600)
   < entries_count (set_entries_count 50 xl_800x600) <= INT_MAX) /\
  1 <= code_max_scroll (set_entries_count 50 xl_800x600).
Proof.
  assert (H1 : noscroll (set_entries_count 50 xl_800x600) = 0) by reflexivity.
  assert (H2 : 1 <= cols (set_entries_count 50 xl_800x600)) by (cbn; lia).
  assert (H3 : 0 <= rows (set_entries_count 50 xl_800x600)) by (cbn; lia).
  assert (H4 : rows (set_entries_count 50 xl_800x600)
               * cols (set_entries_count 50 xl_800x600) <= INT_MAX)
    by (unfold INT_MAX; cbn; lia).
  assert (H5 : rows (set_entries_count 50 xl_800x600)
               * cols (set_entries_count 50 xl_800x600)
               < entries_count (set_entries_count 50 xl_800x600) <= INT_MAX)
    by (unfold INT_MAX; cbn; lia).
  split; [auto 10|].
  exact (proj1 (proj1 (proj2 (X19_scrollbar (fun _ _ _ => 0)
                                (set_entries_count 50 xl_800x600) blank_world))
                  H1 H2 H3 H4 H5)).
Defined.

(** ** Rounded rectangles *)

Lemma adds_refl P w : adds P w w.
Proof. split; [reflexivity|]. exists []. cbn. now rewrite app_nil_r. Qed.

Lemma adds_trans P w0 w1 w2 : adds P w0 w1 -> adds P w1 w2 -> adds P w0 w2.
Proof.
  intros [Hg1 [o1 [H1 F1]]] [Hg2 [o2 [H2 F2]]]. split; [congruence|].
  exists (o1 ++ o2). split; [|now apply Forall_app].
  now rewrite H2, H1, fmap_app, app_assoc.
Qed.

Lemma adds_point (P : DrawOp -> Prop) px py w :
  P (DrawPoint (gc_foreground w) px py) -> adds P w (XDrawPoint px py w).
Proof.
  intros H. split; [reflexivity|].
  exists [DrawPoint (gc_foreground w) px py]. split; [reflexivity|].
  now constructor.
Qed.

Lemma adds_foldl {A} P (f : XWorld -> A -> XWorld) (l : list A) w :
  (forall w' a, a ∈ l -> gc_foreground w' = gc_foreground w ->
                adds P w' (f w' a)) ->
  adds P w (foldl f w l).
Proof.
  revert w. induction l as [|a l IH]; intros w Hf; cbn [foldl].
  - apply adds_refl.
  - assert (Ha : adds P w (f w a)) by (apply Hf; [left|reflexivity]).
    eapply adds_trans; [exact Ha|]. apply IH. intros w' b Hb Hg.
    apply Hf; [now right|]. rewrite Hg. exact (proj1 Ha).
Qed.

Ltac unwrap :=
  unfold iadd, isub, imul;
  repeat match goal with
  | |- context [wrap ?z] =>
    rewrite (wrap_small z)
      by (unfold int_range, INT_MIN, INT_MAX in *; lia)
  end.

(** X20. A rounded rectangle whose radius is non-negative and at most half
    of either side, and whose box lies in the [int] range, is painted with
    filled rectangles and points only, the first two primitives being the
    two body rectangles; every pixel painted is painted in the given colour
    and lies inside the box [x, x + width) x [y, y + height).  When the
    radius is at least 1 and strictly less than half of either side, none of
    the four corner pixels of the box is painted.  With radius 0 the plain
    rectangle is filled twice and nothing else is drawn. *)
Theorem X20_rounded_rect_box s x y wd ht radius color w :
  int_range x -> int_range y -> wd <= INT_MAX -> ht <= INT_MAX ->
  x + wd <= INT_MAX -> y + ht <= INT_MAX ->
  0 <= radius -> 2 * radius <= wd -> 2 * radius <= ht ->
  exists points,
    window_ops (xlunch_native_draw_rounded_rect (Some s) x y wd ht radius
                  color w)
    = window_ops w
      ++ FillRectangle color (x + radius) y (wd - 2 * radius) ht
      :: FillRectangle color x (y + radius) wd (ht - 2 * radius)
      :: points /\
    Forall (inside_rounded x y wd ht radius color)
      (FillRectangle color (x + radius) y (wd - 2 * radius) ht
       :: FillRectangle color x (y + radius) wd (ht - 2 * radius)
       :: points) /\
    (radius = 0 -> points = []).
Proof.
  intros Hx Hy Hwd Hht Hxw Hyh Hr Hrw Hrh.
  unfold xlunch_native_draw_rounded_rect.
  set (P := inside_rounded x y wd ht radius color).
  set (w2 := XFillRectangle _ _ _ _ (XFillRectangle _ _ _ _
               (XSetForeground color w))).
  assert (Hw2 : gc_foreground w2 = color) by reflexivity.
  assert (Hd2 : drawn w2 = drawn w ++ (pair Window <$>
            [FillRectangle color (x + radius) y (wd - 2 * radius) ht;
             FillRectangle color x (y + radius) wd (ht - 2 * radius)])).
  { subst w2. unfold XFillRectangle, emit, XSetForeground.
    cbn [drawn gc_foreground fmap list_fmap]. rewrite <- app_assoc.
    cbn [app]. unwrap. reflexivity. }
  match goal with
  | |- context [foldl ?f w2 ?l] =>
    assert (H : l = [] \/ radius <> 0 /\ adds P w2 (foldl f w2 l))
  end.
  { destruct (decide (radius = 0)) as [->|Hn]; [now left|right].
    split; [exact Hn|].
    apply adds_foldl. intros w3 i Hi Hg3.
    apply adds_foldl. intros w4 j Hj Hg4.
    destruct (corner_hit radius i j); [|apply adds_refl].
    apply elem_of_seqZ in Hi, Hj.
    assert (Hg : gc_foreground w4 = color) by congruence.
    assert (Hin : forall px py,
              x + radius - i = px \/ x + wd - radius + i - 1 = px ->
              y + radius - j = py \/ y + ht - radius + j - 1 = py ->
              P (DrawPoint color px py)).
    { intros px py Hpx Hpy. split; [reflexivity|].
      intros c qx qy (-> & -> & ->).
      split; [reflexivity|]. split; [lia|]. split; [lia|].
      intros H1 H2 H3 [Hcx Hcy]. lia. }
    unfold XDrawPoint.
    repeat match goal with
    | |- adds P ?a (emit Window (DrawPoint _ ?px ?py) ?b) =>
      apply (adds_trans P a b);
        [|change (emit Window (DrawPoint (gc_foreground b) px py) b)
            with (XDrawPoint px py b);
          apply adds_point]
    end.
    all: try apply adds_refl.
    all: cbn [emit gc_foreground]; rewrite Hg; apply Hin; unwrap; lia. }
  assert (Hbody : Forall P
            [FillRectangle color (x + radius) y (wd - 2 * radius) ht;
             FillRectangle color x (y + radius) wd (ht - 2 * radius)]).
  { constructor; [|constructor; [|constructor]];
      (split; [reflexivity|]); intros c px py (-> & Hpx & Hpy);
      (split; [reflexivity|]); (split; [lia|]); (split; [lia|]);
      intros H1 H2 H3 [Hcx Hcy]; lia. }
  destruct H as [Hnil|[Hn [_ [ops [Hd Hf]]]]].
  - exists []. rewrite Hnil. cbn [foldl].
    split; [apply window_ops_app; exact Hd2|]. split; [exact Hbody|].
    reflexivity.
  - exists ops. split; [|split; [|intros; contradiction]].
    + apply window_ops_app. rewrite Hd, Hd2, <- app_assoc.
      now rewrite <- fmap_app.
    + change (Forall P ([FillRectangle color (x + radius) y
                           (wd - 2 * radius) ht;
                         FillRectangle color x (y + radius) wd
                           (ht - 2 * radius)] ++ ops)).
      now apply Forall_app.
Qed.

Lemma X20_rounded_rect_box_witness :
  (int_range 10 /\ int_range 20 /\ 100 <= INT_MAX /\ 40 <= INT_MAX /\
   10 + 100 <= INT_MAX /\ 20 + 40 <= INT_MAX /\
   0 <= 5 /\ 2 * 5 <= 100 /\ 2 * 5 <= 40) /\
  exists points,
    window_ops (xlunch_native_draw_rounded_rect (Some xl_800x600)
                  10 20 100 40 5 0x123456 blank_world)
    = window_ops blank_world
      ++ FillRectangle 0x123456 (10 + 5) 20 (100 - 2 * 5) 40
      :: FillRectangle 0x123456 10 (20 + 5) 100 (40 - 2 * 5)
      :: points /\
    Forall (inside_rounded 10 20 100 40 5 0x123456)
      (FillRectangle 0x123456 (10 + 5) 20 (100 - 2 * 5) 40
       :: FillRectangle 0x123456 10 (20 + 5) 100 (40 - 2 * 5)
       :: points) /\
    (5 = 0 -> points = []).
Proof.
  assert (H1 : int_range 10) by (unfold int_range, INT_MIN, INT_MAX; lia).
  assert (H2 : int_range 20) by (unfold int_range, INT_MIN, INT_MAX; lia).
  assert (H3 : 100 <= INT_MAX) by (unfold INT_MAX; lia).
  assert (H4 : 40 <= INT_MAX) by (unfold INT_MAX; lia).
  assert (H5 : 10 + 100 <= INT_MAX) by (unfold INT_MAX; lia).
  assert (H6 : 20 + 40 <= INT_MAX) by (unfold INT_MAX; lia).
  assert (H7 : 0 <= 5) by lia.
  assert (H8 : 2 * 5 <= 100) by lia.
  assert (H9 : 2 * 5 <= 40) by lia.
  split; [auto 20|].
  exact (X20_rounded_rect_box xl_800x600 10 20 100 40 5 0x123456 blank_world
           H1 H2 H3 H4 H5 H6 H7 H8 H9).
Defined.
